(** * Easy Wager on Solana: the TypeScript SDK, embedded and checked

    The development follows the SDK sources:
    - [sdk/types.ts]        records, the [GameState] enum and the error classes;
    - [sdk/utils.ts]        PDA derivation, payout arithmetic, nonce generation;
    - [sdk/instructions.ts] the five instruction builders;
    - [sdk/client.ts]       [WagerClient]: orchestration, queries and the decoder.

    JavaScript values are modelled as follows.  A [BN] (bn.js, arbitrary
    precision, sign and magnitude) is a [Z].  A [Buffer] is a [list byte].
    A [PublicKey] wraps a [BN] holding the big-endian value of its 32 bytes,
    so it is a [Z] as well.  A thrown exception is the [Err] branch of
    [Result].  The RPC connection is an explicit [Ledger]. *)

From Stdlib Require Import ZArith List Lia Bool.
From Stdlib.Strings Require Import String Ascii Byte.
Import ListNotations.
Local Open Scope Z_scope.

(* ================================================================= *)
(** ** Errors and results *)

(** The error kinds of the protocol (they are the codes the on-chain
    program reports through a failed transaction). *)
Inductive ErrorKind : Type :=
| InvalidConfiguration | WrongState | Unauthorized | SelfJoinForbidden
| InvalidWinner | StakeKindMismatch | NotYetExpired | Overflow
| MalformedAccount | RecordNotFound | Timeout.

Definition PublicKey : Type := Z.

(** What the SDK can throw.  [JsError] is a plain [Error], [WagerError] and
    its subclasses come from [types.ts]; [RangeError] is Node's
    out-of-range [Buffer] read; [AssertionError] is a failed bn.js [assert];
    [TokenOwnerOffCurveError] is spl-token's refusal of an owner that is
    not a point of the curve; [SolanaJSONRPCError] is a request the RPC node
    refused; [SendTransactionError] is a transaction the ledger rejected. *)
Inductive Error : Type :=
| JsError (message : string)
| WagerError (message : string)
| GameNotFoundError (gamePda : PublicKey)
| InvalidGameStateError (expected actual : Z)
| RangeError
| AssertionError
| TokenOwnerOffCurveError
| SolanaJSONRPCError
| SendTransactionError (kind : ErrorKind).

Inductive Result (A : Type) : Type :=
| Ok (a : A)
| Err (e : Error).
Arguments Ok {A} a.
Arguments Err {A} e.

Definition bind {A B : Type} (r : Result A) (k : A -> Result B) : Result B :=
  match r with
  | Ok a => k a
  | Err e => Err e
  end.

Notation "x <- c ;; k" := (bind c (fun x => k))
  (at level 61, c at next level, right associativity).

Definition is_ok {A : Type} (r : Result A) : bool :=
  match r with Ok _ => true | Err _ => false end.

(** How the SDK's exceptions read in the vocabulary of the protocol. *)
Definition error_kind (e : Error) : option ErrorKind :=
  match e with
  | JsError m =>
      if String.eqb m "Payout basis points must be between 1 and 9999"
      then Some InvalidConfiguration else None
  | WagerError m =>
      if String.eqb m "Winner must be one of the two players" then Some InvalidWinner
      else if String.eqb m "Cannot update resolver after deposits have been made"
      then Some WrongState
      else if String.eqb m "Game has not expired yet" then Some NotYetExpired
      else None
  | GameNotFoundError _ => Some RecordNotFound
  | InvalidGameStateError _ _ => Some WrongState
  | RangeError => Some MalformedAccount
  | AssertionError => None
  | TokenOwnerOffCurveError => None
  | SolanaJSONRPCError => None
  | SendTransactionError k => Some k
  end.

(* ================================================================= *)
(** ** Bytes and Node's [Buffer] *)

Definition Z_of_byte (b : byte) : Z := Z.of_N (Byte.to_N b).

Definition byte_of_Z (z : Z) : byte :=
  match Byte.of_N (Z.to_N (z mod 256)) with
  | Some b => b
  | None => x00
  end.

(** Little-endian and big-endian values of a byte string. *)
Fixpoint le_to_Z (bs : list byte) : Z :=
  match bs with
  | [] => 0
  | b :: rest => Z_of_byte b + 256 * le_to_Z rest
  end.

Definition be_to_Z (bs : list byte) : Z := le_to_Z (rev bs).

Fixpoint Z_to_le (len : nat) (z : Z) : list byte :=
  match len with
  | O => []
  | S n => byte_of_Z z :: Z_to_le n (z / 256)
  end.

Definition Z_to_be (len : nat) (z : Z) : list byte := rev (Z_to_le len z).

Module Buffer.

(** [Buffer.from(str)]: the UTF-8 bytes (the seeds are ASCII). *)
Definition from_string (s : string) : list byte := list_byte_of_string s.

(** [Buffer.alloc(n)]. *)
Definition alloc (n : nat) : list byte := repeat x00 n.

(** [buf.slice(start, end)]: both ends are clamped to the length. *)
Definition slice (data : list byte) (start stop : nat) : list byte :=
  firstn (stop - start) (skipn start data).

(** [buf.readUInt8(offset)] throws when the offset is out of range. *)
Definition readUInt8 (data : list byte) (offset : nat) : Result Z :=
  match nth_error data offset with
  | Some b => Ok (Z_of_byte b)
  | None => Err RangeError
  end.

(** [buf.readUInt16LE(offset)] throws unless both bytes are in range. *)
Definition readUInt16LE (data : list byte) (offset : nat) : Result Z :=
  if (offset + 2 <=? List.length data)%nat
  then Ok (le_to_Z (slice data offset (offset + 2)))
  else Err RangeError.

(** [buf.toString('base64')]: four characters for every three bytes, the
    last group padded with [=]. *)
Definition base64_alphabet : string :=
  "ABCDEFGHIJKLMNOPQRSTUVWXYZabcdefghijklmnopqrstuvwxyz0123456789+/".

Definition base64_char (i : Z) : ascii :=
  match String.get (Z.to_nat i) base64_alphabet with
  | Some c => c
  | None => "="%char
  end.

Fixpoint toString_base64 (data : list byte) : string :=
  match data with
  | [] => EmptyString
  | [a] =>
      let a := Z_of_byte a in
      String (base64_char (a / 4))
        (String (base64_char (a mod 4 * 16)) "==")
  | [a; b] =>
      let a := Z_of_byte a in
      let b := Z_of_byte b in
      String (base64_char (a / 4))
        (String (base64_char (a mod 4 * 16 + b / 16))
           (String (base64_char (b mod 16 * 4)) "="))
  | a :: b :: c :: rest =>
      let a := Z_of_byte a in
      let b := Z_of_byte b in
      let c := Z_of_byte c in
      String (base64_char (a / 4))
        (String (base64_char (a mod 4 * 16 + b / 16))
           (String (base64_char (b mod 16 * 4 + c / 64))
              (String (base64_char (c mod 64)) (toString_base64 rest))))
  end.

End Buffer.

(* ================================================================= *)
(** ** Base-58 text (the [bs58] package, and the RPC node's reading of it) *)

Module Bs58.

Definition alphabet : string :=
  "123456789ABCDEFGHJKLMNPQRSTUVWXYZabcdefghijkmnopqrstuvwxyz".

Fixpoint index_in (c : ascii) (s : string) (i : Z) : option Z :=
  match s with
  | EmptyString => None
  | String d rest => if Ascii.eqb c d then Some i else index_in c rest (i + 1)
  end.

(** The digit a character stands for, if it is one of the alphabet. *)
Definition digit_of (c : ascii) : option Z := index_in c alphabet 0.

Definition char_of (d : Z) : ascii :=
  match String.get (Z.to_nat d) alphabet with
  | Some c => c
  | None => "1"%char
  end.

(** The digits of a non-negative number in a base, least significant
    first and without leading zeros: none for zero.  [fuel] bounds their
    count. *)
Fixpoint digits_le (base : Z) (fuel : nat) (n : Z) : list Z :=
  match fuel with
  | O => []
  | S f => if n =? 0 then [] else n mod base :: digits_le base f (n / base)
  end.

(** Most significant first. *)
Definition digits (base n : Z) : list Z :=
  rev (digits_le base (S (Z.to_nat (Z.log2 n))) n).

Fixpoint leading_zeros (data : list byte) : nat :=
  match data with
  | b :: rest => if Byte.eqb b x00 then S (leading_zeros rest) else O
  | [] => O
  end.

Fixpoint ones (n : nat) : string :=
  match n with
  | O => EmptyString
  | S k => String "1" (ones k)
  end.

(** [bs58.encode]: a [1] for every leading zero byte, then the digits of
    the value of the bytes. *)
Definition encode (data : list byte) : string :=
  append (ones (leading_zeros data))
         (string_of_list_ascii (map char_of (digits 58 (be_to_Z data)))).

Fixpoint leading_ones (s : string) : nat :=
  match s with
  | String c rest => if Ascii.eqb c "1" then S (leading_ones rest) else O
  | EmptyString => O
  end.

Fixpoint value (s : string) (acc : Z) : option Z :=
  match s with
  | EmptyString => Some acc
  | String c rest =>
      match digit_of c with
      | Some d => value rest (acc * 58 + d)
      | None => None
      end
  end.

(** [bs58.decode]: a character outside the alphabet is refused; a zero
    byte for every leading [1], then the bytes of the value. *)
Definition decode (s : string) : option (list byte) :=
  match value s 0 with
  | None => None
  | Some v => Some (repeat x00 (leading_ones s) ++ map byte_of_Z (digits 256 v))
  end.

End Bs58.

(* ================================================================= *)
(** ** bn.js *)

Module BN.

(** [muln]: multiplication by a JavaScript number; the library asserts
    that the magnitude of the number fits 26 bits. *)
Definition muln (a num : Z) : Result Z :=
  if Z.abs num <? 67108864 then Ok (a * num) else Err AssertionError.

(** [divn]: division by a JavaScript number, on the magnitude (the
    quotient is truncated towards zero and keeps the sign). *)
Definition divn (a num : Z) : Result Z :=
  if Z.abs num <=? 67108863 then Ok (Z.quot a num) else Err AssertionError.

Definition sub (a b : Z) : Z := a - b.

(** [new BN(buffer, 'le')]. *)
Definition of_le (bs : list byte) : Z := le_to_Z bs.

(** [toArrayLike(Buffer, 'le', len)]: the magnitude on [len] bytes; the
    library asserts that it fits. *)
Definition toArrayLike_le (a : Z) (len : nat) : Result (list byte) :=
  if Z.abs a <? 256 ^ Z.of_nat len
  then Ok (Z_to_le len (Z.abs a))
  else Err AssertionError.

(** [toNumber()]: the library asserts that the value fits 53 bits. *)
Definition toNumber (a : Z) : Result Z :=
  if Z.abs a <? 9007199254740992 then Ok a else Err AssertionError.

(** [new BN(number)], for an integer: the library asserts that the
    magnitude is below 2^53. *)
Definition of_number (number : Z) : Result Z :=
  if Z.abs number <? 9007199254740992 then Ok number else Err AssertionError.

End BN.

(* ================================================================= *)
(** ** web3.js [PublicKey] and the well-known program identities *)

Module PublicKey_.

(** [new PublicKey(bytes)]: the big-endian value; longer than 32 bytes is
    refused, shorter is accepted. *)
Definition of_bytes (bs : list byte) : Result PublicKey :=
  if (List.length bs <=? 32)%nat then Ok (be_to_Z bs)
  else Err (JsError "Invalid public key input").

(** [toBuffer()]: 32 bytes, big-endian, zero-padded on the left. *)
Definition toBuffer (k : PublicKey) : list byte := Z_to_be 32 k.

Definition equals (a b : PublicKey) : bool := a =? b.

(** [toBase58()]: the base-58 text of the 32 bytes. *)
Definition toBase58 (k : PublicKey) : string := Bs58.encode (toBuffer k).

(** The key a base-58 string stands for, for the program identities
    below, which the sources give in that form. *)
Definition of_base58 (s : string) : PublicKey :=
  match Bs58.decode s with
  | Some data => be_to_Z data
  | None => 0
  end.

(** [PublicKey.default]: thirty-two zero bytes. *)
Definition default : PublicKey := 0.

End PublicKey_.

Definition WAGER_PROGRAM_ID : PublicKey :=
  Eval vm_compute in
    PublicKey_.of_base58 "Fg6PaFpoGXkYsidMpWTK6W2BeZ7FEfcYkg476zPFsLnS".

Definition TOKEN_PROGRAM_ID : PublicKey :=
  Eval vm_compute in
    PublicKey_.of_base58 "TokenkegQfeZyiNwAJbNbGKPFXCWuBvf9Ss623VQ5DA".

Definition ASSOCIATED_TOKEN_PROGRAM_ID : PublicKey :=
  Eval vm_compute in
    PublicKey_.of_base58 "ATokenGPvbdGVxr1b2hvZbsiqW5xWH25efTNsLJA8knL".

Definition SYSVAR_RENT_PUBKEY : PublicKey :=
  Eval vm_compute in
    PublicKey_.of_base58 "SysvarRent111111111111111111111111111111111".

Module SystemProgram.
Definition programId : PublicKey :=
  Eval vm_compute in
    PublicKey_.of_base58 "11111111111111111111111111111111".
End SystemProgram.

(* ================================================================= *)
(** ** JavaScript numbers: the part of binary64 that [generateNonce] uses *)

(** A finite, non-negative binary64 value [mantissa * 2 ^ exponent]. *)
Record float64 : Type := mkFloat { mantissa : Z; exponent : Z }.

Module Number.

Definition prec : Z := 53.
Definition emin : Z := -1074.

(** Rounding of the exact value [m * 2 ^ e] to the nearest binary64
    value, ties to even.  [shift] low bits are dropped: as many as there
    are bits beyond the precision, and as many as the smallest quantum
    requires.  (Overflow to infinity is not modelled; the products below
    stay under [2 ^ 20].) *)
Definition round_nearest_even (m e : Z) : float64 :=
  let shift := Z.max (Z.max 0 (Z.log2 m + 1 - prec)) (emin - e) in
  let q := Z.shiftr m shift in
  let rest := m - Z.shiftl q shift in
  let half := Z.shiftl 1 (shift - 1) in
  let up := (0 <? shift) && ((half <? rest) || ((half =? rest) && Z.odd q)) in
  {| mantissa := if up then q + 1 else q; exponent := e + shift |}.

(** [x * y]. *)
Definition mul (x y : float64) : float64 :=
  round_nearest_even (mantissa x * mantissa y) (exponent x + exponent y).

(** An integer literal below [2 ^ 53]. *)
Definition of_Z (n : Z) : float64 := {| mantissa := n; exponent := 0 |}.

(** [Math.floor(x)], as an integer. *)
Definition floor (x : float64) : Z :=
  if 0 <=? exponent x then Z.shiftl (mantissa x) (exponent x)
  else Z.shiftr (mantissa x) (- exponent x).

(** What [Math.random()] may return: a binary64 value from 0, included, to
    1, excluded.  These are the values [m * 2 ^ e] with [0 <= m < 2 ^ 53]
    and [-1074 <= e <= -53]: the normal ones have [2 ^ 52 <= m], the
    subnormal ones [e = -1074]. *)
Definition in_unit_interval (x : float64) : Prop :=
  0 <= mantissa x < 2 ^ prec /\ emin <= exponent x <= - prec.

End Number.

(* ================================================================= *)
(** ** types.ts *)

Inductive GameState : Type := Open | Ready | Paid | Canceled | Expired.

(** The numeric value of an enum member (what is stored and compared). *)
Definition GameState_value (s : GameState) : Z :=
  match s with
  | Open => 0 | Ready => 1 | Paid => 2 | Canceled => 3 | Expired => 4
  end.

Module GameAccount.
(** [state] is the raw number: the decoder casts the byte without a
    check. *)
Record t : Type := mk {
  creator : PublicKey;
  player1 : PublicKey;
  player2 : PublicKey;
  resolver : PublicKey;
  devWallet : PublicKey;
  mint : PublicKey;
  wager : Z;
  payoutBps : Z;
  state : Z;
  expiryTs : Z;
  nonce : Z;
  bump : Z;
  vaultBump : Z
}.

(** The helper methods of [GameAccountImpl] ([client.ts]). *)
Definition isNativeSOL (g : t) : bool :=
  PublicKey_.equals (mint g) PublicKey_.default.

Definition canJoin (g : t) : bool :=
  (state g =? GameState_value Open)
  && PublicKey_.equals (player2 g) PublicKey_.default.

Definition canResolve (g : t) : bool :=
  state g =? GameState_value Ready.
End GameAccount.

Module CreateGameArgs.
Record t : Type := mk {
  mint : PublicKey;
  wager : Z;
  payoutBps : Z;
  expiryTs : Z;
  resolverPubkey : option PublicKey;
  devWallet : PublicKey;
  nonce : option Z
}.
End CreateGameArgs.

Record GamePDAs : Type := mkGamePDAs {
  gamePda : PublicKey;
  gameBump : Z;
  vaultPda : option PublicKey;
  vaultBump : option Z
}.

Record PayoutAmounts : Type := mkPayoutAmounts {
  winnerAmount : Z;
  feeAmount : Z;
  totalPot : Z
}.

(** web3.js: an account reference and an instruction. *)
Record AccountMeta : Type := mkMeta {
  pubkey : PublicKey;
  isSigner : bool;
  isWritable : bool
}.

Record TransactionInstruction : Type := mkInstruction {
  keys : list AccountMeta;
  programId : PublicKey;
  data : list byte
}.

(** A transaction is the list of its instructions, in order. *)
Definition Transaction : Type := list TransactionInstruction.

(** The accounts the RPC connection serves: address, owning program, data.
    The first binding of an address is the account. *)
Record AccountInfo : Type := mkAccountInfo {
  owner : PublicKey;
  account_data : list byte
}.

Definition Ledger : Type := list (PublicKey * AccountInfo).

Fixpoint getAccountInfo (l : Ledger) (address : PublicKey) : option AccountInfo :=
  match l with
  | [] => None
  | (a, info) :: rest => if a =? address then Some info else getAccountInfo rest address
  end.

(** The collaborators the SDK calls but does not implement: the
    program-address hash of web3.js, and its test whether a key is a point
    of the curve (the key of a key pair is one, a program-derived address
    is not). *)
Class Derivation : Type := {
  findProgramAddressSync : list (list byte) -> PublicKey -> PublicKey * Z;
  isOnCurve : PublicKey -> bool
}.

(** The transport: submit a transaction with its signers and wait for the
    ledger's verdict. *)
Class Transport : Type := {
  sendAndConfirmTransaction :
    Ledger -> Transaction -> list PublicKey -> Result string * Ledger
}.

(* ================================================================= *)
(** ** utils.ts *)

Definition isNativeSOL (mint : PublicKey) : bool :=
  PublicKey_.equals mint PublicKey_.default.

Definition calculatePayouts (wager payoutBps : Z) : Result PayoutAmounts :=
  totalPot <- BN.muln wager 2 ;;
  scaled <- BN.muln totalPot payoutBps ;;
  winnerAmount <- BN.divn scaled 10000 ;;
  let feeAmount := BN.sub totalPot winnerAmount in
  Ok {| winnerAmount := winnerAmount; feeAmount := feeAmount; totalPot := totalPot |}.

Definition validatePayoutBps (payoutBps : Z) : Result unit :=
  if (payoutBps <=? 0) || (payoutBps >=? 10000)
  then Err (JsError "Payout basis points must be between 1 and 9999")
  else Ok tt.

(** [generateNonce], given the value [Math.random()] returns. *)
Definition generateNonce (random : float64) : Z :=
  Number.floor (Number.mul random (Number.of_Z 1000000)).

(** [hoursFromNow], given the clock in seconds. *)
Definition hoursFromNow (now hours : Z) : Result Z :=
  BN.of_number (now + hours * 3600).

(** [isExpired], given the clock in seconds. *)
Definition isExpired (now timestamp : Z) : Result bool :=
  t <- BN.toNumber timestamp ;;
  Ok (t <=? now).

Section Utils.
Context {D : Derivation}.

Definition deriveGamePDAs (creator : PublicKey) (nonce : Z) (mint programId : PublicKey)
  : Result GamePDAs :=
  nonceBytes <- BN.toArrayLike_le nonce 8 ;;
  let (gamePda, gameBump) :=
    findProgramAddressSync
      [Buffer.from_string "game"; PublicKey_.toBuffer creator; nonceBytes]
      programId in
  if negb (PublicKey_.equals mint PublicKey_.default) then
    let (vault, bump) :=
      findProgramAddressSync
        [Buffer.from_string "vault"; PublicKey_.toBuffer gamePda; PublicKey_.toBuffer mint]
        programId in
    Ok {| gamePda := gamePda; gameBump := gameBump;
          vaultPda := Some vault; vaultBump := Some bump |}
  else
    Ok {| gamePda := gamePda; gameBump := gameBump;
          vaultPda := None; vaultBump := None |}.

(** spl-token's [getAssociatedTokenAddressSync], with its default token
    and companion programs: an owner off the curve is refused unless the
    caller allows it; the address is derived from the owner, the token
    program and the mint. *)
Definition getAssociatedTokenAddressSync
    (mint owner : PublicKey) (allowOwnerOffCurve : bool) : Result PublicKey :=
  if negb allowOwnerOffCurve && negb (isOnCurve owner)
  then Err TokenOwnerOffCurveError
  else
    Ok (fst (findProgramAddressSync
               [PublicKey_.toBuffer owner; PublicKey_.toBuffer TOKEN_PROGRAM_ID;
                PublicKey_.toBuffer mint]
               ASSOCIATED_TOKEN_PROGRAM_ID)).

(** spl-token's [createAssociatedTokenAccountInstruction]. *)
Definition createAssociatedTokenAccountInstruction
    (payer associatedToken owner mint : PublicKey) : TransactionInstruction :=
  {| keys := [ mkMeta payer true true;
               mkMeta associatedToken false true;
               mkMeta owner false false;
               mkMeta mint false false;
               mkMeta SystemProgram.programId false false;
               mkMeta TOKEN_PROGRAM_ID false false ];
     programId := ASSOCIATED_TOKEN_PROGRAM_ID;
     data := Buffer.alloc 0 |}.

(** [getOrCreateAssociatedTokenAccount]: the companion address, and the
    instruction that creates it when the connection shows no account.  The
    address is derived before the [try]: its refusal is not caught. *)
Definition getOrCreateAssociatedTokenAccount
    (connection : Ledger) (payer mint owner : PublicKey) (allowOwnerOffCurve : bool)
  : Result (PublicKey * option TransactionInstruction) :=
  associatedToken <- getAssociatedTokenAddressSync mint owner allowOwnerOffCurve ;;
  match getAccountInfo connection associatedToken with
  | Some _ => Ok (associatedToken, None)
  | None =>
      Ok (associatedToken,
          Some (createAssociatedTokenAccountInstruction payer associatedToken owner mint))
  end.

End Utils.

(* ================================================================= *)
(** ** instructions.ts *)

(** [preInstructions.push(ix)] when the instruction is there. *)
Definition push_if {A : Type} (l : list A) (o : option A) : list A :=
  match o with
  | Some a => l ++ [a]
  | None => l
  end.

Section Instructions.
Context {D : Derivation}.

Definition createCreateGameInstruction
    (random : float64) (creator : PublicKey) (args : CreateGameArgs.t)
    (programId : PublicKey)
  : Result (TransactionInstruction * PublicKey * list TransactionInstruction) :=
  _ <- validatePayoutBps (CreateGameArgs.payoutBps args) ;;
  let nonce :=
    match CreateGameArgs.nonce args with
    | Some n => n
    | None => generateNonce random
    end in
  pdas <- deriveGamePDAs creator nonce (CreateGameArgs.mint args) programId ;;
  let preInstructions : list TransactionInstruction := [] in
  _ <- (if negb (isNativeSOL (CreateGameArgs.mint args)) then
          match vaultPda pdas with
          | None => Err (WagerError "Vault PDA is required for SPL tokens")
          | Some _ => Ok tt
          end
        else Ok tt) ;;
  wagerBytes <- BN.toArrayLike_le (CreateGameArgs.wager args) 8 ;;
  expiryBytes <- BN.toArrayLike_le (CreateGameArgs.expiryTs args) 8 ;;
  nonceBytes <- BN.toArrayLike_le nonce 8 ;;
  let payoutBps := CreateGameArgs.payoutBps args in
  let data :=
    [byte_of_Z 0]
    ++ PublicKey_.toBuffer (CreateGameArgs.mint args)
    ++ wagerBytes
    ++ [byte_of_Z (Z.land payoutBps 255);
        byte_of_Z (Z.land (Z.shiftr payoutBps 8) 255)]
    ++ expiryBytes
    ++ [byte_of_Z (match CreateGameArgs.resolverPubkey args with
                   | Some _ => 1 | None => 0 end)]
    ++ (match CreateGameArgs.resolverPubkey args with
        | Some r => PublicKey_.toBuffer r
        | None => Buffer.alloc 32
        end)
    ++ nonceBytes in
  let instruction :=
    {| keys :=
         [ mkMeta creator true true;
           mkMeta (gamePda pdas) false true ]
         ++ (match vaultPda pdas with
             | Some v => [mkMeta v false true]
             | None => []
             end)
         ++ (if isNativeSOL (CreateGameArgs.mint args) then []
             else [mkMeta (CreateGameArgs.mint args) false false])
         ++ [ mkMeta (CreateGameArgs.devWallet args) false false;
              mkMeta TOKEN_PROGRAM_ID false false;
              mkMeta SystemProgram.programId false false;
              mkMeta SYSVAR_RENT_PUBKEY false false ];
       programId := programId;
       data := data |} in
  Ok (instruction, gamePda pdas, preInstructions).

(** [deriveGamePDAs(...).vaultPda!] in the token branches.  The
    assertion is erased at run time; the vault is always derived there,
    since the mint is not the native one, and the [None] branch only
    closes the match. *)
Definition derived_vault (gameAccount : GameAccount.t) (mint programId : PublicKey)
  : Result PublicKey :=
  pdas <- deriveGamePDAs (GameAccount.creator gameAccount)
                         (GameAccount.nonce gameAccount) mint programId ;;
  match vaultPda pdas with
  | Some v => Ok v
  | None => Err (JsError "undefined account key")
  end.

Definition createJoinGameInstruction
    (connection : Ledger) (player2 gamePda : PublicKey)
    (gameAccount : GameAccount.t) (programId : PublicKey)
  : Result (TransactionInstruction * list TransactionInstruction) :=
  let preInstructions : list TransactionInstruction := [] in
  let mint := GameAccount.mint gameAccount in
  let accounts :=
    [ mkMeta player2 true true;
      mkMeta gamePda false true ] in
  r <- (if negb (isNativeSOL mint) then
          created <-
            getOrCreateAssociatedTokenAccount connection player2 mint player2 false ;;
          let (player2TokenAccount, createTokenAccountIx) := created in
          let preInstructions := push_if preInstructions createTokenAccountIx in
          vaultPda <- derived_vault gameAccount mint programId ;;
          Ok (accounts ++ [ mkMeta player2TokenAccount false true;
                            mkMeta vaultPda false true ],
              preInstructions)
        else
          Ok (accounts ++ [ mkMeta SystemProgram.programId false false;
                            mkMeta SystemProgram.programId false false ],
              preInstructions)) ;;
  let (accounts, preInstructions) := r in
  let accounts :=
    accounts ++ [ mkMeta TOKEN_PROGRAM_ID false false;
                  mkMeta SystemProgram.programId false false ] in
  let data := [byte_of_Z 1] in
  Ok ({| keys := accounts; programId := programId; data := data |},
      preInstructions).

Definition createResolveGameInstruction
    (connection : Ledger) (resolver gamePda winner : PublicKey)
    (gameAccount : GameAccount.t) (programId : PublicKey)
  : Result (TransactionInstruction * list TransactionInstruction) :=
  let preInstructions : list TransactionInstruction := [] in
  let mint := GameAccount.mint gameAccount in
  let accounts :=
    [ mkMeta resolver true true;
      mkMeta gamePda false true ] in
  r <- (if negb (isNativeSOL mint) then
          createdWinner <-
            getOrCreateAssociatedTokenAccount connection resolver mint winner false ;;
          let (winnerTokenAccount, createWinnerTokenAccountIx) := createdWinner in
          let preInstructions := push_if preInstructions createWinnerTokenAccountIx in
          createdDev <-
            getOrCreateAssociatedTokenAccount connection resolver mint
              (GameAccount.devWallet gameAccount) false ;;
          let (devTokenAccount, createDevTokenAccountIx) := createdDev in
          let preInstructions := push_if preInstructions createDevTokenAccountIx in
          vaultPda <- derived_vault gameAccount mint programId ;;
          Ok (accounts ++ [ mkMeta winnerTokenAccount false true;
                            mkMeta devTokenAccount false true;
                            mkMeta vaultPda false true ],
              preInstructions)
        else
          Ok (accounts ++ [ mkMeta SystemProgram.programId false false;
                            mkMeta SystemProgram.programId false false;
                            mkMeta SystemProgram.programId false false ],
              preInstructions)) ;;
  let (accounts, preInstructions) := r in
  let accounts :=
    accounts ++ [ mkMeta winner false true;
                  mkMeta (GameAccount.devWallet gameAccount) false true;
                  mkMeta TOKEN_PROGRAM_ID false false;
                  mkMeta SystemProgram.programId false false ] in
  let data := [byte_of_Z 2] ++ PublicKey_.toBuffer winner in
  Ok ({| keys := accounts; programId := programId; data := data |},
      preInstructions).

Definition createCancelGameInstruction
    (connection : Ledger) (authority gamePda : PublicKey)
    (gameAccount : GameAccount.t) (programId : PublicKey)
  : Result (TransactionInstruction * list TransactionInstruction) :=
  let preInstructions : list TransactionInstruction := [] in
  let mint := GameAccount.mint gameAccount in
  let hasPlayer2 :=
    negb (PublicKey_.equals (GameAccount.player2 gameAccount) PublicKey_.default) in
  let accounts :=
    [ mkMeta authority true true;
      mkMeta gamePda false true ] in
  r <- (if negb (isNativeSOL mint) then
          createdCreator <-
            getOrCreateAssociatedTokenAccount connection authority mint
              (GameAccount.creator gameAccount) false ;;
          let (creatorTokenAccount, createCreatorTokenAccountIx) := createdCreator in
          let preInstructions := push_if preInstructions createCreatorTokenAccountIx in
          second <-
            (if hasPlayer2 then
               createdPlayer2 <-
                 getOrCreateAssociatedTokenAccount connection authority mint
                   (GameAccount.player2 gameAccount) false ;;
               let (address, createPlayer2TokenAccountIx) := createdPlayer2 in
               Ok (address, push_if preInstructions createPlayer2TokenAccountIx)
             else Ok (SystemProgram.programId, preInstructions)) ;;
          let (player2TokenAccount, preInstructions) := second in
          vaultPda <- derived_vault gameAccount mint programId ;;
          Ok (accounts ++ [ mkMeta creatorTokenAccount false true;
                            mkMeta player2TokenAccount false true;
                            mkMeta vaultPda false true ],
              preInstructions)
        else
          Ok (accounts ++ [ mkMeta SystemProgram.programId false false;
                            mkMeta SystemProgram.programId false false;
                            mkMeta SystemProgram.programId false false ],
              preInstructions)) ;;
  let (accounts, preInstructions) := r in
  let accounts :=
    accounts
    ++ [ mkMeta (GameAccount.creator gameAccount) false true ]
    ++ (if hasPlayer2
        then [ mkMeta (GameAccount.player2 gameAccount) false true ]
        else [ mkMeta SystemProgram.programId false false ])
    ++ [ mkMeta TOKEN_PROGRAM_ID false false;
         mkMeta SystemProgram.programId false false ] in
  let data := [byte_of_Z 3] in
  Ok ({| keys := accounts; programId := programId; data := data |},
      preInstructions).

Definition createUpdateResolverInstruction
    (creator gamePda newResolver : PublicKey)
    (gameAccount : GameAccount.t) (programId : PublicKey)
  : TransactionInstruction :=
  let data := [byte_of_Z 4] ++ PublicKey_.toBuffer newResolver in
  {| keys := [ mkMeta creator true true;
               mkMeta gamePda false true ];
     programId := programId;
     data := data |}.

End Instructions.

(* ================================================================= *)
(** ** client.ts *)

Record WagerClient : Type := mkWagerClient {
  client_programId : PublicKey
}.

(** [deserializeGameAccount]: the discriminator is skipped, the fields are
    read at running offsets. *)
Definition deserializeGameAccount (data : list byte) : Result GameAccount.t :=
  let offset := 8%nat in
  creator <- PublicKey_.of_bytes (Buffer.slice data offset (offset + 32)) ;;
  let offset := (offset + 32)%nat in
  player1 <- PublicKey_.of_bytes (Buffer.slice data offset (offset + 32)) ;;
  let offset := (offset + 32)%nat in
  player2 <- PublicKey_.of_bytes (Buffer.slice data offset (offset + 32)) ;;
  let offset := (offset + 32)%nat in
  resolver <- PublicKey_.of_bytes (Buffer.slice data offset (offset + 32)) ;;
  let offset := (offset + 32)%nat in
  devWallet <- PublicKey_.of_bytes (Buffer.slice data offset (offset + 32)) ;;
  let offset := (offset + 32)%nat in
  mint <- PublicKey_.of_bytes (Buffer.slice data offset (offset + 32)) ;;
  let offset := (offset + 32)%nat in
  let wager := BN.of_le (Buffer.slice data offset (offset + 8)) in
  let offset := (offset + 8)%nat in
  payoutBps <- Buffer.readUInt16LE data offset ;;
  let offset := (offset + 2)%nat in
  state <- Buffer.readUInt8 data offset ;;
  let offset := (offset + 1)%nat in
  let expiryTs := BN.of_le (Buffer.slice data offset (offset + 8)) in
  let offset := (offset + 8)%nat in
  let nonce := BN.of_le (Buffer.slice data offset (offset + 8)) in
  let offset := (offset + 8)%nat in
  bump <- Buffer.readUInt8 data offset ;;
  let offset := (offset + 1)%nat in
  vaultBump <- Buffer.readUInt8 data offset ;;
  Ok (GameAccount.mk creator player1 player2 resolver devWallet mint
        wager payoutBps state expiryTs nonce bump vaultBump).

(** The offset at which [deserializeGameAccount] reads the state byte. *)
Definition decoder_state_offset : nat := 8 + 32 + 32 + 32 + 32 + 32 + 32 + 8 + 2.

Definition getGame (connection : Ledger) (gamePda : PublicKey) : Result GameAccount.t :=
  match getAccountInfo connection gamePda with
  | None => Err (GameNotFoundError gamePda)
  | Some accountInfo => deserializeGameAccount (account_data accountInfo)
  end.

(** A [memcmp] filter of [getProgramAccounts], as the client sends it: an
    offset, and the bytes to compare as text.  No encoding is named. *)
Record Memcmp : Type := mkMemcmp {
  memcmp_offset : nat;
  memcmp_bytes : string
}.

Definition bytes_eqb (a b : list byte) : bool :=
  if list_eq_dec Byte.byte_eq_dec a b then true else false.

(** The node's comparison: the account's bytes from [offset] on must start
    with [bytes]. *)
Definition memcmp_matches (data : list byte) (offset : nat) (bytes : list byte) : bool :=
  bytes_eqb (Buffer.slice data offset (offset + List.length bytes)) bytes.

(** The node reads the text of a filter as base-58, the encoding of a
    filter that names none. *)
Fixpoint decode_filters (filters : list Memcmp) : option (list (nat * list byte)) :=
  match filters with
  | [] => Some []
  | f :: rest =>
      match Bs58.decode (memcmp_bytes f), decode_filters rest with
      | Some bytes, Some decoded => Some ((memcmp_offset f, bytes) :: decoded)
      | _, _ => None
      end
  end.

(** [connection.getProgramAccounts]: the node refuses a request with a
    filter whose text is not base-58; otherwise it returns the accounts
    of the program that match every filter. *)
Definition getProgramAccounts
    (connection : Ledger) (programId : PublicKey) (filters : list Memcmp)
  : Result (list (PublicKey * AccountInfo)) :=
  match decode_filters filters with
  | None => Err SolanaJSONRPCError
  | Some decoded =>
      Ok (filter
            (fun a =>
               (owner (snd a) =? programId)
               && forallb (fun f => memcmp_matches (account_data (snd a)) (fst f) (snd f))
                    decoded)
            connection)
  end.

(** [accounts.map(decode-or-null).filter(non-null)]. *)
Fixpoint decode_all (accounts : list (PublicKey * AccountInfo)) : list GameAccount.t :=
  match accounts with
  | [] => []
  | a :: rest =>
      match deserializeGameAccount (account_data (snd a)) with
      | Ok g => g :: decode_all rest
      | Err _ => decode_all rest
      end
  end.

Definition getGamesByCreator (this : WagerClient) (connection : Ledger)
    (creator : PublicKey) : Result (list GameAccount.t) :=
  let filters := [ {| memcmp_offset := 8;
                      memcmp_bytes := PublicKey_.toBase58 creator |} ] in
  accounts <- getProgramAccounts connection (client_programId this) filters ;;
  Ok (decode_all accounts).

(** The filter [getGamesByState] builds: the state byte, written as
    base-64 text. *)
Definition stateOffset : nat := 8 + 32 * 5 + 8 + 2.

Definition state_filter (state : GameState) : Memcmp :=
  {| memcmp_offset := stateOffset;
     memcmp_bytes := Buffer.toString_base64 [byte_of_Z (GameState_value state)] |}.

Definition getGamesByState (this : WagerClient) (connection : Ledger)
    (state : GameState) : Result (list GameAccount.t) :=
  let filters := [ state_filter state ] in
  accounts <- getProgramAccounts connection (client_programId this) filters ;;
  Ok (decode_all accounts).

Definition getOpenGames (this : WagerClient) (connection : Ledger) :=
  getGamesByState this connection Open.

Definition getReadyGames (this : WagerClient) (connection : Ledger) :=
  getGamesByState this connection Ready.

(** The options of [createGameWithDefaults] ([Partial<CreateGameArgs>];
    its [mint] and [wager] are never read). *)
Module CreateGameOptions.
Record t : Type := mk {
  payoutBps : option Z;
  expiryTs : option Z;
  devWallet : option PublicKey;
  resolverPubkey : option PublicKey;
  nonce : option Z
}.
Definition none : t := mk None None None None None.
End CreateGameOptions.

Definition or_default {A : Type} (o : option A) (d : A) : A :=
  match o with Some a => a | None => d end.

Section Client.
Context {D : Derivation} {T : Transport}.

(** Every operation reads and possibly changes the ledger behind the
    connection; the ledger after the call is returned with the result.
    An exception thrown before the transaction is sent leaves it as it
    was. *)

Definition createGame (this : WagerClient) (connection : Ledger) (random : float64)
    (creator : PublicKey) (args : CreateGameArgs.t)
  : Result (string * PublicKey) * Ledger :=
  match createCreateGameInstruction random creator args (client_programId this) with
  | Err e => (Err e, connection)
  | Ok (instruction, gamePda, preInstructions) =>
      let transaction := preInstructions ++ [instruction] in
      match sendAndConfirmTransaction connection transaction [creator] with
      | (Err e, connection') => (Err e, connection')
      | (Ok signature, connection') => (Ok (signature, gamePda), connection')
      end
  end.

Definition joinGame (this : WagerClient) (connection : Ledger)
    (player2 gamePda : PublicKey)
  : Result string * Ledger :=
  match getGame connection gamePda with
  | Err e => (Err e, connection)
  | Ok gameAccount =>
      if negb (GameAccount.canJoin gameAccount) then
        (Err (InvalidGameStateError (GameState_value Open)
                (GameAccount.state gameAccount)), connection)
      else
        match createJoinGameInstruction connection player2 gamePda gameAccount
                (client_programId this) with
        | Err e => (Err e, connection)
        | Ok (instruction, preInstructions) =>
            let transaction := preInstructions ++ [instruction] in
            sendAndConfirmTransaction connection transaction [player2]
        end
  end.

Definition resolveGame (this : WagerClient) (connection : Ledger)
    (resolver gamePda winner : PublicKey)
  : Result (string * PayoutAmounts) * Ledger :=
  match getGame connection gamePda with
  | Err e => (Err e, connection)
  | Ok gameAccount =>
      if negb (GameAccount.canResolve gameAccount) then
        (Err (InvalidGameStateError (GameState_value Ready)
                (GameAccount.state gameAccount)), connection)
      else if negb (PublicKey_.equals winner (GameAccount.player1 gameAccount))
              && negb (PublicKey_.equals winner (GameAccount.player2 gameAccount)) then
        (Err (WagerError "Winner must be one of the two players"), connection)
      else
        match calculatePayouts (GameAccount.wager gameAccount)
                (GameAccount.payoutBps gameAccount) with
        | Err e => (Err e, connection)
        | Ok payouts =>
            match createResolveGameInstruction connection resolver gamePda winner
                    gameAccount (client_programId this) with
            | Err e => (Err e, connection)
            | Ok (instruction, preInstructions) =>
                let transaction := preInstructions ++ [instruction] in
                match sendAndConfirmTransaction connection transaction [resolver] with
                | (Err e, connection') => (Err e, connection')
                | (Ok signature, connection') =>
                    (Ok (signature, payouts), connection')
                end
            end
        end
  end.

Definition cancelIfExpired (this : WagerClient) (connection : Ledger) (now : Z)
    (authority gamePda : PublicKey)
  : Result string * Ledger :=
  match getGame connection gamePda with
  | Err e => (Err e, connection)
  | Ok gameAccount =>
      match isExpired now (GameAccount.expiryTs gameAccount) with
      | Err e => (Err e, connection)
      | Ok false => (Err (WagerError "Game has not expired yet"), connection)
      | Ok true =>
          match createCancelGameInstruction connection authority gamePda gameAccount
                  (client_programId this) with
          | Err e => (Err e, connection)
          | Ok (instruction, preInstructions) =>
              let transaction := preInstructions ++ [instruction] in
              sendAndConfirmTransaction connection transaction [authority]
          end
      end
  end.

Definition updateResolver (this : WagerClient) (connection : Ledger)
    (creator gamePda newResolver : PublicKey)
  : Result string * Ledger :=
  match getGame connection gamePda with
  | Err e => (Err e, connection)
  | Ok gameAccount =>
      if negb (GameAccount.state gameAccount =? GameState_value Open) then
        (Err (WagerError "Cannot update resolver after deposits have been made"),
         connection)
      else
        let instruction :=
          createUpdateResolverInstruction creator gamePda newResolver gameAccount
            (client_programId this) in
        let transaction := [instruction] in
        sendAndConfirmTransaction connection transaction [creator]
  end.

(** [createGameWithDefaults]: [x || d] takes the default when [x] is
    absent, and also when it is the number zero. *)
Definition createGameWithDefaults (this : WagerClient) (connection : Ledger)
    (random : float64) (now : Z)
    (creator : PublicKey) (wager : Z) (mint : PublicKey)
    (options : CreateGameOptions.t)
  : Result (string * PublicKey * CreateGameArgs.t) * Ledger :=
  match (match CreateGameOptions.expiryTs options with
         | Some expiryTs => Ok expiryTs
         | None => hoursFromNow now 24
         end) with
  | Err e => (Err e, connection)
  | Ok expiryTs =>
      let args :=
        {| CreateGameArgs.mint := mint;
           CreateGameArgs.wager := wager;
           CreateGameArgs.payoutBps :=
             match CreateGameOptions.payoutBps options with
             | Some 0 | None => 8500
             | Some bps => bps
             end;
           CreateGameArgs.expiryTs := expiryTs;
           CreateGameArgs.devWallet :=
             or_default (CreateGameOptions.devWallet options) creator;
           CreateGameArgs.resolverPubkey :=
             Some (or_default (CreateGameOptions.resolverPubkey options) creator);
           CreateGameArgs.nonce :=
             Some (or_default (CreateGameOptions.nonce options)
                     (generateNonce random)) |} in
      match createGame this connection random creator args with
      | (Err e, connection') => (Err e, connection')
      | (Ok (signature, gamePda), connection') =>
          (Ok (signature, gamePda, args), connection')
      end
  end.

End Client.

(* ================================================================= *)
(** ** The on-chain side, from the specification

    The SDK submits instructions to the escrow program, which is not part
    of the SDK sources.  What follows is the part of it that the client's
    join and resolver-update operations reach. *)

(** Modelled from the spec: the encoder of the Escrow Record, absent from
    the SDK (section 4.4: type tag, six identities, stake amount, payout
    fraction, lifecycle state, expiry time, nonce, the two bumps;
    little-endian, no padding).  The value of the type tag is not in the
    sources; it is an argument. *)
Definition serializeGameAccount (tag : list byte) (g : GameAccount.t) : list byte :=
  firstn 8 (tag ++ Buffer.alloc 8)
  ++ PublicKey_.toBuffer (GameAccount.creator g)
  ++ PublicKey_.toBuffer (GameAccount.player1 g)
  ++ PublicKey_.toBuffer (GameAccount.player2 g)
  ++ PublicKey_.toBuffer (GameAccount.resolver g)
  ++ PublicKey_.toBuffer (GameAccount.devWallet g)
  ++ PublicKey_.toBuffer (GameAccount.mint g)
  ++ Z_to_le 8 (GameAccount.wager g)
  ++ Z_to_le 2 (GameAccount.payoutBps g)
  ++ [byte_of_Z (GameAccount.state g)]
  ++ Z_to_le 8 (GameAccount.expiryTs g)
  ++ Z_to_le 8 (GameAccount.nonce g)
  ++ [byte_of_Z (GameAccount.bump g)]
  ++ [byte_of_Z (GameAccount.vaultBump g)].

(** Modelled from the spec: the ledger's write of an account (the state
    the escrow program mutates, section 5): the account bound to the
    address is replaced, or a new one is bound. *)
Fixpoint setAccount (l : Ledger) (address : PublicKey) (info : AccountInfo) : Ledger :=
  match l with
  | [] => [(address, info)]
  | (a, i) :: rest =>
      if a =? address then (a, info) :: rest
      else (a, i) :: setAccount rest address info
  end.

Module Authority.

(** Modelled from the spec: the join transition of the escrow program,
    absent from the SDK sources (section 4.1, Open -> Ready).  It fails
    with [WrongState] if the record is not Open, [SelfJoinForbidden] if
    the joiner equals the creator, [StakeKindMismatch] if the deposit is
    not of the record's kind; otherwise [player_two] is set and the state
    becomes Ready.  (Balances are not tracked.) *)
Definition join (g : GameAccount.t) (joiner : PublicKey) (deposit_matches : bool)
  : ErrorKind + GameAccount.t :=
  if negb (GameAccount.state g =? GameState_value Open) then inl WrongState
  else if joiner =? GameAccount.creator g then inl SelfJoinForbidden
  else if negb deposit_matches then inl StakeKindMismatch
  else inr (GameAccount.mk
              (GameAccount.creator g) (GameAccount.player1 g) joiner
              (GameAccount.resolver g) (GameAccount.devWallet g)
              (GameAccount.mint g) (GameAccount.wager g)
              (GameAccount.payoutBps g) (GameState_value Ready)
              (GameAccount.expiryTs g) (GameAccount.nonce g)
              (GameAccount.bump g) (GameAccount.vaultBump g)).

(** Modelled from the spec: the resolver update of the escrow program,
    absent from the SDK sources (section 4.1: only the creator, only
    while the state is Open; otherwise it fails with DepositsAlreadyMade,
    which is reported as [WrongState]). *)
Definition update_resolver (g : GameAccount.t) (caller newResolver : PublicKey)
  : ErrorKind + GameAccount.t :=
  if (GameAccount.state g =? GameState_value Open)
     && (caller =? GameAccount.creator g)
  then inr (GameAccount.mk
              (GameAccount.creator g) (GameAccount.player1 g)
              (GameAccount.player2 g) newResolver (GameAccount.devWallet g)
              (GameAccount.mint g) (GameAccount.wager g)
              (GameAccount.payoutBps g) (GameAccount.state g)
              (GameAccount.expiryTs g) (GameAccount.nonce g)
              (GameAccount.bump g) (GameAccount.vaultBump g))
  else inl WrongState.

Section Program.
Context {D : Derivation}.
Variable program : PublicKey.

(** Modelled from the spec: the vault reference a join carries (the
    fourth account of the instruction, section 4.5) tells the kind of
    the deposit: the placeholder for a native deposit, the record's
    vault for a token deposit. *)
Definition deposit_matches (g : GameAccount.t) (vault_reference : PublicKey) : bool :=
  if isNativeSOL (GameAccount.mint g)
  then vault_reference =? SystemProgram.programId
  else
    match deriveGamePDAs (GameAccount.creator g) (GameAccount.nonce g)
            (GameAccount.mint g) program with
    | Ok pdas =>
        match vaultPda pdas with
        | Some v => vault_reference =? v
        | None => false
        end
    | Err _ => false
    end.

(** Modelled from the spec: the operation code selects the transition
    (section 4.5); a resolver update carries the new resolver as its
    payload. *)
Definition transition (g : GameAccount.t) (caller : PublicKey)
    (accounts : list AccountMeta) (opcode : Z) (payload : list byte)
  : ErrorKind + GameAccount.t :=
  if opcode =? 1 then
    join g caller (deposit_matches g (pubkey (nth 1 accounts (mkMeta 0 false false))))
  else if opcode =? 4 then
    update_resolver g caller (be_to_Z (firstn 32 payload))
  else inl InvalidConfiguration.

(** Modelled from the spec: how the ledger applies one instruction
    (sections 4.5 and 5).  A companion-account instruction creates the
    account if it is absent.  An instruction of the escrow program
    names the caller (a signer) and the record as its first two
    accounts and the operation as its first data byte; the record is
    decoded, the transition is applied and the record is written back
    under its type tag.  Of the five operations only join (1) and
    resolver update (4) are modelled; the other three move funds and
    read the clock, and are refused here. *)
Definition process_instruction (l : Ledger) (signers : list PublicKey)
    (ix : TransactionInstruction) : Result Ledger :=
  if programId ix =? ASSOCIATED_TOKEN_PROGRAM_ID then
    match keys ix with
    | _ :: associatedToken :: owner_ :: mint_ :: _ =>
        match getAccountInfo l (pubkey associatedToken) with
        | Some _ => Ok l
        | None =>
            Ok (setAccount l (pubkey associatedToken)
                  {| owner := TOKEN_PROGRAM_ID;
                     account_data := PublicKey_.toBuffer (pubkey mint_)
                                     ++ PublicKey_.toBuffer (pubkey owner_) |})
        end
    | _ => Err (SendTransactionError MalformedAccount)
    end
  else if programId ix =? program then
    match keys ix, data ix with
    | caller :: record :: accounts, opcode :: payload =>
        if negb (isSigner caller && existsb (Z.eqb (pubkey caller)) signers)
        then Err (SendTransactionError Unauthorized)
        else
          match getAccountInfo l (pubkey record) with
          | None => Err (SendTransactionError RecordNotFound)
          | Some info =>
              match deserializeGameAccount (account_data info) with
              | Err _ => Err (SendTransactionError MalformedAccount)
              | Ok g =>
                  match transition g (pubkey caller) accounts
                          (Z_of_byte opcode) payload with
                  | inl kind => Err (SendTransactionError kind)
                  | inr g' =>
                      Ok (setAccount l (pubkey record)
                            {| owner := owner info;
                               account_data :=
                                 serializeGameAccount
                                   (firstn 8 (account_data info)) g' |})
                  end
              end
          end
    | _, _ => Err (SendTransactionError MalformedAccount)
    end
  else Err (SendTransactionError MalformedAccount).

(** Modelled from the spec: the instructions of a bundle apply in order
    (section 5). *)
Fixpoint process (l : Ledger) (signers : list PublicKey) (tx : Transaction)
  : Result Ledger :=
  match tx with
  | [] => Ok l
  | ix :: rest =>
      l' <- process_instruction l signers ix ;;
      process l' signers rest
  end.

(** Modelled from the spec: a bundle applies as a whole or not at all
    (section 5). *)
Definition submit (l : Ledger) (tx : Transaction) (signers : list PublicKey)
  : Result string * Ledger :=
  match process l signers tx with
  | Ok l' => (Ok "confirmed"%string, l')
  | Err e => (Err e, l)
  end.

(** Modelled from the spec: the transport in front of that ledger. *)
Definition transport : Transport :=
  {| sendAndConfirmTransaction := submit |}.

End Program.

End Authority.

(* ================================================================= *)
(** ** Stand-ins for running the definitions

    The theorems hold for every [Derivation]; concrete runs need one.  The
    stand-in below reads the seeds as a number and takes the keys of the
    three participants for points of the curve; it is not the hash of
    web3.js and nothing is proved from its shape. *)

Module Example.

Definition derivation : Derivation :=
  {| findProgramAddressSync := fun seeds programId =>
       ((be_to_Z (List.concat seeds) + programId) mod 2 ^ 256, 255);
     isOnCurve := fun key => key <? 2000 |}.

Definition client : WagerClient := {| client_programId := WAGER_PROGRAM_ID |}.

Definition transport : Transport :=
  @Authority.transport derivation WAGER_PROGRAM_ID.

Definition alice : PublicKey := 1001.
Definition bob : PublicKey := 1002.
Definition carol : PublicKey := 1003.
Definition usdc : PublicKey := 5005.

Definition tag : list byte := repeat x07 8.

(** A well-formed record: native stake, one SOL each, 85% to the winner. *)
Definition open_game : GameAccount.t :=
  GameAccount.mk alice alice PublicKey_.default alice carol PublicKey_.default
    1000000000 8500 (GameState_value Open) 1900000000 42 255 0.

Definition ready_game : GameAccount.t :=
  GameAccount.mk alice alice bob alice carol PublicKey_.default
    1000000000 8500 (GameState_value Ready) 1900000000 42 255 0.

(** The same wager in a token. *)
Definition usdc_open_game : GameAccount.t :=
  GameAccount.mk alice alice PublicKey_.default alice carol usdc
    1000000 9000 (GameState_value Open) 1900000000 43 254 253.

Definition game_pda : PublicKey := 7007.

Definition ledger_with (g : GameAccount.t) : Ledger :=
  [ (game_pda,
     {| owner := WAGER_PROGRAM_ID;
        account_data := serializeGameAccount tag g |}) ].

(** An instant Math.random() can return: 2^52 * 2^-53 = 0.5. *)
Definition half : float64 := {| mantissa := 4503599627370496; exponent := -53 |}.

(** The greatest value below one: (2^53 - 1) * 2^-53. *)
Definition almost_one : float64 :=
  {| mantissa := 9007199254740991; exponent := -53 |}.

End Example.

(* ================================================================= *)
(** ** More of utils.ts: amounts as text, retries *)

(** JavaScript strings, as far as the amount functions use them.  A
    string is a [string] of one-byte characters: the amounts are ASCII. *)
Module JsString.

Fixpoint repeat_char (c : ascii) (n : nat) : string :=
  match n with
  | O => EmptyString
  | S k => String c (repeat_char c k)
  end.

(** [s.padStart(n, c)] and [s.padEnd(n, c)], for a one-character pad. *)
Definition padStart (s : string) (n : nat) (c : ascii) : string :=
  append (repeat_char c (n - String.length s)) s.

Definition padEnd (s : string) (n : nat) (c : ascii) : string :=
  append s (repeat_char c (n - String.length s)).

(** [s.slice(0, n)]. *)
Definition slice0 (s : string) (n : nat) : string := substring 0 n s.

(** [s.replace(/0+$/, '')]: the trailing run of zeros is removed. *)
Fixpoint trim_trailing_zeros (s : string) : string :=
  match s with
  | EmptyString => EmptyString
  | String c rest =>
      match trim_trailing_zeros rest with
      | EmptyString => if Ascii.eqb c "0" then EmptyString else String c EmptyString
      | t => String c t
      end
  end.

(** [s.split(sep)] for a one-character separator: never empty. *)
Fixpoint split (sep : ascii) (s : string) : list string :=
  match s with
  | EmptyString => [EmptyString]
  | String c rest =>
      if Ascii.eqb c sep then EmptyString :: split sep rest
      else
        match split sep rest with
        | piece :: pieces => String c piece :: pieces
        | [] => [String c EmptyString]
        end
  end.

End JsString.

(** bn.js and decimal text. *)
Module BNText.

Definition digit_char (d : Z) : ascii := ascii_of_nat (48 + Z.to_nat d).

(** The decimal digits of a non-negative number, most significant first;
    [fuel] bounds their count. *)
Fixpoint to_digits (fuel : nat) (n : Z) : string :=
  match fuel with
  | O => EmptyString
  | S f =>
      if n <? 10 then String (digit_char n) EmptyString
      else append (to_digits f (n / 10)) (String (digit_char (n mod 10)) EmptyString)
  end.

(** [a.toString()], base ten: a minus sign for a negative number, then the
    digits of the magnitude without leading zeros. *)
Definition toString (a : Z) : string :=
  let digits := to_digits (S (Z.to_nat (Z.log2 (Z.abs a)))) (Z.abs a) in
  if a <? 0 then String "-" digits else digits.

(** The characters [/\s/] matches, among the one-byte ones. *)
Definition is_space (c : ascii) : bool :=
  let n := nat_of_ascii c in
  ((9 <=? n) && (n <=? 13))%nat || (n =? 32)%nat || (n =? 160)%nat.

Fixpoint strip_spaces (s : string) : string :=
  match s with
  | EmptyString => EmptyString
  | String c rest =>
      if is_space c then strip_spaces rest else String c (strip_spaces rest)
  end.

(** [parseBase] with multiplier ten: every character must be a digit, an
    assertion fails otherwise. *)
Fixpoint parse_digits (s : string) (acc : Z) : Result Z :=
  match s with
  | EmptyString => Ok acc
  | String c rest =>
      let d := Z.of_nat (nat_of_ascii c) - 48 in
      if (0 <=? d) && (d <? 10) then parse_digits rest (acc * 10 + d)
      else Err AssertionError
  end.

(** [new BN(text)], base ten.  The empty text is taken for the number
    zero.  Otherwise white space is dropped, a leading minus sign is the
    sign and the rest is parsed; when nothing is left to parse the object
    is returned without a value ([None]): no error is raised. *)
Definition of_string (s : string) : Result (option Z) :=
  if String.eqb s EmptyString then Ok (Some 0)
  else
    match strip_spaces s with
    | EmptyString => Ok None
    | String "-" EmptyString => Ok None
    | String "-" rest => v <- parse_digits rest 0 ;; Ok (Some (- v))
    | t => v <- parse_digits t 0 ;; Ok (Some v)
    end.

End BNText.

(** [formatTokenAmount]; [decimals] is a natural number.  bn.js [div] and
    [mod] truncate towards zero. *)
Definition formatTokenAmount (amount : Z) (decimals : nat) : string :=
  let divisor := 10 ^ Z.of_nat decimals in
  let quotient := Z.quot amount divisor in
  let remainder := Z.rem amount divisor in
  if remainder =? 0 then BNText.toString quotient
  else
    let remainderStr := JsString.padStart (BNText.toString remainder) decimals "0" in
    let trimmedRemainder := JsString.trim_trailing_zeros remainderStr in
    if String.eqb trimmedRemainder EmptyString then BNText.toString quotient
    else append (BNText.toString quotient) (String "." trimmedRemainder).

(** [parseTokenAmount]: the first two pieces around the dots; a missing
    second piece is the empty string. *)
Definition parseTokenAmount (amount : string) (decimals : nat)
  : Result (option Z) :=
  let pieces := JsString.split "." amount in
  let integer := nth 0 pieces EmptyString in
  let fractional := nth 1 pieces EmptyString in
  let fractionalPadded :=
    JsString.slice0 (JsString.padEnd fractional decimals "0") decimals in
  BNText.of_string (append integer fractionalPadded).

(** What a call of [retry] ends with: the value of the successful attempt,
    or the last error thrown again ([undefined] when no attempt was made). *)
Inductive RetryOutcome (T : Type) : Type :=
| Returned (value : T)
| Thrown (lastError : option Error).
Arguments Returned {T} value.
Arguments Thrown {T} lastError.

(** [retry]: [fn i] is what the [i]-th call of the function (from 0) ends
    with.  The result comes with the delays slept, in order. *)
Fixpoint retry_from {T : Type} (fn : nat -> Result T) (maxRetries : nat) (baseDelay : Z)
    (remaining i : nat) (lastError : option Error) : RetryOutcome T * list Z :=
  match remaining with
  | O => (Thrown lastError, [])
  | S r =>
      match fn i with
      | Ok value => (Returned value, [])
      | Err error =>
          let slept :=
            if (i <? maxRetries - 1)%nat then [baseDelay * 2 ^ Z.of_nat i] else [] in
          let (outcome, delays) :=
            retry_from fn maxRetries baseDelay r (S i) (Some error) in
          (outcome, slept ++ delays)
      end
  end.

Definition retry {T : Type} (fn : nat -> Result T) (maxRetries : nat) (baseDelay : Z)
  : RetryOutcome T * list Z :=
  retry_from fn maxRetries baseDelay maxRetries 0 None.

(* ================================================================= *)
(** ** More of client.ts *)


(** The signers an instruction asks for, in order. *)
Definition required_signers (ix : TransactionInstruction) : list PublicKey :=
  map pubkey (filter isSigner (keys ix)).

(* ================================================================= *)
(** ** Vocabulary of the statements *)

(** The greatest stake the record's eight-byte field holds. *)
Definition u64_MAX : Z := 18446744073709551615.

(** The record a buffer of at least 229 bytes decodes to. *)
Definition decoded (data : list byte) (state bump vaultBump : byte) : GameAccount.t :=
  GameAccount.mk
    (be_to_Z (Buffer.slice data 8 40))
    (be_to_Z (Buffer.slice data 40 72))
    (be_to_Z (Buffer.slice data 72 104))
    (be_to_Z (Buffer.slice data 104 136))
    (be_to_Z (Buffer.slice data 136 168))
    (be_to_Z (Buffer.slice data 168 200))
    (le_to_Z (Buffer.slice data 200 208))
    (le_to_Z (Buffer.slice data 208 210))
    (Z_of_byte state)
    (le_to_Z (Buffer.slice data 211 219))
    (le_to_Z (Buffer.slice data 219 227))
    (Z_of_byte bump)
    (Z_of_byte vaultBump).

Section Addresses.
Context {D : Derivation}.

(** The two addresses of a game, as [deriveGamePDAs] computes them. *)
Definition game_address (creator : PublicKey) (nonce : Z) (programId : PublicKey)
  : PublicKey :=
  fst (findProgramAddressSync
         [Buffer.from_string "game"; PublicKey_.toBuffer creator;
          Z_to_le 8 (Z.abs nonce)]
         programId).

Definition vault_address (creator : PublicKey) (nonce : Z) (mint programId : PublicKey)
  : PublicKey :=
  fst (findProgramAddressSync
         [Buffer.from_string "vault";
          PublicKey_.toBuffer (game_address creator nonce programId);
          PublicKey_.toBuffer mint]
         programId).

(** The companion token account of an owner for a mint, as
    [getAssociatedTokenAddressSync] derives it. *)
Definition companion_address (mint owner_ : PublicKey) : PublicKey :=
  fst (findProgramAddressSync
         [PublicKey_.toBuffer owner_; PublicKey_.toBuffer TOKEN_PROGRAM_ID;
          PublicKey_.toBuffer mint]
         ASSOCIATED_TOKEN_PROGRAM_ID).

(** The owners whose companion accounts a cancel looks up are points of
    the curve: the creator, and the second player once there is one. *)
Definition cancel_owners_on_curve (g : GameAccount.t) : bool :=
  isOnCurve (GameAccount.creator g)
  && (PublicKey_.equals (GameAccount.player2 g) PublicKey_.default
      || isOnCurve (GameAccount.player2 g)).

End Addresses.

(** The ordered account references of an instruction. *)
Definition account_keys (ix : TransactionInstruction) : list PublicKey :=
  map pubkey (keys ix).

(** The second player of a record, or the placeholder the cancel
    instruction lists while nobody has joined. *)
Definition second_player_or_placeholder (g : GameAccount.t) : PublicKey :=
  if PublicKey_.equals (GameAccount.player2 g) PublicKey_.default
  then SystemProgram.programId
  else GameAccount.player2 g.

(** The arguments of a creation, with the nonce filled in. *)
Definition with_nonce (args : CreateGameArgs.t) (nonce : Z) : CreateGameArgs.t :=
  {| CreateGameArgs.mint := CreateGameArgs.mint args;
     CreateGameArgs.wager := CreateGameArgs.wager args;
     CreateGameArgs.payoutBps := CreateGameArgs.payoutBps args;
     CreateGameArgs.expiryTs := CreateGameArgs.expiryTs args;
     CreateGameArgs.resolverPubkey := CreateGameArgs.resolverPubkey args;
     CreateGameArgs.devWallet := CreateGameArgs.devWallet args;
     CreateGameArgs.nonce := Some nonce |}.

(** The values a record's fields can hold. *)
Definition fits_layout (g : GameAccount.t) : Prop :=
  0 <= GameAccount.creator g < 2 ^ 256 /\
  0 <= GameAccount.player1 g < 2 ^ 256 /\
  0 <= GameAccount.player2 g < 2 ^ 256 /\
  0 <= GameAccount.resolver g < 2 ^ 256 /\
  0 <= GameAccount.devWallet g < 2 ^ 256 /\
  0 <= GameAccount.mint g < 2 ^ 256 /\
  0 <= GameAccount.wager g < 2 ^ 64 /\
  0 <= GameAccount.payoutBps g < 65536 /\
  0 <= GameAccount.state g < 256 /\
  0 <= GameAccount.expiryTs g < 2 ^ 64 /\
  0 <= GameAccount.nonce g < 2 ^ 64 /\
  0 <= GameAccount.bump g < 256 /\
  0 <= GameAccount.vaultBump g < 256.

(** What every builder produces: the caller first, signing and writable,
    the record second, writable, then accounts none of which signs. *)
Definition caller_then_record (ix : TransactionInstruction)
    (caller record : PublicKey) : Prop :=
  exists rest,
    keys ix = mkMeta caller true true :: mkMeta record false true :: rest /\
    forallb (fun m => negb (isSigner m)) rest = true.

(** Strings of decimal digits. *)
Definition is_digit (c : ascii) : bool :=
  ((48 <=? nat_of_ascii c) && (nat_of_ascii c <=? 57))%nat.

Fixpoint all_digits (s : string) : bool :=
  match s with
  | EmptyString => true
  | String c rest => is_digit c && all_digits rest
  end.

(** Strings without a dot. *)
Fixpoint dot_free (s : string) : bool :=
  match s with
  | EmptyString => true
  | String c rest => negb (Ascii.eqb c ".") && dot_free rest
  end.

(** The delays slept before the attempts [first + 1 .. first + count]. *)
Definition backoff (baseDelay : Z) (first count : nat) : list Z :=
  map (fun i => baseDelay * 2 ^ Z.of_nat i) (seq first count).

(** An instruction that creates a companion token account: addressed to the
    associated-token program, signed by the payer and by nobody else. *)
Definition paid_companion_creation (payer : PublicKey)
    (ix : TransactionInstruction) : Prop :=
  programId ix = ASSOCIATED_TOKEN_PROGRAM_ID /\
  required_signers ix = [payer].

(** The value of a list of digits in a base, least significant first. *)
Fixpoint value_le (base : Z) (ds : list Z) : Z :=
  match ds with
  | [] => 0
  | d :: rest => d + base * value_le base rest
  end.

(* ================================================================= *)
(** * Properties *)

(** ** Payout arithmetic *)

Lemma calculatePayouts_eq (wager payoutBps : Z) :
  Z.abs payoutBps < 67108864 ->
  calculatePayouts wager payoutBps =
  Ok {| winnerAmount := Z.quot (wager * 2 * payoutBps) 10000;
        feeAmount := wager * 2 - Z.quot (wager * 2 * payoutBps) 10000;
        totalPot := wager * 2 |}.
Proof.
  intros Hb. unfold calculatePayouts, BN.muln, BN.divn, BN.sub. simpl.
  destruct (Z.ltb_spec (Z.abs payoutBps) 67108864) as [_|Hge]; [reflexivity | lia].
Qed.

(** C1.  For a non-negative stake and a payout fraction between 1 and 9999,
    [calculatePayouts] returns the pot [stake * 2], the winner's share
    [floor (pot * bps / 10000)] and the fee [pot - share]; share and fee add
    up to [stake * 2] exactly. *)
Theorem calculatePayouts_spec (stake_amount payout_fraction_bps : Z) :
  0 <= stake_amount ->
  1 <= payout_fraction_bps <= 9999 ->
  let total_pot := stake_amount * 2 in
  let winner_amount := (total_pot * payout_fraction_bps) / 10000 in
  let fee_amount := total_pot - winner_amount in
  calculatePayouts stake_amount payout_fraction_bps =
    Ok {| winnerAmount := winner_amount;
          feeAmount := fee_amount;
          totalPot := total_pot |} /\
  winner_amount + fee_amount = stake_amount * 2.
Proof.
  intros Hs Hb total_pot winner_amount fee_amount.
  rewrite calculatePayouts_eq by lia.
  subst total_pot winner_amount fee_amount.
  rewrite Z.quot_div_nonneg by nia.
  split; [reflexivity | lia].
Qed.

(** The scenario of the specification: one SOL at 85%. *)
Lemma calculatePayouts_spec_scenario :
  0 <= 1000000000 /\ 1 <= 8500 <= 9999 /\
  calculatePayouts 1000000000 8500 =
    Ok {| winnerAmount := 1700000000;
          feeAmount := 300000000;
          totalPot := 2000000000 |}.
Proof.
  split; [lia|]. split; [lia|].
  exact (proj1 (calculatePayouts_spec 1000000000 8500 ltac:(lia) ltac:(lia))).
Defined.

(** C4, as stated, fails: a stake above [u64::MAX / 2] is doubled like any
    other; no error is raised. *)
Lemma calculatePayouts_overflow_undetected :
  u64_MAX / 2 < 9223372036854775808 /\
  calculatePayouts 9223372036854775808 8500 =
    Ok {| winnerAmount := 15679732462653118873;
          feeAmount := 2767011611056432743;
          totalPot := 18446744073709551616 |} /\
  ~ (forall stake_amount payout_fraction_bps,
        u64_MAX / 2 < stake_amount ->
        1 <= payout_fraction_bps <= 9999 ->
        exists e, calculatePayouts stake_amount payout_fraction_bps = Err e).
Proof.
  split; [reflexivity|]. split; [reflexivity|].
  intros H. destruct (H 9223372036854775808 8500) as [e He];
    [reflexivity | lia | discriminate He].
Qed.

(** C4, amended.  [calculatePayouts] computes on arbitrary-precision
    integers: for every stake, also above [u64::MAX / 2], and every payout
    fraction between 1 and 9999 it returns a result whose pot is exactly
    [stake * 2], never an error. *)
Theorem calculatePayouts_never_overflows (stake_amount payout_fraction_bps : Z) :
  1 <= payout_fraction_bps <= 9999 ->
  exists p,
    calculatePayouts stake_amount payout_fraction_bps = Ok p /\
    totalPot p = stake_amount * 2.
Proof.
  intros Hb. rewrite calculatePayouts_eq by lia.
  eexists. split; reflexivity.
Qed.

Lemma calculatePayouts_never_overflows_at_u64_MAX :
  1 <= 9999 <= 9999 /\
  exists p,
    calculatePayouts u64_MAX 9999 = Ok p /\
    totalPot p = u64_MAX * 2.
Proof.
  split; [lia|].
  apply (calculatePayouts_never_overflows u64_MAX 9999). lia.
Defined.

(* ================================================================= *)
(** ** Bytes *)

Lemma Z_of_byte_range (b : byte) : 0 <= Z_of_byte b < 256.
Proof.
  unfold Z_of_byte. pose proof (Byte.to_N_bounded b) as H. lia.
Qed.

Lemma le_to_Z_range (bs : list byte) :
  0 <= le_to_Z bs < 256 ^ Z.of_nat (List.length bs).
Proof.
  induction bs as [|b rest IH].
  - simpl. lia.
  - cbn [le_to_Z List.length]. rewrite Nat2Z.inj_succ, Z.pow_succ_r by lia.
    pose proof (Z_of_byte_range b). lia.
Qed.

Lemma slice_length (data : list byte) (start stop : nat) :
  (List.length (Buffer.slice data start stop) <= stop - start)%nat.
Proof.
  unfold Buffer.slice. rewrite length_firstn. lia.
Qed.

Lemma of_bytes_slice (data : list byte) (start : nat) :
  PublicKey_.of_bytes (Buffer.slice data start (start + 32)) =
  Ok (be_to_Z (Buffer.slice data start (start + 32))).
Proof.
  unfold PublicKey_.of_bytes.
  pose proof (slice_length data start (start + 32)) as H.
  destruct (Nat.leb_spec (List.length (Buffer.slice data start (start + 32))) 32);
    [reflexivity | lia].
Qed.

Lemma readUInt8_in_range (data : list byte) (offset : nat) :
  (offset < List.length data)%nat ->
  exists b, nth_error data offset = Some b /\
            Buffer.readUInt8 data offset = Ok (Z_of_byte b).
Proof.
  intros H. unfold Buffer.readUInt8.
  destruct (nth_error data offset) as [b|] eqn:E.
  - exists b. split; reflexivity.
  - apply nth_error_None in E. lia.
Qed.

Lemma readUInt8_out_of_range (data : list byte) (offset : nat) :
  (List.length data <= offset)%nat ->
  Buffer.readUInt8 data offset = Err RangeError.
Proof.
  intros H. unfold Buffer.readUInt8.
  apply nth_error_None in H. rewrite H. reflexivity.
Qed.

(* ================================================================= *)
(** ** The decoder *)

Lemma deserializeGameAccount_long (data : list byte) :
  (229 <= List.length data)%nat ->
  exists state bump vaultBump,
    nth_error data 210 = Some state /\
    nth_error data 227 = Some bump /\
    nth_error data 228 = Some vaultBump /\
    deserializeGameAccount data = Ok (decoded data state bump vaultBump).
Proof.
  intros Hlen.
  destruct (readUInt8_in_range data 210) as (s & Hs & Rs); [lia|].
  destruct (readUInt8_in_range data 227) as (b & Hb & Rb); [lia|].
  destruct (readUInt8_in_range data 228) as (v & Hv & Rv); [lia|].
  exists s, b, v. repeat (split; [assumption|]).
  unfold deserializeGameAccount.
  rewrite !of_bytes_slice. cbn [bind].
  unfold Buffer.readUInt16LE.
  destruct (Nat.leb_spec (8 + 32 + 32 + 32 + 32 + 32 + 32 + 8 + 2) (List.length data))
    as [_|Hlt]; [|simpl in Hlt; lia].
  cbn [bind].
  change (8 + 32 + 32 + 32 + 32 + 32 + 32 + 8 + 2)%nat with 210%nat.
  rewrite Rs. cbn [bind].
  change (210 + 1 + 8 + 8)%nat with 227%nat.
  rewrite Rb. cbn [bind].
  change (227 + 1)%nat with 228%nat.
  rewrite Rv. cbn [bind].
  reflexivity.
Qed.

Lemma deserializeGameAccount_short (data : list byte) :
  (List.length data < 229)%nat ->
  deserializeGameAccount data = Err RangeError.
Proof.
  intros Hlen.
  unfold deserializeGameAccount.
  rewrite !of_bytes_slice. cbn [bind].
  unfold Buffer.readUInt16LE.
  destruct (Nat.leb_spec (8 + 32 + 32 + 32 + 32 + 32 + 32 + 8 + 2) (List.length data))
    as [Hge|_]; [|reflexivity].
  cbn [bind].
  change (8 + 32 + 32 + 32 + 32 + 32 + 32 + 8 + 2)%nat with 210%nat in *.
  destruct (Nat.lt_ge_cases 210 (List.length data)) as [H210|H210];
    [|rewrite (readUInt8_out_of_range data 210 H210); reflexivity].
  destruct (readUInt8_in_range data 210 H210) as (s & _ & Rs).
  rewrite Rs. cbn [bind].
  change (210 + 1 + 8 + 8)%nat with 227%nat.
  destruct (Nat.lt_ge_cases 227 (List.length data)) as [H227|H227];
    [|rewrite (readUInt8_out_of_range data 227 H227); reflexivity].
  destruct (readUInt8_in_range data 227 H227) as (b & _ & Rb).
  rewrite Rb. cbn [bind].
  change (227 + 1)%nat with 228%nat.
  rewrite (readUInt8_out_of_range data 228) by lia. reflexivity.
Qed.

Lemma slice_skip_tag (tag rest : list byte) (start stop : nat) :
  List.length tag = 8%nat -> (8 <= start)%nat ->
  Buffer.slice (tag ++ rest) start stop = Buffer.slice rest (start - 8) (stop - 8).
Proof.
  intros Ht Hs. unfold Buffer.slice.
  rewrite skipn_app, Ht.
  rewrite (skipn_all2 tag) by lia. simpl.
  f_equal. lia.
Qed.

Lemma nth_error_skip_tag (tag rest : list byte) (n : nat) :
  List.length tag = 8%nat -> (8 <= n)%nat ->
  nth_error (tag ++ rest) n = nth_error rest (n - 8).
Proof.
  intros Ht Hn. rewrite nth_error_app2 by lia. rewrite Ht. reflexivity.
Qed.

(** The decoder never looks at the first eight bytes. *)
Lemma deserializeGameAccount_ignores_tag (tag tag' rest : list byte) :
  List.length tag = 8%nat -> List.length tag' = 8%nat ->
  deserializeGameAccount (tag ++ rest) = deserializeGameAccount (tag' ++ rest).
Proof.
  intros Ht Ht'.
  destruct (Nat.lt_ge_cases (List.length (tag ++ rest)) 229) as [Hshort|Hlong].
  - rewrite deserializeGameAccount_short by assumption.
    rewrite deserializeGameAccount_short; [reflexivity|].
    rewrite length_app in *. lia.
  - assert (Hlong' : (229 <= List.length (tag' ++ rest))%nat)
      by (rewrite length_app in *; lia).
    destruct (deserializeGameAccount_long _ Hlong) as (s & b & v & Hs & Hb & Hv & E).
    destruct (deserializeGameAccount_long _ Hlong') as (s' & b' & v' & Hs' & Hb' & Hv' & E').
    rewrite E, E'.
    rewrite nth_error_skip_tag in Hs, Hb, Hv, Hs', Hb', Hv' by (assumption || lia).
    assert (s' = s) by congruence. assert (b' = b) by congruence.
    assert (v' = v) by congruence. subst.
    unfold decoded.
    rewrite !(slice_skip_tag tag) by (assumption || lia).
    rewrite !(slice_skip_tag tag') by (assumption || lia).
    reflexivity.
Qed.

(** C8, as stated, fails: whatever tag is expected, a buffer of 229 bytes
    with another tag still decodes to a record. *)
Lemma deserializeGameAccount_accepts_any_tag :
  ~ exists expected_tag : list byte,
      forall data,
        (List.length data < 229)%nat \/ firstn 8 data <> expected_tag ->
        exists e, deserializeGameAccount data = Err e.
Proof.
  intros [expected H].
  destruct (list_eq_dec Byte.byte_eq_dec expected (repeat x00 8)) as [E|E].
  - destruct (H (repeat x01 229)) as [e He].
    + right. rewrite E. vm_compute. discriminate.
    + vm_compute in He. discriminate He.
  - destruct (H (repeat x00 229)) as [e He].
    + right. intros E'. apply E. rewrite <- E'. reflexivity.
    + vm_compute in He. discriminate He.
Qed.

(** C8, amended.  Decoding fails, with the range error of the out-of-range
    read (a malformed account), exactly when the buffer is shorter than 229
    bytes; a buffer of at least 229 bytes always decodes.  The leading
    eight-byte type tag is skipped and never compared: replacing it leaves
    the outcome unchanged. *)
Theorem deserializeGameAccount_fails_iff_short (data tag : list byte) :
  List.length tag = 8%nat ->
  ((List.length data < 229)%nat ->
     deserializeGameAccount data = Err RangeError /\
     error_kind RangeError = Some MalformedAccount) /\
  ((229 <= List.length data)%nat ->
     exists g, deserializeGameAccount data = Ok g /\
               deserializeGameAccount (tag ++ skipn 8 data) = Ok g).
Proof.
  intros Ht. split.
  - intros Hshort. split; [apply deserializeGameAccount_short; assumption | reflexivity].
  - intros Hlong.
    destruct (deserializeGameAccount_long data Hlong) as (s & b & v & _ & _ & _ & E).
    exists (decoded data s b v). split; [assumption|].
    rewrite <- E. rewrite <- (firstn_skipn 8 data) at 2.
    apply deserializeGameAccount_ignores_tag; [assumption|].
    rewrite length_firstn. lia.
Qed.

Lemma deserializeGameAccount_fails_iff_short_example :
  List.length Example.tag = 8%nat /\
  (229 <= List.length (serializeGameAccount (repeat x00 8) Example.open_game))%nat /\
  exists g,
    deserializeGameAccount (serializeGameAccount (repeat x00 8) Example.open_game) = Ok g /\
    deserializeGameAccount
      (Example.tag ++ skipn 8 (serializeGameAccount (repeat x00 8) Example.open_game)) = Ok g.
Proof.
  split; [reflexivity|].
  split; [vm_compute; lia|].
  apply (proj2 (deserializeGameAccount_fails_iff_short
                  (serializeGameAccount (repeat x00 8) Example.open_game)
                  Example.tag eq_refl)).
  vm_compute. lia.
Defined.

(* ================================================================= *)
(** ** The state filter *)

(** Where the decoder takes the state from: byte 210. *)
Lemma decoder_reads_state_at_210 (data : list byte) (g : GameAccount.t) :
  deserializeGameAccount data = Ok g ->
  exists b, nth_error data 210 = Some b /\ GameAccount.state g = Z_of_byte b.
Proof.
  intros E.
  destruct (Nat.lt_ge_cases (List.length data) 229) as [Hshort|Hlong].
  - rewrite deserializeGameAccount_short in E by assumption. discriminate E.
  - destruct (deserializeGameAccount_long data Hlong) as (s & b & v & Hs & _ & _ & E').
    rewrite E' in E. injection E as <-. exists s. split; [assumption | reflexivity].
Qed.

(** What the filter of [getGamesByState] asks to compare with the state
    byte: byte 178. *)
Lemma state_filter_compares_byte_178 (data : list byte) (state : GameState) :
  memcmp_matches data (memcmp_offset (state_filter state))
    [byte_of_Z (GameState_value state)] = true <->
  nth_error data 178 = Some (byte_of_Z (GameState_value state)).
Proof.
  unfold memcmp_matches, state_filter, bytes_eqb, Buffer.slice.
  cbn [memcmp_offset List.length].
  change stateOffset with 178%nat.
  replace (178 + 1 - 178)%nat with 1%nat by lia.
  rewrite <- (hd_error_skipn 178 data).
  destruct (skipn 178 data) as [|b rest]; cbn [firstn hd_error].
  - destruct (list_eq_dec Byte.byte_eq_dec [] [byte_of_Z (GameState_value state)]);
      split; intros H; discriminate.
  - destruct (list_eq_dec Byte.byte_eq_dec [b] [byte_of_Z (GameState_value state)])
      as [E|E]; split; intros H; try reflexivity; try discriminate.
    + injection E as ->. reflexivity.
    + exfalso. apply E. injection H as ->. reflexivity.
Qed.

(** C2, on the code: the filter of [getGamesByState] names offset 178, in
    the middle of the stake-kind field, not the state byte at offset 210
    that the decoder reads.  A well-formed 229-byte record in state Ready
    with a native stake holds 0 at offset 178: the comparison with the
    state byte that the Ready filter asks for fails there, and the same
    comparison at offset 210 would match.  The state byte is moreover sent
    as base-64 text, which the node, reading base-58, refuses: a query for
    Ready games fails, and does not return the record. *)
Theorem getGamesByState_misses_ready_game :
  let data := serializeGameAccount Example.tag Example.ready_game in
  let state_byte := [byte_of_Z (GameState_value Ready)] in
  List.length data = 229%nat /\
  deserializeGameAccount data = Ok Example.ready_game /\
  GameAccount.state Example.ready_game = GameState_value Ready /\
  decoder_state_offset = 210%nat /\
  nth_error data decoder_state_offset = Some (byte_of_Z (GameState_value Ready)) /\
  memcmp_offset (state_filter Ready) = 178%nat /\
  nth_error data 178 = Some x00 /\
  memcmp_matches data (memcmp_offset (state_filter Ready)) state_byte = false /\
  memcmp_matches data decoder_state_offset state_byte = true /\
  memcmp_bytes (state_filter Ready) = "AQ=="%string /\
  Bs58.decode (memcmp_bytes (state_filter Ready)) = None /\
  getGamesByState Example.client (Example.ledger_with Example.ready_game) Ready
    = Err SolanaJSONRPCError /\
  getReadyGames Example.client (Example.ledger_with Example.ready_game)
    = Err SolanaJSONRPCError.
Proof.
  vm_compute. repeat split; reflexivity.
Qed.

(* ================================================================= *)
(** ** The default nonce *)

Lemma rounding_shift_small (p e : Z) :
  0 <= p < 2 ^ 73 -> Number.emin <= e ->
  let shift := Z.max (Z.max 0 (Z.log2 p + 1 - Number.prec)) (Number.emin - e) in
  0 <= shift <= 20.
Proof.
  intros Hp He shift. subst shift. unfold Number.prec, Number.emin in *.
  assert (Z.log2 p < 73).
  { destruct (Z.eq_dec p 0) as [->|Hnz]; [simpl; lia|].
    apply Z.log2_lt_pow2; lia. }
  lia.
Qed.

(** The arithmetic core: dropping [s <= 20] low bits of a multiple of one
    million that lies below [10^6 * 2^s * B], and rounding to nearest, stays
    below [10^6 * B]. *)
Lemma rounded_below_million (m q rest half A B : Z) :
  0 < B -> 0 < A ->
  0 <= m < A * B ->
  m * 1000000 = A * q + rest -> 0 <= rest < A ->
  (A = 1 \/ (A = 2 * half /\ half <= 524288)) ->
  (0 <= q < 1000000 * B) /\
  (A <> 1 -> half <= rest -> q + 1 < 1000000 * B).
Proof.
  intros HB HA Hm Hp Hrest Hhalf.
  assert (Hq : 0 <= q < 1000000 * B) by nia.
  split; [exact Hq|].
  intros HA1 Hup.
  destruct Hhalf as [->|[-> Hh]]; [lia|].
  assert (q + 1 <= 1000000 * B) by lia.
  destruct (Z.eq_dec (q + 1) (1000000 * B)) as [E|]; [|lia].
  exfalso. nia.
Qed.

Lemma generateNonce_range (random : float64) :
  Number.in_unit_interval random ->
  0 <= generateNonce random < 1000000.
Proof.
  intros [Hm He].
  destruct random as [m e]. cbn [mantissa exponent] in *.
  unfold generateNonce, Number.mul, Number.of_Z, Number.round_nearest_even, Number.floor.
  cbn [mantissa exponent].
  rewrite Z.add_0_r.
  set (p := m * 1000000).
  set (s := Z.max (Z.max 0 (Z.log2 p + 1 - Number.prec)) (Number.emin - e)).
  assert (Hp : 0 <= p < 2 ^ 73).
  { unfold Number.prec in Hm. subst p. change (2 ^ 73) with (2 ^ 53 * 1048576). lia. }
  assert (Hs : 0 <= s <= 20) by (apply rounding_shift_small; [exact Hp | lia]).
  unfold Number.prec, Number.emin in *.
  destruct (Z.leb_spec 0 (e + s)) as [Hpos|Hneg]; [lia|].
  set (q := Z.shiftr p s).
  set (rest := p - Z.shiftl q s).
  set (half := Z.shiftl 1 (s - 1)).
  set (up := (0 <? s) && ((half <? rest) || ((half =? rest) && Z.odd q))).
  set (t := - (e + s)).
  assert (Ht : 33 <= t) by lia.
  assert (HA : 0 < 2 ^ s) by (apply Z.pow_pos_nonneg; lia).
  assert (HB : 0 < 2 ^ t) by (apply Z.pow_pos_nonneg; lia).
  assert (HAB : 2 ^ s * 2 ^ t = 2 ^ (- e)).
  { rewrite <- Z.pow_add_r by lia. f_equal. lia. }
  assert (Hbig : 2 ^ 53 <= 2 ^ (- e)) by (apply Z.pow_le_mono_r; lia).
  assert (Hq : q = p / 2 ^ s) by (apply Z.shiftr_div_pow2; lia).
  assert (Hrest : rest = p mod 2 ^ s).
  { subst rest. rewrite Z.shiftl_mul_pow2 by lia. rewrite Hq.
    rewrite Z.mod_eq by lia. lia. }
  assert (Hdiv : p = 2 ^ s * q + rest).
  { rewrite Hq, Hrest. apply Z.div_mod. lia. }
  assert (Hr : 0 <= rest < 2 ^ s) by (rewrite Hrest; apply Z.mod_pos_bound; lia).
  assert (Hhalf : 2 ^ s = 1 \/ (2 ^ s = 2 * half /\ half <= 524288)).
  { destruct (Z.eq_dec s 0) as [->|Hnz]; [left; reflexivity|right].
    subst half. rewrite Z.shiftl_mul_pow2 by lia. rewrite Z.mul_1_l.
    split.
    - replace s with (Z.succ (s - 1)) at 1 by lia. rewrite Z.pow_succ_r by lia. lia.
    - change 524288 with (2 ^ 19). apply Z.pow_le_mono_r; lia. }
  destruct (rounded_below_million m q rest half (2 ^ s) (2 ^ t) HB HA
              ltac:(lia) Hdiv Hr Hhalf) as [Hq_range Hup].
  rewrite Z.shiftr_div_pow2 by lia. fold t.
  assert (Hq' : 0 <= (if up then q + 1 else q) < 1000000 * 2 ^ t).
  { destruct up eqn:Eup; [|exact Hq_range].
    subst up. apply andb_true_iff in Eup. destruct Eup as [Es Eh].
    apply Z.ltb_lt in Es.
    assert (half <= rest).
    { apply orb_true_iff in Eh. destruct Eh as [Eh|Eh].
      - apply Z.ltb_lt in Eh. lia.
      - apply andb_true_iff in Eh. destruct Eh as [Eh _]. apply Z.eqb_eq in Eh. lia. }
    assert (2 ^ s <> 1).
    { assert (2 ^ 1 <= 2 ^ s) by (apply Z.pow_le_mono_r; lia). lia. }
    split; [lia | apply Hup; assumption]. }
  split.
  - apply Z.div_pos; lia.
  - apply Z.div_lt_upper_bound; lia.
Qed.

Example generateNonce_half : generateNonce Example.half = 500000.
Proof. reflexivity. Qed.

Example generateNonce_almost_one : generateNonce Example.almost_one = 999999.
Proof. reflexivity. Qed.

(** C10.  Whatever value in [0, 1) the random source returns, the nonce of
    [generateNonce] is a non-negative integer below 1,000,000, far below the
    2^64 values the nonce field holds; and it is the nonce a creation uses
    when the caller gives none, through [createCreateGameInstruction] as
    through [createGameWithDefaults]. *)
Theorem default_nonce_below_million
    (D : Derivation) (T : Transport) (random : float64) :
  Number.in_unit_interval random ->
  0 <= generateNonce random < 1000000 /\
  1000000 < 2 ^ 64 /\
  (forall creator args programId,
      CreateGameArgs.nonce args = None ->
      createCreateGameInstruction random creator args programId =
      createCreateGameInstruction random creator
        (with_nonce args (generateNonce random)) programId) /\
  (forall this connection now creator wager mint options r,
      CreateGameOptions.nonce options = None ->
      fst (createGameWithDefaults this connection random now creator wager mint options)
        = Ok r ->
      CreateGameArgs.nonce (snd r) = Some (generateNonce random)).
Proof.
  intros Hr.
  split; [apply generateNonce_range; exact Hr|].
  split; [reflexivity|].
  split.
  - intros creator args programId Hnone.
    unfold createCreateGameInstruction, with_nonce. cbn [CreateGameArgs.nonce
      CreateGameArgs.mint CreateGameArgs.wager CreateGameArgs.payoutBps
      CreateGameArgs.expiryTs CreateGameArgs.resolverPubkey CreateGameArgs.devWallet].
    rewrite Hnone. reflexivity.
  - intros this connection now creator wager mint options r Hnone.
    unfold createGameWithDefaults. rewrite Hnone. cbn [or_default].
    destruct (match CreateGameOptions.expiryTs options with
              | Some expiryTs => Ok expiryTs
              | None => hoursFromNow now 24
              end) as [expiryTs|e]; [|cbn [fst]; intros E; discriminate E].
    destruct (createGame this connection random creator _) as [[[sig pda]|e] l'];
      cbn [fst]; intros E; [|discriminate E].
    injection E as <-. reflexivity.
Qed.

Lemma default_nonce_below_million_at_almost_one :
  Number.in_unit_interval Example.almost_one /\
  0 <= generateNonce Example.almost_one < 1000000.
Proof.
  assert (H : Number.in_unit_interval Example.almost_one)
    by (unfold Number.in_unit_interval; vm_compute; intuition discriminate).
  split; [exact H|].
  exact (proj1 (default_nonce_below_million Example.derivation Example.transport
                  Example.almost_one H)).
Defined.

(* ================================================================= *)
(** ** Building the creation instruction *)

Lemma toArrayLike_le_8 (a : Z) :
  Z.abs a < 2 ^ 64 ->
  BN.toArrayLike_le a 8 = Ok (Z_to_le 8 (Z.abs a)).
Proof.
  intros H. unfold BN.toArrayLike_le.
  change (256 ^ Z.of_nat 8) with (2 ^ 64).
  destruct (Z.ltb_spec (Z.abs a) (2 ^ 64)); [reflexivity | lia].
Qed.

Section Derived.
Context {D : Derivation}.

Lemma deriveGamePDAs_ok (creator : PublicKey) (nonce : Z) (mint programId : PublicKey) :
  Z.abs nonce < 2 ^ 64 ->
  exists pdas,
    deriveGamePDAs creator nonce mint programId = Ok pdas /\
    gamePda pdas = game_address creator nonce programId /\
    vaultPda pdas =
      if isNativeSOL mint then None
      else Some (vault_address creator nonce mint programId).
Proof.
  intros Hn. unfold deriveGamePDAs, isNativeSOL.
  rewrite toArrayLike_le_8 by assumption. cbn [bind].
  destruct (findProgramAddressSync
              [Buffer.from_string "game"; PublicKey_.toBuffer creator;
               Z_to_le 8 (Z.abs nonce)] programId) as [game gbump] eqn:Eg.
  assert (Hg : game_address creator nonce programId = game)
    by (unfold game_address; rewrite Eg; reflexivity).
  destruct (PublicKey_.equals mint PublicKey_.default); cbn [negb].
  - eexists. split; [reflexivity|]. split; [symmetry; exact Hg | reflexivity].
  - destruct (findProgramAddressSync
                [Buffer.from_string "vault"; PublicKey_.toBuffer game;
                 PublicKey_.toBuffer mint] programId) as [vault vbump] eqn:Ev.
    eexists. split; [reflexivity|]. split; [symmetry; exact Hg|].
    unfold vault_address. rewrite Hg, Ev. reflexivity.
Qed.


End Derived.

Section Builders.
Context {D : Derivation}.

Lemma createCreateGameInstruction_invalid_bps
    (random : float64) (creator : PublicKey) (args : CreateGameArgs.t)
    (programId : PublicKey) :
  CreateGameArgs.payoutBps args <= 0 \/ 10000 <= CreateGameArgs.payoutBps args ->
  createCreateGameInstruction random creator args programId =
    Err (JsError "Payout basis points must be between 1 and 9999").
Proof.
  intros H. unfold createCreateGameInstruction, validatePayoutBps.
  destruct (Z.leb_spec (CreateGameArgs.payoutBps args) 0);
    destruct (Z.geb_spec (CreateGameArgs.payoutBps args) 10000);
    try reflexivity; lia.
Qed.

Lemma createCreateGameInstruction_ok
    (random : float64) (creator : PublicKey) (args : CreateGameArgs.t)
    (programId : PublicKey) :
  let nonce := or_default (CreateGameArgs.nonce args) (generateNonce random) in
  0 < CreateGameArgs.payoutBps args < 10000 ->
  Z.abs (CreateGameArgs.wager args) < 2 ^ 64 ->
  Z.abs (CreateGameArgs.expiryTs args) < 2 ^ 64 ->
  Z.abs nonce < 2 ^ 64 ->
  exists ix,
    createCreateGameInstruction random creator args programId =
      Ok (ix, game_address creator nonce programId, []) /\
    account_keys ix =
      [creator; game_address creator nonce programId]
      ++ (if isNativeSOL (CreateGameArgs.mint args) then []
          else [vault_address creator nonce (CreateGameArgs.mint args) programId;
                CreateGameArgs.mint args])
      ++ [CreateGameArgs.devWallet args; TOKEN_PROGRAM_ID;
          SystemProgram.programId; SYSVAR_RENT_PUBKEY].
Proof.
  intros nonce Hb Hw He Hn.
  unfold createCreateGameInstruction, validatePayoutBps.
  destruct (Z.leb_spec (CreateGameArgs.payoutBps args) 0); [lia|].
  destruct (Z.geb_spec (CreateGameArgs.payoutBps args) 10000); [lia|].
  cbn [orb bind].
  change (match CreateGameArgs.nonce args with
          | Some n => n
          | None => generateNonce random
          end) with nonce.
  destruct (deriveGamePDAs_ok creator nonce (CreateGameArgs.mint args) programId Hn)
    as (pdas & E & Hg & Hv).
  rewrite E. cbn [bind]. rewrite Hg, Hv.
  rewrite !toArrayLike_le_8 by assumption.
  destruct (isNativeSOL (CreateGameArgs.mint args)); cbn [negb bind];
    eexists; split; reflexivity.
Qed.

End Builders.

(** C5, as stated, fails: a request with a zero stake and an expiry time
    already past, and a payout fraction in range, yields an instruction. *)
Lemma create_accepts_zero_stake_and_past_expiry :
  let now := 2000000000 in
  let args :=
    CreateGameArgs.mk PublicKey_.default 0 8500 1999999999 None Example.carol (Some 42) in
  CreateGameArgs.wager args = 0 /\
  CreateGameArgs.expiryTs args <= now /\
  is_ok (@createCreateGameInstruction Example.derivation Example.half
           Example.alice args WAGER_PROGRAM_ID) = true /\
  ~ (forall (D : Derivation) random creator args programId (now : Z),
        CreateGameArgs.payoutBps args <= 0 \/
        10000 <= CreateGameArgs.payoutBps args \/
        CreateGameArgs.expiryTs args <= now \/
        CreateGameArgs.wager args = 0 ->
        exists e, createCreateGameInstruction random creator args programId = Err e).
Proof.
  cbv zeta. split; [reflexivity|]. split; [cbn; lia|]. split; [vm_compute; reflexivity|].
  intros H.
  destruct (H Example.derivation Example.half Example.alice
              (CreateGameArgs.mk PublicKey_.default 0 8500 1999999999 None
                 Example.carol (Some 42))
              WAGER_PROGRAM_ID 2000000000) as [e He].
  - right. right. right. reflexivity.
  - vm_compute in He. discriminate He.
Qed.

(** C5, amended.  Building the creation instruction fails, with the
    invalid-configuration error of [validatePayoutBps], whenever the payout
    fraction is outside the open interval (0, 10000); no instruction is
    produced then.  With the payout fraction inside the interval an
    instruction is produced whatever the expiry time and the stake amount
    are (as long as they fit their eight bytes): the builder checks neither
    that the expiry lies in the future nor that the stake is positive. *)
Theorem createCreateGameInstruction_validates_payout_only
    (D : Derivation) (random : float64) (creator : PublicKey)
    (args : CreateGameArgs.t) (programId : PublicKey) :
  (CreateGameArgs.payoutBps args <= 0 \/ 10000 <= CreateGameArgs.payoutBps args ->
   exists e,
     createCreateGameInstruction random creator args programId = Err e /\
     error_kind e = Some InvalidConfiguration) /\
  (0 < CreateGameArgs.payoutBps args < 10000 ->
   Z.abs (CreateGameArgs.wager args) < 2 ^ 64 ->
   Z.abs (CreateGameArgs.expiryTs args) < 2 ^ 64 ->
   Z.abs (or_default (CreateGameArgs.nonce args) (generateNonce random)) < 2 ^ 64 ->
   exists ix gamePda,
     createCreateGameInstruction random creator args programId = Ok (ix, gamePda, [])).
Proof.
  split.
  - intros H. eexists. split.
    + apply createCreateGameInstruction_invalid_bps. exact H.
    + reflexivity.
  - intros Hb Hw He Hn.
    destruct (createCreateGameInstruction_ok random creator args programId Hb Hw He Hn)
      as (ix & E & _).
    exists ix. eexists. exact E.
Qed.

(** The scenario of the specification: a payout fraction of 10000. *)
Lemma createCreateGameInstruction_rejects_10000 :
  let args :=
    CreateGameArgs.mk PublicKey_.default 1000000000 10000 1900000000
      (Some Example.alice) Example.carol (Some 42) in
  (CreateGameArgs.payoutBps args <= 0 \/ 10000 <= CreateGameArgs.payoutBps args) /\
  exists e,
    @createCreateGameInstruction Example.derivation Example.half Example.alice args
      WAGER_PROGRAM_ID = Err e /\
    error_kind e = Some InvalidConfiguration.
Proof.
  cbv zeta.
  assert (H : CreateGameArgs.payoutBps
                (CreateGameArgs.mk PublicKey_.default 1000000000 10000 1900000000
                   (Some Example.alice) Example.carol (Some 42)) <= 0 \/
              10000 <= CreateGameArgs.payoutBps
                (CreateGameArgs.mk PublicKey_.default 1000000000 10000 1900000000
                   (Some Example.alice) Example.carol (Some 42)))
    by (right; cbn; lia).
  split; [exact H|].
  exact (proj1 (createCreateGameInstruction_validates_payout_only
                  Example.derivation Example.half Example.alice _ WAGER_PROGRAM_ID) H).
Defined.

(* ================================================================= *)
(** ** Account references by stake kind *)

Section BuildersByKind.
Context {D : Derivation}.

Lemma derived_vault_ok (g : GameAccount.t) (programId : PublicKey) :
  isNativeSOL (GameAccount.mint g) = false ->
  Z.abs (GameAccount.nonce g) < 2 ^ 64 ->
  derived_vault g (GameAccount.mint g) programId =
    Ok (vault_address (GameAccount.creator g) (GameAccount.nonce g)
          (GameAccount.mint g) programId).
Proof.
  intros Hm Hn. unfold derived_vault.
  destruct (deriveGamePDAs_ok (GameAccount.creator g) (GameAccount.nonce g)
              (GameAccount.mint g) programId Hn) as (pdas & E & _ & Hv).
  rewrite E. cbn [bind]. rewrite Hv, Hm. reflexivity.
Qed.

Lemma derived_vault_inv (g : GameAccount.t) (programId v : PublicKey) :
  isNativeSOL (GameAccount.mint g) = false ->
  derived_vault g (GameAccount.mint g) programId = Ok v ->
  Z.abs (GameAccount.nonce g) < 2 ^ 64 /\
  v = vault_address (GameAccount.creator g) (GameAccount.nonce g)
        (GameAccount.mint g) programId.
Proof.
  intros Hm E.
  destruct (Z.lt_ge_cases (Z.abs (GameAccount.nonce g)) (2 ^ 64)) as [Hn|Hn].
  - split; [exact Hn|]. rewrite derived_vault_ok in E by assumption. congruence.
  - exfalso. unfold derived_vault, deriveGamePDAs, BN.toArrayLike_le in E.
    change (256 ^ Z.of_nat 8) with (2 ^ 64) in E.
    destruct (Z.ltb_spec (Z.abs (GameAccount.nonce g)) (2 ^ 64)); [lia|].
    discriminate E.
Qed.

Lemma getOrCreateAssociatedTokenAccount_on_curve
    (connection : Ledger) (payer mint owner_ : PublicKey) :
  isOnCurve owner_ = true ->
  getOrCreateAssociatedTokenAccount connection payer mint owner_ false =
    Ok (companion_address mint owner_,
        match getAccountInfo connection (companion_address mint owner_) with
        | Some _ => None
        | None =>
            Some (createAssociatedTokenAccountInstruction payer
                    (companion_address mint owner_) owner_ mint)
        end).
Proof.
  intros H. unfold getOrCreateAssociatedTokenAccount, getAssociatedTokenAddressSync.
  rewrite H. cbn [negb andb bind]. fold (companion_address mint owner_).
  destruct (getAccountInfo connection (companion_address mint owner_)); reflexivity.
Qed.

Lemma getOrCreateAssociatedTokenAccount_off_curve
    (connection : Ledger) (payer mint owner_ : PublicKey) :
  isOnCurve owner_ = false ->
  getOrCreateAssociatedTokenAccount connection payer mint owner_ false =
    Err TokenOwnerOffCurveError.
Proof.
  intros H. unfold getOrCreateAssociatedTokenAccount, getAssociatedTokenAddressSync.
  rewrite H. reflexivity.
Qed.

Lemma createJoinGameInstruction_native
    (connection : Ledger) (player2 gamePda : PublicKey) (g : GameAccount.t)
    (programId : PublicKey) :
  isNativeSOL (GameAccount.mint g) = true ->
  createJoinGameInstruction connection player2 gamePda g programId =
    Ok ({| keys := [ mkMeta player2 true true;
                     mkMeta gamePda false true;
                     mkMeta SystemProgram.programId false false;
                     mkMeta SystemProgram.programId false false;
                     mkMeta TOKEN_PROGRAM_ID false false;
                     mkMeta SystemProgram.programId false false ];
           programId := programId;
           data := [byte_of_Z 1] |}, []).
Proof.
  intros Hm. unfold createJoinGameInstruction. rewrite Hm. reflexivity.
Qed.

Lemma createJoinGameInstruction_token
    (connection : Ledger) (player2 gamePda : PublicKey) (g : GameAccount.t)
    (programId : PublicKey) :
  isNativeSOL (GameAccount.mint g) = false ->
  isOnCurve player2 = true ->
  Z.abs (GameAccount.nonce g) < 2 ^ 64 ->
  let companion := companion_address (GameAccount.mint g) player2 in
  createJoinGameInstruction connection player2 gamePda g programId =
    Ok ({| keys := [ mkMeta player2 true true;
                     mkMeta gamePda false true;
                     mkMeta companion false true;
                     mkMeta (vault_address (GameAccount.creator g)
                               (GameAccount.nonce g) (GameAccount.mint g) programId)
                            false true;
                     mkMeta TOKEN_PROGRAM_ID false false;
                     mkMeta SystemProgram.programId false false ];
           programId := programId;
           data := [byte_of_Z 1] |},
        match getAccountInfo connection companion with
        | Some _ => []
        | None => [createAssociatedTokenAccountInstruction player2 companion player2
                     (GameAccount.mint g)]
        end).
Proof.
  intros Hm Hc Hn companion. unfold createJoinGameInstruction.
  rewrite Hm. cbn [negb].
  rewrite getOrCreateAssociatedTokenAccount_on_curve by exact Hc.
  fold companion. cbn [bind].
  rewrite derived_vault_ok by assumption.
  destruct (getAccountInfo connection companion); reflexivity.
Qed.

Lemma createJoinGameInstruction_off_curve
    (connection : Ledger) (player2 gamePda : PublicKey) (g : GameAccount.t)
    (programId : PublicKey) :
  isNativeSOL (GameAccount.mint g) = false ->
  isOnCurve player2 = false ->
  createJoinGameInstruction connection player2 gamePda g programId =
    Err TokenOwnerOffCurveError.
Proof.
  intros Hm Hc. unfold createJoinGameInstruction. rewrite Hm. cbn [negb].
  rewrite getOrCreateAssociatedTokenAccount_off_curve by exact Hc. reflexivity.
Qed.

Lemma createResolveGameInstruction_native
    (connection : Ledger) (resolver gamePda winner : PublicKey) (g : GameAccount.t)
    (programId : PublicKey) :
  isNativeSOL (GameAccount.mint g) = true ->
  createResolveGameInstruction connection resolver gamePda winner g programId =
    Ok ({| keys := [ mkMeta resolver true true;
                     mkMeta gamePda false true;
                     mkMeta SystemProgram.programId false false;
                     mkMeta SystemProgram.programId false false;
                     mkMeta SystemProgram.programId false false;
                     mkMeta winner false true;
                     mkMeta (GameAccount.devWallet g) false true;
                     mkMeta TOKEN_PROGRAM_ID false false;
                     mkMeta SystemProgram.programId false false ];
           programId := programId;
           data := [byte_of_Z 2] ++ PublicKey_.toBuffer winner |}, []).
Proof.
  intros Hm. unfold createResolveGameInstruction. rewrite Hm. reflexivity.
Qed.

Lemma createResolveGameInstruction_token
    (connection : Ledger) (resolver gamePda winner : PublicKey) (g : GameAccount.t)
    (programId : PublicKey) :
  isNativeSOL (GameAccount.mint g) = false ->
  isOnCurve winner = true ->
  isOnCurve (GameAccount.devWallet g) = true ->
  Z.abs (GameAccount.nonce g) < 2 ^ 64 ->
  exists preInstructions,
    createResolveGameInstruction connection resolver gamePda winner g programId =
      Ok ({| keys := [ mkMeta resolver true true;
                       mkMeta gamePda false true;
                       mkMeta (companion_address (GameAccount.mint g) winner)
                              false true;
                       mkMeta (companion_address (GameAccount.mint g)
                                 (GameAccount.devWallet g))
                              false true;
                       mkMeta (vault_address (GameAccount.creator g)
                                 (GameAccount.nonce g) (GameAccount.mint g) programId)
                              false true;
                       mkMeta winner false true;
                       mkMeta (GameAccount.devWallet g) false true;
                       mkMeta TOKEN_PROGRAM_ID false false;
                       mkMeta SystemProgram.programId false false ];
             programId := programId;
             data := [byte_of_Z 2] ++ PublicKey_.toBuffer winner |},
          preInstructions).
Proof.
  intros Hm Hw Hd Hn. unfold createResolveGameInstruction.
  rewrite Hm. cbn [negb].
  rewrite !getOrCreateAssociatedTokenAccount_on_curve by assumption.
  cbn [bind].
  rewrite derived_vault_ok by assumption.
  eexists; reflexivity.
Qed.

Lemma createResolveGameInstruction_off_curve
    (connection : Ledger) (resolver gamePda winner : PublicKey) (g : GameAccount.t)
    (programId : PublicKey) :
  isNativeSOL (GameAccount.mint g) = false ->
  isOnCurve winner && isOnCurve (GameAccount.devWallet g) = false ->
  createResolveGameInstruction connection resolver gamePda winner g programId =
    Err TokenOwnerOffCurveError.
Proof.
  intros Hm Hc. unfold createResolveGameInstruction. rewrite Hm. cbn [negb].
  destruct (isOnCurve winner) eqn:Hw.
  - cbn [andb] in Hc.
    rewrite getOrCreateAssociatedTokenAccount_on_curve by exact Hw. cbn [bind].
    rewrite getOrCreateAssociatedTokenAccount_off_curve by exact Hc. reflexivity.
  - rewrite getOrCreateAssociatedTokenAccount_off_curve by exact Hw. reflexivity.
Qed.

End BuildersByKind.

Section CancelByKind.
Context {D : Derivation}.

Lemma createCancelGameInstruction_native
    (connection : Ledger) (authority gamePda : PublicKey) (g : GameAccount.t)
    (programId : PublicKey) :
  isNativeSOL (GameAccount.mint g) = true ->
  exists ix,
    createCancelGameInstruction connection authority gamePda g programId = Ok (ix, []) /\
    account_keys ix =
      [ authority; gamePda;
        SystemProgram.programId; SystemProgram.programId; SystemProgram.programId;
        GameAccount.creator g; second_player_or_placeholder g;
        TOKEN_PROGRAM_ID; SystemProgram.programId ].
Proof.
  intros Hm. unfold createCancelGameInstruction, second_player_or_placeholder.
  rewrite Hm. cbn [negb bind].
  destruct (PublicKey_.equals (GameAccount.player2 g) PublicKey_.default);
    eexists; split; reflexivity.
Qed.

Lemma createCancelGameInstruction_token
    (connection : Ledger) (authority gamePda : PublicKey) (g : GameAccount.t)
    (programId : PublicKey) :
  isNativeSOL (GameAccount.mint g) = false ->
  cancel_owners_on_curve g = true ->
  Z.abs (GameAccount.nonce g) < 2 ^ 64 ->
  exists ix preInstructions companion,
    createCancelGameInstruction connection authority gamePda g programId =
      Ok (ix, preInstructions) /\
    account_keys ix =
      [ authority; gamePda;
        companion_address (GameAccount.mint g) (GameAccount.creator g);
        companion;
        vault_address (GameAccount.creator g) (GameAccount.nonce g)
          (GameAccount.mint g) programId;
        GameAccount.creator g; second_player_or_placeholder g;
        TOKEN_PROGRAM_ID; SystemProgram.programId ].
Proof.
  intros Hm Hc Hn. unfold cancel_owners_on_curve in Hc.
  apply andb_true_iff in Hc. destruct Hc as [Hcreator Hsecond].
  unfold createCancelGameInstruction, second_player_or_placeholder.
  rewrite Hm. cbn [negb].
  rewrite getOrCreateAssociatedTokenAccount_on_curve by exact Hcreator.
  cbn [bind].
  destruct (PublicKey_.equals (GameAccount.player2 g) PublicKey_.default);
    cbn [negb orb] in Hsecond |- *.
  - cbn [bind]. rewrite derived_vault_ok by assumption.
    do 3 eexists; split; reflexivity.
  - rewrite getOrCreateAssociatedTokenAccount_on_curve by exact Hsecond.
    cbn [bind]. rewrite derived_vault_ok by assumption.
    do 3 eexists; split; reflexivity.
Qed.

Lemma createCancelGameInstruction_off_curve
    (connection : Ledger) (authority gamePda : PublicKey) (g : GameAccount.t)
    (programId : PublicKey) :
  isNativeSOL (GameAccount.mint g) = false ->
  cancel_owners_on_curve g = false ->
  createCancelGameInstruction connection authority gamePda g programId =
    Err TokenOwnerOffCurveError.
Proof.
  intros Hm Hc. unfold cancel_owners_on_curve in Hc.
  unfold createCancelGameInstruction. rewrite Hm. cbn [negb].
  destruct (isOnCurve (GameAccount.creator g)) eqn:Hcreator.
  - cbn [andb] in Hc. apply orb_false_iff in Hc. destruct Hc as [Hset Hsecond].
    rewrite getOrCreateAssociatedTokenAccount_on_curve by exact Hcreator.
    cbn [bind]. rewrite Hset. cbn [negb].
    rewrite getOrCreateAssociatedTokenAccount_off_curve by exact Hsecond.
    reflexivity.
  - rewrite getOrCreateAssociatedTokenAccount_off_curve by exact Hcreator.
    reflexivity.
Qed.

End CancelByKind.




(* ================================================================= *)
(** ** Resolving *)

(** C7.  On a record in state Ready, resolving with a winner that is
    neither player fails with the invalid-winner error and sends nothing:
    the ledger is as before and the record is still Ready.  On a record not
    in state Ready, resolving fails with the wrong-state error.  Both hold
    whatever the transport does. *)
Theorem resolveGame_rejections
    (D : Derivation) (T : Transport) (this : WagerClient) (connection : Ledger)
    (resolver gamePda winner : PublicKey) (g : GameAccount.t) :
  getGame connection gamePda = Ok g ->
  (GameAccount.state g = GameState_value Ready ->
   winner <> GameAccount.player1 g ->
   winner <> GameAccount.player2 g ->
   exists e connection',
     resolveGame this connection resolver gamePda winner = (Err e, connection') /\
     error_kind e = Some InvalidWinner /\
     connection' = connection /\
     getGame connection' gamePda = Ok g) /\
  (GameAccount.state g <> GameState_value Ready ->
   exists e connection',
     resolveGame this connection resolver gamePda winner = (Err e, connection') /\
     error_kind e = Some WrongState /\
     connection' = connection).
Proof.
  intros Hget. unfold resolveGame. rewrite Hget.
  unfold GameAccount.canResolve, PublicKey_.equals. split.
  - intros Hs Hw1 Hw2. rewrite Hs, Z.eqb_refl. cbn [negb].
    destruct (Z.eqb_spec winner (GameAccount.player1 g)) as [|_]; [contradiction|].
    destruct (Z.eqb_spec winner (GameAccount.player2 g)) as [|_]; [contradiction|].
    cbn [negb andb].
    do 2 eexists. split; [reflexivity|]. split; [reflexivity|]. split; [reflexivity|].
    exact Hget.
  - intros Hs.
    destruct (Z.eqb_spec (GameAccount.state g) (GameState_value Ready)) as [|_];
      [contradiction|].
    cbn [negb]. do 2 eexists. split; [reflexivity|]. split; reflexivity.
Qed.

(** The scenario of the specification: a created and joined game is
    resolved in favour of somebody who is not a player. *)
Lemma resolveGame_rejections_with_outsider :
  getGame (Example.ledger_with Example.ready_game) Example.game_pda
    = Ok Example.ready_game /\
  GameAccount.state Example.ready_game = GameState_value Ready /\
  Example.carol <> GameAccount.player1 Example.ready_game /\
  Example.carol <> GameAccount.player2 Example.ready_game /\
  exists e connection',
    @resolveGame Example.derivation Example.transport Example.client
      (Example.ledger_with Example.ready_game) Example.alice Example.game_pda
      Example.carol = (Err e, connection') /\
    error_kind e = Some InvalidWinner /\
    connection' = Example.ledger_with Example.ready_game /\
    getGame connection' Example.game_pda = Ok Example.ready_game.
Proof.
  assert (Hget : getGame (Example.ledger_with Example.ready_game) Example.game_pda
                 = Ok Example.ready_game) by (vm_compute; reflexivity).
  assert (H1 : Example.carol <> GameAccount.player1 Example.ready_game)
    by (vm_compute; discriminate).
  assert (H2 : Example.carol <> GameAccount.player2 Example.ready_game)
    by (vm_compute; discriminate).
  split; [exact Hget|]. split; [reflexivity|]. split; [exact H1|]. split; [exact H2|].
  exact (proj1 (resolveGame_rejections Example.derivation Example.transport
                  Example.client (Example.ledger_with Example.ready_game)
                  Example.alice Example.game_pda Example.carol Example.ready_game Hget)
           eq_refl H1 H2).
Defined.

(* ================================================================= *)
(** ** The ledger *)

Lemma getAccountInfo_setAccount_other (l : Ledger) (a b : PublicKey) (info : AccountInfo) :
  a <> b ->
  getAccountInfo (setAccount l a info) b = getAccountInfo l b.
Proof.
  intros Hab. induction l as [|[k i] rest IH]; cbn [setAccount getAccountInfo].
  - destruct (Z.eqb_spec a b); [contradiction | reflexivity].
  - destruct (Z.eqb_spec k a) as [->|Hka]; cbn [getAccountInfo].
    + destruct (Z.eqb_spec a b); [contradiction | reflexivity].
    + rewrite IH. reflexivity.
Qed.

Lemma getGame_found (connection : Ledger) (gamePda : PublicKey) (g : GameAccount.t) :
  getGame connection gamePda = Ok g ->
  exists info,
    getAccountInfo connection gamePda = Some info /\
    deserializeGameAccount (account_data info) = Ok g.
Proof.
  unfold getGame. destruct (getAccountInfo connection gamePda) as [info|];
    [|discriminate].
  intros E. exists info. split; [reflexivity | exact E].
Qed.

Lemma decoded_nonce_range (data : list byte) (g : GameAccount.t) :
  deserializeGameAccount data = Ok g ->
  Z.abs (GameAccount.nonce g) < 2 ^ 64.
Proof.
  intros E.
  destruct (Nat.lt_ge_cases (List.length data) 229) as [Hshort|Hlong].
  - rewrite deserializeGameAccount_short in E by assumption. discriminate E.
  - destruct (deserializeGameAccount_long data Hlong) as (s & b & v & _ & _ & _ & E').
    rewrite E' in E. injection E as <-. cbn [decoded GameAccount.nonce].
    pose proof (le_to_Z_range (Buffer.slice data 219 227)) as R.
    pose proof (slice_length data 219 227) as L.
    assert (256 ^ Z.of_nat (List.length (Buffer.slice data 219 227)) <= 256 ^ 8)
      by (apply Z.pow_le_mono_r; lia).
    change (256 ^ 8) with (2 ^ 64) in *. lia.
Qed.

(* ================================================================= *)
(** ** The escrow program on the client's instructions *)

Section AuthorityOnClientInstructions.
Context {D : Derivation}.
Variable program : PublicKey.
Hypothesis program_is_not_companion_program : program <> ASSOCIATED_TOKEN_PROGRAM_ID.

Lemma process_escrow_instruction
    (l : Ledger) (caller record : PublicKey) (rest : list AccountMeta)
    (opcode : byte) (payload : list byte) (info : AccountInfo) (g : GameAccount.t) :
  getAccountInfo l record = Some info ->
  deserializeGameAccount (account_data info) = Ok g ->
  Authority.process_instruction program l [caller]
    {| keys := mkMeta caller true true :: mkMeta record false true :: rest;
       programId := program;
       data := opcode :: payload |} =
  match Authority.transition program g caller rest (Z_of_byte opcode) payload with
  | inl kind => Err (SendTransactionError kind)
  | inr g' =>
      Ok (setAccount l record
            {| owner := owner info;
               account_data :=
                 serializeGameAccount (firstn 8 (account_data info)) g' |})
  end.
Proof.
  intros Hinfo Hdec. unfold Authority.process_instruction.
  cbn [programId keys data pubkey isSigner].
  destruct (Z.eqb_spec program ASSOCIATED_TOKEN_PROGRAM_ID) as [|_]; [contradiction|].
  rewrite Z.eqb_refl. cbn [existsb]. rewrite Z.eqb_refl. cbn [orb andb negb].
  rewrite Hinfo, Hdec. reflexivity.
Qed.

Lemma process_companion_instruction
    (l : Ledger) (signers : list PublicKey) (payer companion owner_ mint_ : PublicKey) :
  getAccountInfo l companion = None ->
  exists info,
    Authority.process_instruction program l signers
      (createAssociatedTokenAccountInstruction payer companion owner_ mint_) =
    Ok (setAccount l companion info).
Proof.
  intros Hnone. unfold Authority.process_instruction,
    createAssociatedTokenAccountInstruction.
  cbn [programId keys pubkey]. rewrite Z.eqb_refl. rewrite Hnone.
  eexists. reflexivity.
Qed.

(** What the ledger answers to the bundle [joinGame] submits. *)
Lemma submit_join_bundle
    (l : Ledger) (player2 gamePda : PublicKey) (g : GameAccount.t)
    (ix : TransactionInstruction) (preInstructions : list TransactionInstruction) :
  getGame l gamePda = Ok g ->
  createJoinGameInstruction l player2 gamePda g program = Ok (ix, preInstructions) ->
  exists l1 info,
    getAccountInfo l1 gamePda = Some info /\
    deserializeGameAccount (account_data info) = Ok g /\
    Authority.submit program l (preInstructions ++ [ix]) [player2] =
    match Authority.join g player2 true with
    | inl kind => (Err (SendTransactionError kind), l)
    | inr g' =>
        (Ok "confirmed"%string,
         setAccount l1 gamePda
           {| owner := owner info;
              account_data := serializeGameAccount (firstn 8 (account_data info)) g' |})
    end.
Proof.
  intros Hget Hix.
  destruct (getGame_found l gamePda g Hget) as (info & Hinfo & Hdec).
  pose proof (decoded_nonce_range _ g Hdec) as Hnonce.
  destruct (isNativeSOL (GameAccount.mint g)) eqn:Hm.
  - rewrite createJoinGameInstruction_native in Hix by assumption.
    injection Hix as <- <-.
    exists l, info. split; [exact Hinfo|]. split; [exact Hdec|].
    unfold Authority.submit. cbn [app Authority.process bind].
    rewrite (process_escrow_instruction l player2 gamePda _ _ _ info g Hinfo Hdec).
    unfold Authority.transition. change (Z_of_byte (byte_of_Z 1)) with 1.
    cbn [Z.eqb Pos.eqb nth pubkey]. unfold Authority.deposit_matches.
    rewrite Hm. rewrite Z.eqb_refl.
    destruct (Authority.join g player2 true); reflexivity.
  - destruct (isOnCurve player2) eqn:Hcurve;
      [|rewrite createJoinGameInstruction_off_curve in Hix by assumption;
        discriminate Hix].
    rewrite createJoinGameInstruction_token in Hix by assumption.
    injection Hix as <- <-.
    set (companion := companion_address (GameAccount.mint g) player2).
    assert (Hmatch :
      Authority.deposit_matches program g
        (vault_address (GameAccount.creator g) (GameAccount.nonce g)
           (GameAccount.mint g) program) = true).
    { unfold Authority.deposit_matches. rewrite Hm.
      destruct (deriveGamePDAs_ok (GameAccount.creator g) (GameAccount.nonce g)
                  (GameAccount.mint g) program Hnonce) as (pdas & E & _ & Hv).
      rewrite E, Hv, Hm. apply Z.eqb_refl. }
    destruct (getAccountInfo l companion) as [existing|] eqn:Hc.
    + exists l, info. split; [exact Hinfo|]. split; [exact Hdec|].
      unfold Authority.submit. cbn [app Authority.process bind].
      rewrite (process_escrow_instruction l player2 gamePda _ _ _ info g Hinfo Hdec).
      unfold Authority.transition. change (Z_of_byte (byte_of_Z 1)) with 1.
      cbn [Z.eqb Pos.eqb nth pubkey]. rewrite Hmatch.
      destruct (Authority.join g player2 true); reflexivity.
    + destruct (process_companion_instruction l [player2] player2 companion player2
                  (GameAccount.mint g) Hc) as (cinfo & Hp).
      assert (Hne : companion <> gamePda) by congruence.
      assert (Hinfo' : getAccountInfo (setAccount l companion cinfo) gamePda = Some info)
        by (rewrite getAccountInfo_setAccount_other; assumption).
      exists (setAccount l companion cinfo), info.
      split; [exact Hinfo'|]. split; [exact Hdec|].
      unfold Authority.submit. cbn [app Authority.process].
      rewrite Hp. cbn [bind].
      rewrite (process_escrow_instruction _ player2 gamePda _ _ _ info g Hinfo' Hdec).
      unfold Authority.transition. change (Z_of_byte (byte_of_Z 1)) with 1.
      cbn [Z.eqb Pos.eqb nth pubkey]. rewrite Hmatch.
      destruct (Authority.join g player2 true); reflexivity.
Qed.

End AuthorityOnClientInstructions.

(* ================================================================= *)
(** ** Joining *)

Lemma createJoinGameInstruction_total
    (D : Derivation) (connection : Ledger) (player2 gamePda : PublicKey)
    (g : GameAccount.t) (programId : PublicKey) :
  getGame connection gamePda = Ok g ->
  isNativeSOL (GameAccount.mint g) = true \/ isOnCurve player2 = true ->
  exists ix preInstructions,
    createJoinGameInstruction connection player2 gamePda g programId =
      Ok (ix, preInstructions).
Proof.
  intros Hget Hcurve.
  destruct (getGame_found connection gamePda g Hget) as (info & _ & Hdec).
  pose proof (decoded_nonce_range _ g Hdec) as Hnonce.
  destruct (isNativeSOL (GameAccount.mint g)) eqn:Hm.
  - do 2 eexists. apply createJoinGameInstruction_native. exact Hm.
  - destruct Hcurve as [Hn|Hc]; [discriminate Hn|].
    do 2 eexists. apply createJoinGameInstruction_token; assumption.
Qed.

(** C6.  The client refuses a join on a record that is not Open with the
    wrong-state error, before anything is sent and whatever the transport
    is.  On an Open record the
    escrow program, which the join instruction reaches, refuses a joiner
    equal to the creator with [SelfJoinForbidden].  In both cases the ledger
    is left as it was.  A join that succeeds was made by somebody other than
    the creator on an Open record, and such a join does succeed.  The
    joiner signs the transaction, so its key is a point of the curve; this
    matters for a token game, where the joiner's companion account is
    looked up: a key off the curve is refused there by spl-token before
    anything is sent. *)
Theorem joinGame_guards
    (D : Derivation) (program : PublicKey) (connection : Ledger)
    (player2 gamePda : PublicKey) (g : GameAccount.t) :
  let this := {| client_programId := program |} in
  let join := @joinGame D (Authority.transport program) this connection player2 gamePda in
  program <> ASSOCIATED_TOKEN_PROGRAM_ID ->
  getGame connection gamePda = Ok g ->
  (forall T : Transport,
      GameAccount.state g <> GameState_value Open ->
      exists e,
        @joinGame D T this connection player2 gamePda = (Err e, connection) /\
        error_kind e = Some WrongState) /\
  (GameAccount.state g = GameState_value Open ->
   GameAccount.player2 g = PublicKey_.default ->
   player2 = GameAccount.creator g ->
   isNativeSOL (GameAccount.mint g) = true \/ isOnCurve player2 = true ->
   exists e, join = (Err e, connection) /\ error_kind e = Some SelfJoinForbidden) /\
  (forall signature connection',
      join = (Ok signature, connection') ->
      player2 <> GameAccount.creator g /\
      GameAccount.state g = GameState_value Open) /\
  (GameAccount.state g = GameState_value Open ->
   GameAccount.player2 g = PublicKey_.default ->
   player2 <> GameAccount.creator g ->
   isNativeSOL (GameAccount.mint g) = true \/ isOnCurve player2 = true ->
   exists signature connection', join = (Ok signature, connection')) /\
  (GameAccount.state g = GameState_value Open ->
   GameAccount.player2 g = PublicKey_.default ->
   isNativeSOL (GameAccount.mint g) = false ->
   isOnCurve player2 = false ->
   join = (Err TokenOwnerOffCurveError, connection)).
Proof.
  intros this join Hprog Hget. subst join this.
  unfold joinGame. rewrite Hget. cbn [client_programId].
  unfold GameAccount.canJoin, PublicKey_.equals.
  destruct (Z.eqb_spec (GameAccount.state g) (GameState_value Open)) as [Hopen|Hnot];
    cbn [andb negb].
  2: { repeat apply conj.
       - intros T _. eexists. split; reflexivity.
       - intros Hs. contradiction.
       - intros s c E. discriminate E.
       - intros Hs. contradiction.
       - intros Hs. contradiction. }
  destruct (Z.eqb_spec (GameAccount.player2 g) PublicKey_.default) as [Hunset|Hset];
    cbn [negb].
  2: { repeat apply conj.
       - intros T Hs. contradiction.
       - intros _ Hunset. contradiction.
       - intros s c E. discriminate E.
       - intros _ Hunset. contradiction.
       - intros _ Hunset. contradiction. }
  destruct (createJoinGameInstruction connection player2 gamePda g program)
    as [[ix pre]|e] eqn:Hix.
  - destruct (submit_join_bundle program Hprog connection player2 gamePda g ix pre
                Hget Hix) as (l1 & info & _ & _ & Hsubmit).
    cbn [sendAndConfirmTransaction Authority.transport]. rewrite Hsubmit.
    unfold Authority.join.
    destruct (Z.eqb_spec (GameAccount.state g) (GameState_value Open)) as [_|Hnot];
      [|contradiction].
    cbn [negb].
    destruct (Z.eqb_spec player2 (GameAccount.creator g)) as [Hself|Hother].
    + repeat apply conj.
      * intros T Hs. contradiction.
      * intros _ _ _ _. eexists. split; reflexivity.
      * intros s c E. discriminate E.
      * intros _ _ Hne. contradiction.
      * intros _ _ Hm Hc.
        rewrite createJoinGameInstruction_off_curve in Hix by assumption.
        discriminate Hix.
    + repeat apply conj.
      * intros T Hs. contradiction.
      * intros _ _ Hself. contradiction.
      * intros s c E. split; assumption.
      * intros _ _ _ _. do 2 eexists. reflexivity.
      * intros _ _ Hm Hc.
        rewrite createJoinGameInstruction_off_curve in Hix by assumption.
        discriminate Hix.
  - assert (Hno : ~ (isNativeSOL (GameAccount.mint g) = true \/ isOnCurve player2 = true)).
    { intros Hcurve.
      destruct (createJoinGameInstruction_total D connection player2 gamePda g program
                  Hget Hcurve) as (ix & pre & E).
      rewrite E in Hix. discriminate Hix. }
    repeat apply conj.
    + intros T Hs. contradiction.
    + intros _ _ _ Hcurve. contradiction.
    + intros s c E. discriminate E.
    + intros _ _ _ Hcurve. contradiction.
    + intros _ _ Hm Hc.
      rewrite createJoinGameInstruction_off_curve in Hix by assumption.
      injection Hix as <-. reflexivity.
Qed.

(** The creator of an open game tries to join it. *)
Lemma joinGame_guards_creator_joins :
  WAGER_PROGRAM_ID <> ASSOCIATED_TOKEN_PROGRAM_ID /\
  getGame (Example.ledger_with Example.open_game) Example.game_pda
    = Ok Example.open_game /\
  GameAccount.state Example.open_game = GameState_value Open /\
  GameAccount.player2 Example.open_game = PublicKey_.default /\
  Example.alice = GameAccount.creator Example.open_game /\
  exists e,
    @joinGame Example.derivation Example.transport Example.client
      (Example.ledger_with Example.open_game) Example.alice Example.game_pda
      = (Err e, Example.ledger_with Example.open_game) /\
    error_kind e = Some SelfJoinForbidden.
Proof.
  assert (Hp : WAGER_PROGRAM_ID <> ASSOCIATED_TOKEN_PROGRAM_ID)
    by (vm_compute; discriminate).
  assert (Hget : getGame (Example.ledger_with Example.open_game) Example.game_pda
                 = Ok Example.open_game) by (vm_compute; reflexivity).
  split; [exact Hp|]. split; [exact Hget|].
  split; [reflexivity|]. split; [reflexivity|]. split; [reflexivity|].
  exact (proj1 (proj2 (joinGame_guards Example.derivation WAGER_PROGRAM_ID
                         (Example.ledger_with Example.open_game)
                         Example.alice Example.game_pda Example.open_game Hp Hget))
           eq_refl eq_refl eq_refl (or_introl eq_refl)).
Defined.

(* ================================================================= *)
(** ** Updating the resolver *)

Lemma submit_update_resolver
    (D : Derivation) (program : PublicKey) (l : Ledger)
    (creator gamePda newResolver : PublicKey) (g : GameAccount.t) :
  program <> ASSOCIATED_TOKEN_PROGRAM_ID ->
  getGame l gamePda = Ok g ->
  exists info new,
    getAccountInfo l gamePda = Some info /\
    Authority.submit program l
      [createUpdateResolverInstruction creator gamePda newResolver g program]
      [creator] =
    match Authority.update_resolver g creator new with
    | inl kind => (Err (SendTransactionError kind), l)
    | inr g' =>
        (Ok "confirmed"%string,
         setAccount l gamePda
           {| owner := owner info;
              account_data := serializeGameAccount (firstn 8 (account_data info)) g' |})
    end.
Proof.
  intros Hprog Hget.
  destruct (getGame_found l gamePda g Hget) as (info & Hinfo & Hdec).
  exists info, (be_to_Z (firstn 32 (PublicKey_.toBuffer newResolver))).
  split; [exact Hinfo|].
  unfold Authority.submit, createUpdateResolverInstruction.
  cbn [app Authority.process bind].
  rewrite (process_escrow_instruction program Hprog l creator gamePda _ _ _ info g
             Hinfo Hdec).
  unfold Authority.transition. change (Z_of_byte (byte_of_Z 4)) with 4.
  cbn [Z.eqb Pos.eqb].
  destruct (Authority.update_resolver g creator _); reflexivity.
Qed.

(** C9.  A resolver update succeeds only when the caller is the record's
    creator and the record is Open, and then it does succeed.  When the
    record is not Open the client refuses before anything is sent, whatever
    the transport is; when the caller is not the creator the escrow program
    refuses the instruction.
    Either way the error reads as [WrongState] and the ledger, hence the
    record and its resolver, is left as it was. *)
Theorem updateResolver_guards
    (D : Derivation) (program : PublicKey) (connection : Ledger)
    (caller gamePda newResolver : PublicKey) (g : GameAccount.t) :
  let this := {| client_programId := program |} in
  let update :=
    @updateResolver (@Authority.transport D program) this connection caller gamePda
      newResolver in
  program <> ASSOCIATED_TOKEN_PROGRAM_ID ->
  getGame connection gamePda = Ok g ->
  (forall signature connection',
      update = (Ok signature, connection') ->
      caller = GameAccount.creator g /\
      GameAccount.state g = GameState_value Open) /\
  (forall T : Transport,
      GameAccount.state g <> GameState_value Open ->
      exists e,
        @updateResolver T this connection caller gamePda newResolver
          = (Err e, connection) /\
        error_kind e = Some WrongState) /\
  (GameAccount.state g <> GameState_value Open \/ caller <> GameAccount.creator g ->
   exists e connection',
     update = (Err e, connection') /\
     error_kind e = Some WrongState /\
     connection' = connection /\
     exists g', getGame connection' gamePda = Ok g' /\
                GameAccount.resolver g' = GameAccount.resolver g) /\
  (GameAccount.state g = GameState_value Open ->
   caller = GameAccount.creator g ->
   exists signature connection', update = (Ok signature, connection')).
Proof.
  intros this update Hprog Hget. subst update this.
  unfold updateResolver. rewrite Hget. cbn [client_programId].
  destruct (submit_update_resolver D program connection caller gamePda newResolver g
              Hprog Hget) as (info & new & _ & Hsubmit).
  cbn [sendAndConfirmTransaction Authority.transport]. rewrite Hsubmit.
  unfold Authority.update_resolver.
  destruct (Z.eqb_spec (GameAccount.state g) (GameState_value Open)) as [Hopen|Hnot];
    cbn [andb negb].
  - destruct (Z.eqb_spec caller (GameAccount.creator g)) as [Hcreator|Hother].
    + repeat apply conj.
      * intros s c _. split; assumption.
      * intros T Hs. contradiction.
      * intros [Hs|Hc]; contradiction.
      * intros _ _. do 2 eexists. reflexivity.
    + repeat apply conj.
      * intros s c E. discriminate E.
      * intros T Hs. contradiction.
      * intros _. do 2 eexists. split; [reflexivity|]. split; [reflexivity|].
        split; [reflexivity|]. exists g. split; [exact Hget | reflexivity].
      * intros _ Hc. contradiction.
  - repeat apply conj.
    + intros s c E. discriminate E.
    + intros T _. eexists. split; reflexivity.
    + intros _. do 2 eexists. split; [reflexivity|]. split; [reflexivity|].
      split; [reflexivity|]. exists g. split; [exact Hget | reflexivity].
    + intros Hs. contradiction.
Qed.

(** Somebody who is not the creator tries to replace the resolver of an
    open game. *)
Lemma updateResolver_guards_by_outsider :
  WAGER_PROGRAM_ID <> ASSOCIATED_TOKEN_PROGRAM_ID /\
  getGame (Example.ledger_with Example.open_game) Example.game_pda
    = Ok Example.open_game /\
  (GameAccount.state Example.open_game <> GameState_value Open \/
   Example.bob <> GameAccount.creator Example.open_game) /\
  exists e connection',
    @updateResolver Example.transport Example.client
      (Example.ledger_with Example.open_game) Example.bob Example.game_pda Example.bob
      = (Err e, connection') /\
    error_kind e = Some WrongState /\
    connection' = Example.ledger_with Example.open_game /\
    exists g', getGame connection' Example.game_pda = Ok g' /\
               GameAccount.resolver g' = GameAccount.resolver Example.open_game.
Proof.
  assert (Hp : WAGER_PROGRAM_ID <> ASSOCIATED_TOKEN_PROGRAM_ID)
    by (vm_compute; discriminate).
  assert (Hget : getGame (Example.ledger_with Example.open_game) Example.game_pda
                 = Ok Example.open_game) by (vm_compute; reflexivity).
  assert (Hc : GameAccount.state Example.open_game <> GameState_value Open \/
               Example.bob <> GameAccount.creator Example.open_game)
    by (right; vm_compute; discriminate).
  split; [exact Hp|]. split; [exact Hget|]. split; [exact Hc|].
  exact (proj1 (proj2 (proj2 (updateResolver_guards Example.derivation
                                WAGER_PROGRAM_ID
                                (Example.ledger_with Example.open_game)
                                Example.bob Example.game_pda Example.bob
                                Example.open_game Hp Hget)))
           Hc).
Defined.

(* ================================================================= *)
(** ** Runs *)

(** Encoding and decoding a record. *)
Example roundtrip_open_game :
  deserializeGameAccount (serializeGameAccount Example.tag Example.open_game)
    = Ok Example.open_game.
Proof. vm_compute. reflexivity. Qed.

Example roundtrip_usdc_game :
  deserializeGameAccount (serializeGameAccount Example.tag Example.usdc_open_game)
    = Ok Example.usdc_open_game.
Proof. vm_compute. reflexivity. Qed.

(** Bob joins Alice's open game: the record becomes Ready with Bob as the
    second player. *)
Example bob_joins :
  @joinGame Example.derivation Example.transport Example.client
    (Example.ledger_with Example.open_game) Example.bob Example.game_pda
  = (Ok "confirmed"%string, Example.ledger_with Example.ready_game).
Proof. vm_compute. reflexivity. Qed.

(** Nobody can join the game a second time. *)
Example carol_joins_late :
  @joinGame Example.derivation Example.transport Example.client
    (Example.ledger_with Example.ready_game) Example.carol Example.game_pda
  = (Err (InvalidGameStateError 0 1), Example.ledger_with Example.ready_game).
Proof. vm_compute. reflexivity. Qed.

(** Joining a token game: the bundle first creates Bob's companion
    account, and the join instruction lists it, the vault and the token
    program. *)
Example bob_joins_token_game :
  exists ix companion_ix connection' g,
    @createJoinGameInstruction Example.derivation
      (Example.ledger_with Example.usdc_open_game) Example.bob Example.game_pda
      Example.usdc_open_game WAGER_PROGRAM_ID = Ok (ix, [companion_ix]) /\
    programId companion_ix = ASSOCIATED_TOKEN_PROGRAM_ID /\
    account_keys ix =
      [ Example.bob; Example.game_pda;
        @companion_address Example.derivation Example.usdc Example.bob;
        @vault_address Example.derivation Example.alice 43 Example.usdc WAGER_PROGRAM_ID;
        TOKEN_PROGRAM_ID; SystemProgram.programId ] /\
    @joinGame Example.derivation Example.transport Example.client
      (Example.ledger_with Example.usdc_open_game) Example.bob Example.game_pda
      = (Ok "confirmed"%string, connection') /\
    getGame connection' Example.game_pda = Ok g /\
    GameAccount.state g = GameState_value Ready /\
    GameAccount.player2 g = Example.bob /\
    is_ok (match getAccountInfo connection'
                   (@companion_address Example.derivation
                      Example.usdc Example.bob) with
           | Some _ => Ok tt
           | None => Err RangeError
           end) = true.
Proof.
  do 4 eexists. vm_compute. repeat split; reflexivity.
Qed.

(** Resolving a token game whose dev wallet is a program-derived address,
    here the record's own: the companion lookup of the dev wallet is
    refused, no instruction is built and nothing is sent. *)
Example resolve_with_derived_dev_wallet :
  let g :=
    GameAccount.mk Example.alice Example.alice Example.bob Example.alice
      Example.game_pda Example.usdc
      1000000 9000 (GameState_value Ready) 1900000000 43 254 253 in
  @isOnCurve Example.derivation Example.game_pda = false /\
  getGame (Example.ledger_with g) Example.game_pda = Ok g /\
  @createResolveGameInstruction Example.derivation (Example.ledger_with g)
    Example.alice Example.game_pda Example.bob g WAGER_PROGRAM_ID
    = Err TokenOwnerOffCurveError /\
  @resolveGame Example.derivation Example.transport Example.client
    (Example.ledger_with g) Example.alice Example.game_pda Example.bob
    = (Err TokenOwnerOffCurveError, Example.ledger_with g).
Proof. vm_compute. repeat split; reflexivity. Qed.

(** The two filters as they are sent: the creator in base-58, which the
    node reads back as the 32 bytes, and the state in base-64, which it
    refuses. *)
Example filters_as_sent :
  PublicKey_.toBase58 WAGER_PROGRAM_ID
    = "Fg6PaFpoGXkYsidMpWTK6W2BeZ7FEfcYkg476zPFsLnS"%string /\
  Bs58.decode (PublicKey_.toBase58 Example.alice)
    = Some (PublicKey_.toBuffer Example.alice) /\
  map (fun state => memcmp_bytes (state_filter state))
      [Open; Ready; Paid; Canceled; Expired]
    = ["AA=="; "AQ=="; "Ag=="; "Aw=="; "BA=="]%string /\
  Bs58.decode "AQ==" = None.
Proof. vm_compute. repeat split; reflexivity. Qed.

(** Alice replaces the resolver of her open game. *)
Example alice_updates_resolver :
  exists connection' g,
    @updateResolver Example.transport Example.client
      (Example.ledger_with Example.open_game) Example.alice Example.game_pda Example.bob
      = (Ok "confirmed"%string, connection') /\
    getGame connection' Example.game_pda = Ok g /\
    GameAccount.resolver g = Example.bob /\
    GameAccount.state g = GameState_value Open.
Proof.
  do 2 eexists. vm_compute. repeat split; reflexivity.
Qed.

(** The five opcodes. *)
Example opcodes :
  exists create join resolve cancel p1 p2 p3 p4,
    @createCreateGameInstruction Example.derivation Example.half Example.alice
      (CreateGameArgs.mk PublicKey_.default 1000000000 8500 1900000000
         (Some Example.alice) Example.carol (Some 42))
      WAGER_PROGRAM_ID = Ok (create, p1, []) /\
    @createJoinGameInstruction Example.derivation [] Example.bob Example.game_pda
      Example.open_game WAGER_PROGRAM_ID = Ok (join, p2) /\
    @createResolveGameInstruction Example.derivation [] Example.alice Example.game_pda
      Example.bob Example.ready_game WAGER_PROGRAM_ID = Ok (resolve, p3) /\
    @createCancelGameInstruction Example.derivation [] Example.alice Example.game_pda
      Example.ready_game WAGER_PROGRAM_ID = Ok (cancel, p4) /\
    map (fun ix => hd x00 (data ix))
      [ create; join; resolve; cancel;
        createUpdateResolverInstruction Example.alice Example.game_pda Example.bob
          Example.open_game WAGER_PROGRAM_ID ]
    = [ x00; x01; x02; x03; x04 ] /\
    List.length (data create) = 92%nat.
Proof.
  do 8 eexists. vm_compute. repeat split; reflexivity.
Qed.


(* ================================================================= *)
(** ** Byte strings and numbers *)

Lemma Z_of_byte_of_Z (z : Z) : Z_of_byte (byte_of_Z z) = z mod 256.
Proof.
  unfold Z_of_byte, byte_of_Z.
  pose proof (Z.mod_pos_bound z 256 ltac:(lia)) as Hr.
  destruct (Byte.of_N (Z.to_N (z mod 256))) as [b|] eqn:E.
  - apply Byte.to_of_N in E. rewrite E. lia.
  - apply Byte.of_N_None_iff in E. lia.
Qed.

Lemma byte_of_Z_of_byte (b : byte) : byte_of_Z (Z_of_byte b) = b.
Proof.
  unfold byte_of_Z. pose proof (Z_of_byte_range b) as Hr.
  rewrite Z.mod_small by lia. unfold Z_of_byte. rewrite N2Z.id.
  rewrite Byte.of_to_N. reflexivity.
Qed.

Lemma Z_to_le_length (len : nat) (z : Z) : List.length (Z_to_le len z) = len.
Proof.
  revert z. induction len as [|n IH]; intros z; cbn [Z_to_le List.length];
    [reflexivity | rewrite IH; reflexivity].
Qed.

Lemma le_to_Z_to_le (len : nat) (z : Z) :
  le_to_Z (Z_to_le len z) = z mod 256 ^ Z.of_nat len.
Proof.
  revert z. induction len as [|n IH]; intros z.
  - cbn. rewrite Z.mod_1_r. reflexivity.
  - cbn [Z_to_le le_to_Z]. rewrite IH, Z_of_byte_of_Z.
    rewrite Nat2Z.inj_succ, Z.pow_succ_r by lia.
    rewrite Z.rem_mul_r by lia. lia.
Qed.

Lemma Z_to_le_to_Z (bs : list byte) : Z_to_le (List.length bs) (le_to_Z bs) = bs.
Proof.
  induction bs as [|b rest IH]; [reflexivity|].
  cbn [List.length Z_to_le le_to_Z].
  pose proof (Z_of_byte_range b) as Hb.
  f_equal.
  - rewrite <- (byte_of_Z_of_byte b) at 2. unfold byte_of_Z.
    replace ((Z_of_byte b + 256 * le_to_Z rest) mod 256) with (Z_of_byte b mod 256);
      [reflexivity|].
    rewrite (Z.mul_comm 256), Z.mod_add by lia. reflexivity.
  - replace ((Z_of_byte b + 256 * le_to_Z rest) / 256) with (le_to_Z rest);
      [exact IH|].
    rewrite (Z.mul_comm 256), Z.div_add by lia.
    rewrite Z.div_small by lia. lia.
Qed.

Lemma toBuffer_length (k : PublicKey) : List.length (PublicKey_.toBuffer k) = 32%nat.
Proof.
  unfold PublicKey_.toBuffer, Z_to_be. rewrite length_rev. apply Z_to_le_length.
Qed.

Lemma be_to_Z_toBuffer (k : PublicKey) :
  0 <= k < 2 ^ 256 -> be_to_Z (PublicKey_.toBuffer k) = k.
Proof.
  intros Hk. unfold be_to_Z, PublicKey_.toBuffer, Z_to_be.
  rewrite rev_involutive, le_to_Z_to_le.
  change (256 ^ Z.of_nat 32) with (2 ^ 256). apply Z.mod_small. exact Hk.
Qed.

Lemma toBuffer_be_to_Z (bs : list byte) :
  List.length bs = 32%nat -> PublicKey_.toBuffer (be_to_Z bs) = bs.
Proof.
  intros Hl. unfold be_to_Z, PublicKey_.toBuffer, Z_to_be.
  rewrite <- Hl, <- (length_rev bs), Z_to_le_to_Z. apply rev_involutive.
Qed.

Lemma be_to_Z_range (bs : list byte) :
  0 <= be_to_Z bs < 256 ^ Z.of_nat (List.length bs).
Proof.
  unfold be_to_Z. rewrite <- (length_rev bs). apply le_to_Z_range.
Qed.

Lemma le_to_Z_to_le_8 (z : Z) : 0 <= z < 2 ^ 64 -> le_to_Z (Z_to_le 8 z) = z.
Proof.
  intros Hz. rewrite le_to_Z_to_le. change (256 ^ Z.of_nat 8) with (2 ^ 64).
  apply Z.mod_small. exact Hz.
Qed.

(** Slices of a buffer given as a concatenation. *)
Lemma slice_skip (pre rest : list byte) (start stop : nat) :
  (List.length pre <= start)%nat ->
  Buffer.slice (pre ++ rest) start stop =
  Buffer.slice rest (start - List.length pre) (stop - List.length pre).
Proof.
  intros Hs. unfold Buffer.slice.
  rewrite skipn_app. rewrite (skipn_all2 pre) by lia. cbn [app].
  f_equal. lia.
Qed.

Lemma slice_take (field rest : list byte) (stop : nat) :
  List.length field = stop ->
  Buffer.slice (field ++ rest) 0 stop = field.
Proof.
  intros Hl. unfold Buffer.slice. cbn [skipn]. rewrite Nat.sub_0_r.
  rewrite firstn_app, <- Hl, firstn_all, Nat.sub_diag. cbn [firstn].
  apply app_nil_r.
Qed.

Lemma nth_error_skip (pre rest : list byte) (n : nat) :
  (List.length pre <= n)%nat ->
  nth_error (pre ++ rest) n = nth_error rest (n - List.length pre).
Proof.
  intros Hn. apply nth_error_app2. exact Hn.
Qed.

Ltac field_lengths :=
  rewrite ?length_app, ?toBuffer_length, ?Z_to_le_length; cbn [List.length].

Ltac peel_slices :=
  repeat first
    [ rewrite slice_take by (field_lengths; reflexivity)
    | rewrite slice_skip by (field_lengths; lia);
      rewrite ?toBuffer_length, ?Z_to_le_length; cbn [List.length Nat.sub] ].

Ltac peel_nth :=
  repeat (rewrite nth_error_skip by (field_lengths; lia);
          rewrite ?toBuffer_length, ?Z_to_le_length; cbn [List.length Nat.sub]).

(* ================================================================= *)
(** ** The layout the decoder reads *)

(** X1.  A buffer made of an eight-byte tag, the six identities on 32
    bytes each (big-endian), the stake on 8 bytes and the payout fraction
    on 2 (little-endian), the state byte, the expiry time and the nonce on
    8 bytes each and the two bump bytes decodes to exactly these fields,
    whatever follows the last byte. *)
Theorem deserializeGameAccount_layout
    (tag trailing : list byte) (g : GameAccount.t) :
  List.length tag = 8%nat ->
  fits_layout g ->
  deserializeGameAccount
    (tag
     ++ PublicKey_.toBuffer (GameAccount.creator g)
     ++ PublicKey_.toBuffer (GameAccount.player1 g)
     ++ PublicKey_.toBuffer (GameAccount.player2 g)
     ++ PublicKey_.toBuffer (GameAccount.resolver g)
     ++ PublicKey_.toBuffer (GameAccount.devWallet g)
     ++ PublicKey_.toBuffer (GameAccount.mint g)
     ++ Z_to_le 8 (GameAccount.wager g)
     ++ Z_to_le 2 (GameAccount.payoutBps g)
     ++ [byte_of_Z (GameAccount.state g)]
     ++ Z_to_le 8 (GameAccount.expiryTs g)
     ++ Z_to_le 8 (GameAccount.nonce g)
     ++ [byte_of_Z (GameAccount.bump g)]
     ++ [byte_of_Z (GameAccount.vaultBump g)]
     ++ trailing)
  = Ok g.
Proof.
  intros Ht F. destruct g as [c p1 p2 r d m w bps st ex n b vb].
  unfold fits_layout in F. cbn [GameAccount.creator GameAccount.player1
    GameAccount.player2 GameAccount.resolver GameAccount.devWallet GameAccount.mint
    GameAccount.wager GameAccount.payoutBps GameAccount.state GameAccount.expiryTs
    GameAccount.nonce GameAccount.bump GameAccount.vaultBump] in *.
  destruct F as (Hc & Hp1 & Hp2 & Hr & Hd & Hm & Hw & Hbps & Hst & Hex & Hn & Hb & Hvb).
  match goal with |- deserializeGameAccount ?data = _ => set (buffer := data) end.
  assert (Hlen : (229 <= List.length buffer)%nat).
  { subst buffer. field_lengths. rewrite Ht. lia. }
  destruct (deserializeGameAccount_long buffer Hlen)
    as (s & bb & v & Hs & Hbb & Hv & E).
  rewrite E. clear E Hlen.
  unfold decoded. subst buffer.
  rewrite nth_error_skip in Hs, Hbb, Hv by (rewrite Ht; lia).
  rewrite Ht in Hs, Hbb, Hv. cbn [Nat.sub] in Hs, Hbb, Hv.
  rewrite slice_skip by (rewrite Ht; lia). rewrite Ht. cbn [Nat.sub].
  repeat (rewrite (slice_skip tag) by (rewrite Ht; lia); rewrite Ht; cbn [Nat.sub]).
  revert Hs Hbb Hv. peel_nth. cbn [nth_error]. intros Hs Hbb Hv.
  injection Hs as <-. injection Hbb as <-. injection Hv as <-.
  peel_slices.
  rewrite !be_to_Z_toBuffer by assumption.
  rewrite !le_to_Z_to_le_8 by assumption.
  rewrite le_to_Z_to_le. change (256 ^ Z.of_nat 2) with 65536.
  rewrite !Z_of_byte_of_Z.
  rewrite !Z.mod_small by lia. reflexivity.
Qed.

Lemma deserializeGameAccount_layout_open_game :
  List.length Example.tag = 8%nat /\
  fits_layout Example.open_game /\
  deserializeGameAccount
    (Example.tag
     ++ PublicKey_.toBuffer (GameAccount.creator Example.open_game)
     ++ PublicKey_.toBuffer (GameAccount.player1 Example.open_game)
     ++ PublicKey_.toBuffer (GameAccount.player2 Example.open_game)
     ++ PublicKey_.toBuffer (GameAccount.resolver Example.open_game)
     ++ PublicKey_.toBuffer (GameAccount.devWallet Example.open_game)
     ++ PublicKey_.toBuffer (GameAccount.mint Example.open_game)
     ++ Z_to_le 8 (GameAccount.wager Example.open_game)
     ++ Z_to_le 2 (GameAccount.payoutBps Example.open_game)
     ++ [byte_of_Z (GameAccount.state Example.open_game)]
     ++ Z_to_le 8 (GameAccount.expiryTs Example.open_game)
     ++ Z_to_le 8 (GameAccount.nonce Example.open_game)
     ++ [byte_of_Z (GameAccount.bump Example.open_game)]
     ++ [byte_of_Z (GameAccount.vaultBump Example.open_game)]
     ++ [])
  = Ok Example.open_game.
Proof.
  assert (F : fits_layout Example.open_game)
    by (unfold fits_layout; repeat split; vm_compute; (reflexivity || discriminate)).
  split; [reflexivity|]. split; [exact F|].
  exact (deserializeGameAccount_layout Example.tag [] Example.open_game eq_refl F).
Defined.

Lemma slice_exact_length (data : list byte) (start stop : nat) :
  (start <= stop)%nat -> (stop <= List.length data)%nat ->
  List.length (Buffer.slice data start stop) = (stop - start)%nat.
Proof.
  intros H1 H2. unfold Buffer.slice. rewrite length_firstn, length_skipn. lia.
Qed.

Lemma firstn_plus (l : list byte) (n m : nat) :
  firstn (n + m) l = firstn n l ++ firstn m (skipn n l).
Proof.
  revert l. induction n as [|n IH]; intros l; [reflexivity|].
  destruct l as [|x rest]; cbn [Nat.add firstn skipn app].
  - rewrite firstn_nil. reflexivity.
  - rewrite IH. reflexivity.
Qed.

Lemma slice_append (data : list byte) (a b c : nat) :
  (a <= b)%nat -> (b <= c)%nat ->
  Buffer.slice data a b ++ Buffer.slice data b c = Buffer.slice data a c.
Proof.
  intros Hab Hbc. unfold Buffer.slice.
  replace (c - a)%nat with ((b - a) + (c - b))%nat by lia.
  rewrite firstn_plus. f_equal. rewrite skipn_skipn.
  replace (b - a + a)%nat with b by lia. reflexivity.
Qed.

Lemma slice_one (data : list byte) (n : nat) (b : byte) :
  nth_error data n = Some b -> Buffer.slice data n (S n) = [b].
Proof.
  intros H. unfold Buffer.slice. replace (S n - n)%nat with 1%nat by lia.
  rewrite <- hd_error_skipn in H.
  destruct (skipn n data) as [|x rest]; cbn in H |- *; congruence.
Qed.

(** X2.  Whatever buffer the decoder accepts, the record it returns holds
    values its fields can carry (identities below 2^256, amounts, times
    and nonces below 2^64, the payout fraction below 2^16, single bytes
    below 256), and writing these fields out again gives back bytes 8 to
    228 of the buffer: nothing is lost and nothing is normalised, the
    state byte included, which is not checked against the five states. *)
Theorem deserializeGameAccount_faithful (data : list byte) (g : GameAccount.t) :
  deserializeGameAccount data = Ok g ->
  fits_layout g /\
  Buffer.slice data 8 229 =
    PublicKey_.toBuffer (GameAccount.creator g)
    ++ PublicKey_.toBuffer (GameAccount.player1 g)
    ++ PublicKey_.toBuffer (GameAccount.player2 g)
    ++ PublicKey_.toBuffer (GameAccount.resolver g)
    ++ PublicKey_.toBuffer (GameAccount.devWallet g)
    ++ PublicKey_.toBuffer (GameAccount.mint g)
    ++ Z_to_le 8 (GameAccount.wager g)
    ++ Z_to_le 2 (GameAccount.payoutBps g)
    ++ [byte_of_Z (GameAccount.state g)]
    ++ Z_to_le 8 (GameAccount.expiryTs g)
    ++ Z_to_le 8 (GameAccount.nonce g)
    ++ [byte_of_Z (GameAccount.bump g)]
    ++ [byte_of_Z (GameAccount.vaultBump g)].
Proof.
  intros E.
  destruct (Nat.lt_ge_cases (List.length data) 229) as [Hshort|Hlong].
  { rewrite deserializeGameAccount_short in E by assumption. discriminate E. }
  destruct (deserializeGameAccount_long data Hlong) as (s & b & v & Hs & Hb & Hv & E').
  rewrite E' in E. injection E as <-.
  unfold decoded, fits_layout.
  cbn [GameAccount.creator GameAccount.player1
    GameAccount.player2 GameAccount.resolver GameAccount.devWallet GameAccount.mint
    GameAccount.wager GameAccount.payoutBps GameAccount.state GameAccount.expiryTs
    GameAccount.nonce GameAccount.bump GameAccount.vaultBump].
  assert (K : forall a, (a + 32 <= 229)%nat ->
                0 <= be_to_Z (Buffer.slice data a (a + 32)) < 2 ^ 256 /\
                PublicKey_.toBuffer (be_to_Z (Buffer.slice data a (a + 32)))
                = Buffer.slice data a (a + 32)).
  { intros a Ha.
    assert (L : List.length (Buffer.slice data a (a + 32)) = 32%nat)
      by (rewrite slice_exact_length; lia).
    split.
    - pose proof (be_to_Z_range (Buffer.slice data a (a + 32))) as R.
      rewrite L in R. exact R.
    - apply toBuffer_be_to_Z. exact L. }
  assert (W : forall a n, (a + n <= 229)%nat ->
                0 <= le_to_Z (Buffer.slice data a (a + n)) < 256 ^ Z.of_nat n /\
                Z_to_le n (le_to_Z (Buffer.slice data a (a + n)))
                = Buffer.slice data a (a + n)).
  { intros a n Ha.
    assert (L : List.length (Buffer.slice data a (a + n)) = n)
      by (rewrite slice_exact_length; lia).
    split.
    - pose proof (le_to_Z_range (Buffer.slice data a (a + n))) as R.
      rewrite L in R. exact R.
    - rewrite <- L at 1. apply Z_to_le_to_Z. }
  destruct (K 8%nat ltac:(lia)) as [R1 B1]. destruct (K 40%nat ltac:(lia)) as [R2 B2].
  destruct (K 72%nat ltac:(lia)) as [R3 B3]. destruct (K 104%nat ltac:(lia)) as [R4 B4].
  destruct (K 136%nat ltac:(lia)) as [R5 B5]. destruct (K 168%nat ltac:(lia)) as [R6 B6].
  destruct (W 200%nat 8%nat ltac:(lia)) as [R7 B7].
  destruct (W 208%nat 2%nat ltac:(lia)) as [R8 B8].
  destruct (W 211%nat 8%nat ltac:(lia)) as [R9 B9].
  destruct (W 219%nat 8%nat ltac:(lia)) as [R10 B10].
  cbn [Nat.add] in *.
  change (256 ^ Z.of_nat 8) with (2 ^ 64) in *.
  change (256 ^ Z.of_nat 2) with 65536 in *.
  pose proof (Z_of_byte_range s). pose proof (Z_of_byte_range b).
  pose proof (Z_of_byte_range v).
  split; [repeat split; lia|].
  rewrite B1, B2, B3, B4, B5, B6, B7, B8, B9, B10.
  rewrite !byte_of_Z_of_byte.
  rewrite <- (slice_one data 210 s Hs), <- (slice_one data 227 b Hb),
    <- (slice_one data 228 v Hv).
  rewrite !slice_append by lia. reflexivity.
Qed.

Lemma deserializeGameAccount_faithful_open_game :
  deserializeGameAccount (serializeGameAccount Example.tag Example.open_game)
    = Ok Example.open_game /\
  fits_layout Example.open_game.
Proof.
  assert (E : deserializeGameAccount (serializeGameAccount Example.tag Example.open_game)
              = Ok Example.open_game) by (vm_compute; reflexivity).
  split; [exact E|].
  exact (proj1 (deserializeGameAccount_faithful _ _ E)).
Defined.

(* ================================================================= *)
(** ** Base-58 text *)

Section Positional.
Variable base : Z.
Hypothesis base_gt_1 : 1 < base.

Lemma digits_le_range (fuel : nat) (n : Z) :
  0 <= n -> Forall (fun d => 0 <= d < base) (Bs58.digits_le base fuel n).
Proof.
  revert n. induction fuel as [|f IH]; intros n Hn; cbn [Bs58.digits_le];
    [constructor|].
  destruct (n =? 0); constructor.
  - apply Z.mod_pos_bound. lia.
  - apply IH. apply Z.div_pos; lia.
Qed.

Lemma digits_le_value (fuel : nat) (n : Z) :
  0 <= n < 2 ^ Z.of_nat fuel ->
  value_le base (Bs58.digits_le base fuel n) = n.
Proof.
  revert n. induction fuel as [|f IH]; intros n Hn; cbn [Bs58.digits_le].
  - cbn in Hn. cbn. lia.
  - destruct (Z.eqb_spec n 0) as [->|Hnz]; [reflexivity|].
    cbn [value_le]. rewrite IH.
    + pose proof (Z.div_mod n base ltac:(lia)). lia.
    + rewrite Nat2Z.inj_succ, Z.pow_succ_r in Hn by lia.
      split; [apply Z.div_pos; lia|].
      apply Z.div_lt_upper_bound; [lia|].
      assert (0 < 2 ^ Z.of_nat f) by (apply Z.pow_pos_nonneg; lia). nia.
Qed.

Lemma digits_le_nil (fuel : nat) (n : Z) :
  0 <= n < 2 ^ Z.of_nat fuel -> Bs58.digits_le base fuel n = [] -> n = 0.
Proof.
  destruct fuel as [|f]; cbn [Bs58.digits_le]; intros Hn E.
  - cbn in Hn. lia.
  - destruct (Z.eqb_spec n 0); [assumption | discriminate E].
Qed.

Lemma digits_le_last (fuel : nat) (n : Z) :
  0 <= n < 2 ^ Z.of_nat fuel -> last (Bs58.digits_le base fuel n) 1 <> 0.
Proof.
  revert n. induction fuel as [|f IH]; intros n Hn; cbn [Bs58.digits_le].
  - cbn. lia.
  - destruct (Z.eqb_spec n 0) as [->|Hnz]; [cbn; lia|].
    assert (Hq : 0 <= n / base < 2 ^ Z.of_nat f).
    { rewrite Nat2Z.inj_succ, Z.pow_succ_r in Hn by lia.
      split; [apply Z.div_pos; lia|].
      apply Z.div_lt_upper_bound; [lia|].
      assert (0 < 2 ^ Z.of_nat f) by (apply Z.pow_pos_nonneg; lia). nia. }
    destruct (Bs58.digits_le base f (n / base)) as [|d tl] eqn:E.
    + cbn [last]. apply digits_le_nil in E; [|exact Hq].
      apply Z.div_small_iff in E; [|lia].
      rewrite Z.mod_small by lia. exact Hnz.
    + specialize (IH (n / base) Hq). rewrite E in IH. exact IH.
Qed.

Lemma value_le_nonneg (ds : list Z) :
  Forall (fun d => 0 <= d < base) ds -> 0 <= value_le base ds.
Proof.
  induction 1 as [|d rest Hd _ IH]; cbn [value_le]; [lia | nia].
Qed.

Lemma value_le_lower (ds : list Z) :
  Forall (fun d => 0 <= d < base) ds -> ds <> [] -> last ds 1 <> 0 ->
  base ^ (Z.of_nat (List.length ds) - 1) <= value_le base ds.
Proof.
  induction 1 as [|d rest Hd F IH]; intros Hne Hl; [contradiction|].
  cbn [value_le List.length]. destruct rest as [|d' rest'].
  - cbn in Hl |- *. lia.
  - specialize (IH ltac:(discriminate) Hl).
    replace (Z.of_nat (S (List.length (d' :: rest'))) - 1)
      with (Z.succ (Z.of_nat (List.length (d' :: rest')) - 1)) by lia.
    rewrite Z.pow_succ_r by (cbn [List.length]; lia). nia.
Qed.

Lemma value_le_digits (ds : list Z) (fuel : nat) :
  Forall (fun d => 0 <= d < base) ds -> last ds 1 <> 0 ->
  (List.length ds <= fuel)%nat ->
  Bs58.digits_le base fuel (value_le base ds) = ds.
Proof.
  revert fuel. induction ds as [|d rest IH]; intros fuel F Hl Hlen.
  - destruct fuel; reflexivity.
  - destruct fuel as [|f]; [cbn in Hlen; lia|].
    inversion F as [|? ? Hd F']; subst.
    assert (Hpos : 0 < value_le base (d :: rest)).
    { destruct rest as [|d' rest'].
      - cbn in Hl |- *. lia.
      - pose proof (value_le_lower (d' :: rest') F' ltac:(discriminate) Hl) as Hlow.
        assert (0 < base ^ (Z.of_nat (List.length (d' :: rest')) - 1))
          by (apply Z.pow_pos_nonneg; cbn [List.length]; lia).
        cbn [value_le] in Hlow |- *. nia. }
    cbn [Bs58.digits_le].
    destruct (Z.eqb_spec (value_le base (d :: rest)) 0) as [E|_]; [lia|].
    cbn [value_le].
    assert (Hm : (d + base * value_le base rest) mod base = d).
    { rewrite (Z.mul_comm base), Z.mod_add by lia. apply Z.mod_small. exact Hd. }
    assert (Hq : (d + base * value_le base rest) / base = value_le base rest).
    { rewrite (Z.mul_comm base), Z.div_add by lia.
      rewrite Z.div_small by exact Hd. lia. }
    rewrite Hm, Hq. f_equal. apply IH; [exact F' | | cbn in Hlen; lia].
    destruct rest; [cbn; lia | exact Hl].
Qed.

Lemma value_le_app (xs ys : list Z) :
  value_le base (xs ++ ys)
  = value_le base xs + base ^ Z.of_nat (List.length xs) * value_le base ys.
Proof.
  induction xs as [|x xs IH]; cbn [app value_le List.length].
  - change (Z.of_nat 0) with 0. rewrite Z.pow_0_r. lia.
  - rewrite IH, Nat2Z.inj_succ, Z.pow_succ_r by lia. ring.
Qed.

Lemma fold_left_value (ds : list Z) (acc : Z) :
  fold_left (fun a d => a * base + d) ds acc
  = acc * base ^ Z.of_nat (List.length ds) + value_le base (rev ds).
Proof.
  revert acc. induction ds as [|d ds IH]; intros acc; cbn [fold_left rev List.length].
  - change (Z.of_nat 0) with 0. rewrite Z.pow_0_r. cbn [value_le]. lia.
  - rewrite IH, value_le_app, length_rev, Nat2Z.inj_succ, Z.pow_succ_r by lia.
    cbn [value_le]. ring.
Qed.

End Positional.

Lemma le_to_Z_value (bs : list byte) :
  le_to_Z bs = value_le 256 (map Z_of_byte bs).
Proof.
  induction bs as [|b rest IH]; cbn [le_to_Z map value_le]; [reflexivity|].
  rewrite IH. reflexivity.
Qed.

Lemma digit_of_char_of (d : Z) :
  0 <= d < 58 -> Bs58.digit_of (Bs58.char_of d) = Some d.
Proof.
  intros Hd. rewrite <- (Z2Nat.id d) by lia.
  assert (Hn : (Z.to_nat d < 58)%nat) by lia. revert Hn.
  generalize (Z.to_nat d). intros n Hn.
  do 58 (destruct n as [|n]; [reflexivity|]). lia.
Qed.

Lemma char_of_not_one (d : Z) :
  0 < d < 58 -> Ascii.eqb (Bs58.char_of d) "1" = false.
Proof.
  intros Hd. rewrite <- (Z2Nat.id d) by lia.
  assert (Hn : (0 < Z.to_nat d < 58)%nat) by lia. revert Hn.
  generalize (Z.to_nat d). intros n Hn.
  destruct n as [|n]; [lia|].
  do 57 (destruct n as [|n]; [reflexivity|]). lia.
Qed.

Lemma value_of_digits (ds : list Z) (acc : Z) :
  Forall (fun d => 0 <= d < 58) ds ->
  Bs58.value (string_of_list_ascii (map Bs58.char_of ds)) acc
  = Some (fold_left (fun a d => a * 58 + d) ds acc).
Proof.
  intros F. revert acc.
  induction F as [|d rest Hd _ IH]; intros acc;
    cbn [map string_of_list_ascii Bs58.value fold_left]; [reflexivity|].
  rewrite digit_of_char_of by exact Hd. apply IH.
Qed.

Lemma value_ones (n : nat) (s : string) :
  Bs58.value (append (Bs58.ones n) s) 0 = Bs58.value s 0.
Proof.
  induction n as [|n IH]; cbn [Bs58.ones append]; [reflexivity|].
  cbn [Bs58.value]. change (Bs58.digit_of "1") with (Some 0).
  cbn [Z.mul Z.add]. exact IH.
Qed.

Lemma leading_ones_ones (n : nat) (s : string) :
  Bs58.leading_ones (append (Bs58.ones n) s) = (n + Bs58.leading_ones s)%nat.
Proof.
  induction n as [|n IH]; cbn [Bs58.ones append]; [reflexivity|].
  cbn [Bs58.leading_ones Ascii.eqb Bool.eqb andb Nat.add]. rewrite IH. reflexivity.
Qed.

Lemma rev_nonempty (ds : list Z) :
  ds <> [] -> rev ds = last ds 1 :: rev (removelast ds).
Proof.
  intros Hne. rewrite (app_removelast_last 1 Hne) at 1.
  rewrite rev_app_distr. reflexivity.
Qed.

Lemma leading_ones_digits (ds : list Z) :
  Forall (fun d => 0 <= d < 58) ds -> last ds 1 <> 0 ->
  Bs58.leading_ones (string_of_list_ascii (map Bs58.char_of (rev ds))) = O.
Proof.
  intros F Hl. destruct (list_eq_dec Z.eq_dec ds []) as [->|Hne]; [reflexivity|].
  rewrite rev_nonempty by exact Hne.
  cbn [map string_of_list_ascii Bs58.leading_ones].
  assert (Hr : 0 <= last ds 1 < 58).
  { rewrite Forall_forall in F. apply F.
    pose proof (app_removelast_last 1 Hne) as A.
    assert (Hin : In (last ds 1) (removelast ds ++ [last ds 1]))
      by (apply in_or_app; right; left; reflexivity).
    rewrite <- A in Hin. exact Hin. }
  rewrite char_of_not_one by lia. reflexivity.
Qed.

Lemma digits_fuel (n : Z) :
  0 <= n -> n < 2 ^ Z.of_nat (S (Z.to_nat (Z.log2 n))).
Proof.
  intros Hn. rewrite Nat2Z.inj_succ. rewrite Z2Nat.id by apply Z.log2_nonneg.
  destruct (Z.eq_dec n 0) as [->|Hnz]; [reflexivity|].
  apply Z.log2_spec. lia.
Qed.

Lemma value_encode (data : list byte) :
  Bs58.value (Bs58.encode data) 0 = Some (be_to_Z data).
Proof.
  unfold Bs58.encode, Bs58.digits. rewrite value_ones.
  pose proof (be_to_Z_range data) as [Hv _].
  rewrite value_of_digits
    by (apply Forall_rev, digits_le_range; lia).
  rewrite (fold_left_value 58), rev_involutive.
  rewrite (digits_le_value 58 ltac:(lia))
    by (split; [lia | apply digits_fuel; lia]).
  reflexivity.
Qed.

Lemma leading_ones_encode (data : list byte) :
  Bs58.leading_ones (Bs58.encode data) = Bs58.leading_zeros data.
Proof.
  unfold Bs58.encode, Bs58.digits. rewrite leading_ones_ones.
  pose proof (be_to_Z_range data) as [Hv _].
  rewrite leading_ones_digits.
  - lia.
  - apply digits_le_range; lia.
  - apply digits_le_last; [lia|]. split; [lia | apply digits_fuel; lia].
Qed.

Lemma Z_of_byte_zero (b : byte) : Z_of_byte b = 0 -> b = x00.
Proof.
  intros H. rewrite <- (byte_of_Z_of_byte b), H. reflexivity.
Qed.

Lemma leading_zeros_split (data : list byte) :
  data = repeat x00 (Bs58.leading_zeros data) ++ skipn (Bs58.leading_zeros data) data /\
  hd x01 (skipn (Bs58.leading_zeros data) data) <> x00.
Proof.
  induction data as [|b rest [IH1 IH2]]; cbn [Bs58.leading_zeros].
  - split; [reflexivity | discriminate].
  - destruct (Byte.eqb b x00) eqn:E.
    + apply Byte.byte_dec_bl in E. subst b. cbn [repeat skipn app].
      split; [f_equal; exact IH1 | exact IH2].
    + cbn [repeat skipn app hd]. split; [reflexivity|].
      intros ->. discriminate E.
Qed.

Lemma be_to_Z_zeros (n : nat) (data : list byte) :
  be_to_Z (repeat x00 n ++ data) = be_to_Z data.
Proof.
  unfold be_to_Z. rewrite rev_app_distr, !le_to_Z_value, map_app, value_le_app.
  assert (Z0 : value_le 256 (map Z_of_byte (rev (repeat x00 n))) = 0).
  { rewrite rev_repeat. induction n as [|n IH]; [reflexivity|].
    cbn [repeat map value_le]. rewrite IH. reflexivity. }
  rewrite Z0. lia.
Qed.

Lemma bytes_of_value (data : list byte) :
  hd x01 data <> x00 ->
  map byte_of_Z (Bs58.digits 256 (be_to_Z data)) = data.
Proof.
  intros Hhd. unfold Bs58.digits, be_to_Z. rewrite le_to_Z_value.
  set (ds := map Z_of_byte (rev data)).
  assert (F : Forall (fun d => 0 <= d < 256) ds).
  { apply Forall_forall. intros d Hd. apply in_map_iff in Hd.
    destruct Hd as (b & <- & _). apply Z_of_byte_range. }
  assert (Hl : last ds 1 <> 0).
  { subst ds. destruct data as [|b rest]; [cbn; lia|].
    cbn [rev]. rewrite map_app. cbn [map]. rewrite last_last.
    intros H. apply Hhd. cbn [hd]. apply Z_of_byte_zero. exact H. }
  rewrite (value_le_digits 256 ltac:(lia) ds _ F Hl).
  - subst ds. rewrite <- map_rev, rev_involutive, map_map.
    rewrite <- (map_id data) at 2. apply map_ext. apply byte_of_Z_of_byte.
  - destruct ds as [|d rest] eqn:E; [cbn; lia|].
    pose proof (value_le_lower 256 ltac:(lia) (d :: rest) F ltac:(discriminate) Hl)
      as Hlow.
    set (m := Z.of_nat (List.length (d :: rest)) - 1) in *.
    assert (Hm : 0 <= m) by (subst m; cbn [List.length]; lia).
    assert (H2 : 2 ^ m <= 256 ^ m) by (apply Z.pow_le_mono_l; lia).
    assert (Hpos : 0 < value_le 256 (d :: rest))
      by (assert (0 < 2 ^ m) by (apply Z.pow_pos_nonneg; lia); lia).
    assert (m <= Z.log2 (value_le 256 (d :: rest)))
      by (apply Z.log2_le_pow2; lia).
    subst m. lia.
Qed.

Lemma decode_encode (data : list byte) :
  Bs58.decode (Bs58.encode data) = Some data.
Proof.
  unfold Bs58.decode. rewrite value_encode, leading_ones_encode.
  destruct (leading_zeros_split data) as [Hsplit Hhd].
  rewrite Hsplit at 2. rewrite be_to_Z_zeros, bytes_of_value by exact Hhd.
  rewrite <- Hsplit. reflexivity.
Qed.

Lemma decode_toBase58 (k : PublicKey) :
  Bs58.decode (PublicKey_.toBase58 k) = Some (PublicKey_.toBuffer k).
Proof. apply decode_encode. Qed.

Lemma base64_of_one_byte_is_not_base58 (b : byte) :
  Bs58.decode (Buffer.toString_base64 [b]) = None.
Proof. destruct b; reflexivity. Qed.

(* ================================================================= *)
(** ** The queries *)

Lemma bytes_eqb_true (a b : list byte) : bytes_eqb a b = true <-> a = b.
Proof.
  unfold bytes_eqb. destruct (list_eq_dec Byte.byte_eq_dec a b); split;
    intros H; congruence.
Qed.

Lemma In_decode_all (accounts : list (PublicKey * AccountInfo)) (g : GameAccount.t) :
  In g (decode_all accounts) <->
  exists a, In a accounts /\ deserializeGameAccount (account_data (snd a)) = Ok g.
Proof.
  induction accounts as [|a rest IH]; cbn [decode_all].
  - split; [intros [] | intros (a & [] & _)].
  - destruct (deserializeGameAccount (account_data (snd a))) as [g0|e] eqn:E.
    + cbn [In]. rewrite IH. split.
      * intros [<-|(b & Hb & Eb)]; [exists a | exists b]; split; auto; now left + right.
      * intros (b & [<-|Hb] & Eb); [left; congruence | right; exists b; auto].
    + rewrite IH. split.
      * intros (b & Hb & Eb). exists b. split; [right; exact Hb | exact Eb].
      * intros (b & [<-|Hb] & Eb); [congruence | exists b; auto].
Qed.

Lemma getProgramAccounts_one
    (connection : Ledger) (programId : PublicKey) (f : Memcmp) (bytes : list byte) :
  Bs58.decode (memcmp_bytes f) = Some bytes ->
  exists accounts,
    getProgramAccounts connection programId [f] = Ok accounts /\
    forall a,
      In a accounts <->
      In a connection /\ owner (snd a) = programId /\
      memcmp_matches (account_data (snd a)) (memcmp_offset f) bytes = true.
Proof.
  intros E. unfold getProgramAccounts. cbn [decode_filters]. rewrite E.
  eexists. split; [reflexivity|]. intros a.
  rewrite filter_In. cbn [forallb fst snd].
  rewrite andb_true_iff, andb_true_r, Z.eqb_eq. tauto.
Qed.

Lemma getProgramAccounts_refused
    (connection : Ledger) (programId : PublicKey) (f : Memcmp) :
  Bs58.decode (memcmp_bytes f) = None ->
  getProgramAccounts connection programId [f] = Err SolanaJSONRPCError.
Proof.
  intros E. unfold getProgramAccounts. cbn [decode_filters]. rewrite E. reflexivity.
Qed.

Lemma nth_error_slice (data : list byte) (start stop i : nat) :
  (i < stop - start)%nat ->
  nth_error (Buffer.slice data start stop) i = nth_error data (start + i).
Proof.
  intros Hi. unfold Buffer.slice.
  rewrite nth_error_firstn.
  destruct (Nat.ltb_spec i (stop - start)); [|lia].
  apply nth_error_skipn.
Qed.

(** X3.  [getGamesByCreator] returns exactly the records of the creator:
    the base-58 text of the creator is a filter the node accepts, and a
    game is in the answer if and only if some account owned by the
    program decodes to it and its creator field is the one asked for.
    Accounts that do not decode are skipped, not reported. *)
Theorem getGamesByCreator_exact
    (this : WagerClient) (connection : Ledger) (creator : PublicKey) :
  0 <= creator < 2 ^ 256 ->
  exists games,
    getGamesByCreator this connection creator = Ok games /\
    forall g,
      In g games <->
      exists address info,
        In (address, info) connection /\
        owner info = client_programId this /\
        deserializeGameAccount (account_data info) = Ok g /\
        GameAccount.creator g = creator.
Proof.
  intros Hc. unfold getGamesByCreator.
  destruct (getProgramAccounts_one connection (client_programId this)
              {| memcmp_offset := 8; memcmp_bytes := PublicKey_.toBase58 creator |}
              (PublicKey_.toBuffer creator) (decode_toBase58 creator))
    as (accounts & E & Hin).
  rewrite E. cbn [bind memcmp_offset] in *.
  eexists. split; [reflexivity|]. intros g. rewrite In_decode_all.
  assert (K : forall data, deserializeGameAccount data = Ok g ->
            (memcmp_matches data 8 (PublicKey_.toBuffer creator) = true
             <-> GameAccount.creator g = creator)).
  { intros data Ed.
    unfold memcmp_matches.
    rewrite toBuffer_length, bytes_eqb_true.
    destruct (Nat.lt_ge_cases (List.length data) 229) as [Hshort|Hlong];
      [rewrite deserializeGameAccount_short in Ed by assumption; discriminate Ed|].
    destruct (deserializeGameAccount_long data Hlong) as (s & b & v & _ & _ & _ & E').
    rewrite E' in Ed. injection Ed as <-. cbn [decoded GameAccount.creator].
    change (8 + 32)%nat with 40%nat. split.
    - intros ->. apply be_to_Z_toBuffer. exact Hc.
    - intros <-. symmetry. apply toBuffer_be_to_Z.
      rewrite slice_exact_length; lia. }
  split.
  - intros ([address info] & Ha & Ed). apply Hin in Ha.
    cbn [snd] in *. destruct Ha as (Ha & Ho & Hm).
    exists address, info. repeat split; try assumption.
    apply (K _ Ed). exact Hm.
  - intros (address & info & Ha & Ho & Ed & Hcr).
    exists (address, info). split; [|exact Ed].
    apply Hin. cbn [snd]. repeat split; try assumption.
    apply (K _ Ed). exact Hcr.
Qed.

Lemma getGamesByCreator_exact_alice :
  0 <= Example.alice < 2 ^ 256 /\
  exists games,
    getGamesByCreator Example.client (Example.ledger_with Example.open_game)
      Example.alice = Ok games /\
    In Example.open_game games.
Proof.
  assert (H : 0 <= Example.alice < 2 ^ 256)
    by (split; vm_compute; (reflexivity || discriminate)).
  split; [exact H|].
  destruct (getGamesByCreator_exact Example.client
              (Example.ledger_with Example.open_game) Example.alice H)
    as (games & E & Hin).
  exists games. split; [exact E|]. apply Hin.
  exists Example.game_pda,
    {| owner := WAGER_PROGRAM_ID;
       account_data := serializeGameAccount Example.tag Example.open_game |}.
  split; [left; reflexivity|]. split; [reflexivity|].
  split; [vm_compute; reflexivity | reflexivity].
Defined.

(** X4.  [getGamesByState] answers no query: whatever the state asked for
    and whatever the ledger holds, the node refuses the request.  The
    filter carries the state byte as base-64 text; the base-64 text of a
    single byte, whatever the byte, ends in [=] and is no base-58 text,
    which is how the node reads a filter that names no encoding.
    [getOpenGames] and [getReadyGames] fail in the same way. *)
Theorem getGamesByState_refused
    (this : WagerClient) (connection : Ledger) (state : GameState) :
  (forall b : byte, Bs58.decode (Buffer.toString_base64 [b]) = None) /\
  getGamesByState this connection state = Err SolanaJSONRPCError /\
  getOpenGames this connection = Err SolanaJSONRPCError /\
  getReadyGames this connection = Err SolanaJSONRPCError.
Proof.
  assert (R : forall s, getGamesByState this connection s = Err SolanaJSONRPCError).
  { intros s. unfold getGamesByState.
    rewrite getProgramAccounts_refused; [reflexivity|].
    apply base64_of_one_byte_is_not_base58. }
  split; [exact base64_of_one_byte_is_not_base58|].
  split; [apply R|]. split; apply R.
Qed.

Lemma getGamesByState_refused_for_open_games :
  getGamesByState Example.client (Example.ledger_with Example.open_game) Open
    = Err SolanaJSONRPCError /\
  getOpenGames Example.client (Example.ledger_with Example.open_game)
    = Err SolanaJSONRPCError.
Proof.
  pose proof (getGamesByState_refused Example.client
                (Example.ledger_with Example.open_game) Open) as (_ & H & Ho & _).
  split; [exact H | exact Ho].
Defined.

(* ================================================================= *)
(** ** The shape of the five instructions *)

Section Shapes.
Context {D : Derivation}.

Lemma createCreateGameInstruction_shape
    (random : float64) (creator : PublicKey) (args : CreateGameArgs.t)
    (programId_ : PublicKey) (ix : TransactionInstruction) (pda : PublicKey)
    (pre : list TransactionInstruction) :
  createCreateGameInstruction random creator args programId_ = Ok (ix, pda, pre) ->
  let nonce := or_default (CreateGameArgs.nonce args) (generateNonce random) in
  0 < CreateGameArgs.payoutBps args < 10000 /\
  Z.abs (CreateGameArgs.wager args) < 2 ^ 64 /\
  Z.abs (CreateGameArgs.expiryTs args) < 2 ^ 64 /\
  Z.abs nonce < 2 ^ 64 /\
  pda = game_address creator nonce programId_ /\
  pre = [] /\
  programId ix = programId_ /\
  caller_then_record ix creator pda /\
  data ix =
    [x00]
    ++ PublicKey_.toBuffer (CreateGameArgs.mint args)
    ++ Z_to_le 8 (Z.abs (CreateGameArgs.wager args))
    ++ [byte_of_Z (Z.land (CreateGameArgs.payoutBps args) 255);
        byte_of_Z (Z.land (Z.shiftr (CreateGameArgs.payoutBps args) 8) 255)]
    ++ Z_to_le 8 (Z.abs (CreateGameArgs.expiryTs args))
    ++ [match CreateGameArgs.resolverPubkey args with
        | Some _ => x01 | None => x00 end]
    ++ (match CreateGameArgs.resolverPubkey args with
        | Some r => PublicKey_.toBuffer r
        | None => Buffer.alloc 32
        end)
    ++ Z_to_le 8 (Z.abs nonce).
Proof.
  intros E nonce.
  assert (Hb : 0 < CreateGameArgs.payoutBps args < 10000).
  { destruct (Z_le_gt_dec (CreateGameArgs.payoutBps args) 0) as [H0|H0];
      [rewrite createCreateGameInstruction_invalid_bps in E by (left; exact H0);
       discriminate E|].
    destruct (Z_le_gt_dec 10000 (CreateGameArgs.payoutBps args)) as [H1|H1];
      [rewrite createCreateGameInstruction_invalid_bps in E by (right; exact H1);
       discriminate E|].
    lia. }
  assert (R : forall a bs, BN.toArrayLike_le a 8 = Ok bs ->
                           Z.abs a < 2 ^ 64 /\ bs = Z_to_le 8 (Z.abs a)).
  { intros a bs. unfold BN.toArrayLike_le. change (256 ^ Z.of_nat 8) with (2 ^ 64).
    destruct (Z.ltb_spec (Z.abs a) (2 ^ 64)); [|discriminate].
    intros H'. injection H' as <-. split; [assumption | reflexivity]. }
  unfold createCreateGameInstruction, validatePayoutBps in E.
  destruct (Z.leb_spec (CreateGameArgs.payoutBps args) 0); [lia|].
  destruct (Z.geb_spec (CreateGameArgs.payoutBps args) 10000); [lia|].
  cbn [orb bind] in E.
  change (match CreateGameArgs.nonce args with
          | Some n => n
          | None => generateNonce random
          end) with nonce in E.
  destruct (deriveGamePDAs creator nonce (CreateGameArgs.mint args) programId_)
    as [pdas|e] eqn:Ed; cbn [bind] in E; [|discriminate E].
  assert (Hn : Z.abs nonce < 2 ^ 64).
  { unfold deriveGamePDAs in Ed.
    destruct (BN.toArrayLike_le nonce 8) as [bs|] eqn:En; [|discriminate Ed].
    apply R in En. tauto. }
  destruct (deriveGamePDAs_ok creator nonce (CreateGameArgs.mint args) programId_ Hn)
    as (pdas' & Ed' & Hg & Hv).
  rewrite Ed in Ed'. injection Ed' as <-.
  rewrite Hv, Hg in E.
  destruct (BN.toArrayLike_le (CreateGameArgs.wager args) 8) as [wb|] eqn:Ew;
    [apply R in Ew; destruct Ew as [Hw ->]
    |destruct (isNativeSOL (CreateGameArgs.mint args)); discriminate E].
  destruct (BN.toArrayLike_le (CreateGameArgs.expiryTs args) 8) as [eb|] eqn:Ee;
    [apply R in Ee; destruct Ee as [He ->]
    |destruct (isNativeSOL (CreateGameArgs.mint args)); discriminate E].
  rewrite toArrayLike_le_8 in E by assumption.
  repeat (split; [assumption|]).
  destruct (isNativeSOL (CreateGameArgs.mint args)); cbn [negb bind] in E;
    injection E as <- <- <-;
    (split; [reflexivity|]); (split; [reflexivity|]); (split; [reflexivity|]);
    (split; [eexists; split; [reflexivity | reflexivity]|]);
    cbn [data]; destruct (CreateGameArgs.resolverPubkey args); reflexivity.
Qed.

End Shapes.

Section MoreShapes.
Context {D : Derivation}.

Lemma createJoinGameInstruction_shape
    (connection : Ledger) (player2 gamePda : PublicKey) (g : GameAccount.t)
    (programId_ : PublicKey) (ix : TransactionInstruction)
    (pre : list TransactionInstruction) :
  createJoinGameInstruction connection player2 gamePda g programId_ = Ok (ix, pre) ->
  programId ix = programId_ /\
  caller_then_record ix player2 gamePda /\
  data ix = [x01].
Proof.
  unfold createJoinGameInstruction.
  destruct (isNativeSOL (GameAccount.mint g)); cbn [negb bind].
  - intros E. injection E as <- <-. split; [reflexivity|].
    split; [eexists; split; reflexivity | reflexivity].
  - destruct (getOrCreateAssociatedTokenAccount connection player2
                (GameAccount.mint g) player2 false) as [[a o]|e]; cbn [bind];
      [|intros E; discriminate E].
    destruct (derived_vault g (GameAccount.mint g) programId_); cbn [bind];
      intros E; try discriminate E; injection E as <- <-;
      (split; [reflexivity|]);
      (split; [eexists; split; reflexivity | reflexivity]).
Qed.

Lemma createResolveGameInstruction_shape
    (connection : Ledger) (resolver gamePda winner : PublicKey) (g : GameAccount.t)
    (programId_ : PublicKey) (ix : TransactionInstruction)
    (pre : list TransactionInstruction) :
  createResolveGameInstruction connection resolver gamePda winner g programId_
    = Ok (ix, pre) ->
  programId ix = programId_ /\
  caller_then_record ix resolver gamePda /\
  data ix = x02 :: PublicKey_.toBuffer winner.
Proof.
  unfold createResolveGameInstruction.
  destruct (isNativeSOL (GameAccount.mint g)); cbn [negb bind].
  - intros E. injection E as <- <-. split; [reflexivity|].
    split; [eexists; split; reflexivity | reflexivity].
  - destruct (getOrCreateAssociatedTokenAccount connection resolver
                (GameAccount.mint g) winner false) as [[a o]|e]; cbn [bind];
      [|intros E; discriminate E].
    destruct (getOrCreateAssociatedTokenAccount connection resolver
                (GameAccount.mint g) (GameAccount.devWallet g) false)
      as [[a' o']|e]; cbn [bind]; [|intros E; discriminate E].
    destruct (derived_vault g (GameAccount.mint g) programId_); cbn [bind];
      intros E; try discriminate E; injection E as <- <-;
      (split; [reflexivity|]);
      (split; [eexists; split; reflexivity | reflexivity]).
Qed.

Lemma createCancelGameInstruction_shape
    (connection : Ledger) (authority gamePda : PublicKey) (g : GameAccount.t)
    (programId_ : PublicKey) (ix : TransactionInstruction)
    (pre : list TransactionInstruction) :
  createCancelGameInstruction connection authority gamePda g programId_
    = Ok (ix, pre) ->
  programId ix = programId_ /\
  caller_then_record ix authority gamePda /\
  data ix = [x03].
Proof.
  unfold createCancelGameInstruction.
  destruct (isNativeSOL (GameAccount.mint g)); cbn [negb bind].
  - intros E. injection E as <- <-. split; [reflexivity|].
    split; [|reflexivity].
    destruct (PublicKey_.equals (GameAccount.player2 g) PublicKey_.default);
      eexists; split; reflexivity.
  - destruct (getOrCreateAssociatedTokenAccount connection authority
                (GameAccount.mint g) (GameAccount.creator g) false)
      as [[a o]|e]; cbn [bind]; [|intros E; discriminate E].
    destruct (PublicKey_.equals (GameAccount.player2 g) PublicKey_.default);
      cbn [negb bind].
    + destruct (derived_vault g (GameAccount.mint g) programId_); cbn [bind];
        intros E; try discriminate E; injection E as <- <-;
        (split; [reflexivity|]);
        (split; [eexists; split; reflexivity | reflexivity]).
    + destruct (getOrCreateAssociatedTokenAccount connection authority
                  (GameAccount.mint g) (GameAccount.player2 g) false)
        as [[a' o']|e]; cbn [bind]; [|intros E; discriminate E].
      destruct (derived_vault g (GameAccount.mint g) programId_); cbn [bind];
        intros E; try discriminate E; injection E as <- <-;
        (split; [reflexivity|]);
        (split; [eexists; split; reflexivity | reflexivity]).
Qed.

Lemma caller_then_record_signers
    (ix : TransactionInstruction) (caller record : PublicKey) :
  caller_then_record ix caller record ->
  required_signers ix = [caller] /\
  nth_error (keys ix) 0 = Some (mkMeta caller true true) /\
  nth_error (keys ix) 1 = Some (mkMeta record false true).
Proof.
  intros (rest & K & N). unfold required_signers. rewrite K.
  cbn [filter isSigner map pubkey nth_error]. split; [|split; reflexivity].
  assert (F : filter isSigner rest = []).
  { clear K. induction rest as [|m r IH]; [reflexivity|].
    cbn [forallb] in N. apply andb_true_iff in N. destruct N as [Nm Nr].
    cbn [filter]. destruct (isSigner m); [discriminate Nm | exact (IH Nr)]. }
  rewrite F. reflexivity.
Qed.

End MoreShapes.

(** X5.  Each of the five instructions asks for exactly one signature, the
    caller's, whatever the stake kind and whatever companion accounts it
    lists; the caller comes first, signing and writable, and the record
    comes second, writable and not signing. *)
Theorem instructions_single_signer (D : Derivation) :
  (forall random creator args programId_ ix pda pre,
      createCreateGameInstruction random creator args programId_ = Ok (ix, pda, pre) ->
      required_signers ix = [creator] /\
      nth_error (keys ix) 0 = Some (mkMeta creator true true) /\
      nth_error (keys ix) 1 = Some (mkMeta pda false true)) /\
  (forall connection player2 gamePda g programId_ ix pre,
      createJoinGameInstruction connection player2 gamePda g programId_ = Ok (ix, pre) ->
      required_signers ix = [player2] /\
      nth_error (keys ix) 0 = Some (mkMeta player2 true true) /\
      nth_error (keys ix) 1 = Some (mkMeta gamePda false true)) /\
  (forall connection resolver gamePda winner g programId_ ix pre,
      createResolveGameInstruction connection resolver gamePda winner g programId_
        = Ok (ix, pre) ->
      required_signers ix = [resolver] /\
      nth_error (keys ix) 0 = Some (mkMeta resolver true true) /\
      nth_error (keys ix) 1 = Some (mkMeta gamePda false true)) /\
  (forall connection authority gamePda g programId_ ix pre,
      createCancelGameInstruction connection authority gamePda g programId_
        = Ok (ix, pre) ->
      required_signers ix = [authority] /\
      nth_error (keys ix) 0 = Some (mkMeta authority true true) /\
      nth_error (keys ix) 1 = Some (mkMeta gamePda false true)) /\
  (forall creator gamePda newResolver g programId_,
      let ix := createUpdateResolverInstruction creator gamePda newResolver g programId_ in
      required_signers ix = [creator] /\
      nth_error (keys ix) 0 = Some (mkMeta creator true true) /\
      nth_error (keys ix) 1 = Some (mkMeta gamePda false true)).
Proof.
  repeat apply conj.
  - intros random creator args programId_ ix pda pre E.
    apply createCreateGameInstruction_shape in E.
    apply caller_then_record_signers. tauto.
  - intros connection player2 gamePda g programId_ ix pre E.
    apply createJoinGameInstruction_shape in E.
    apply caller_then_record_signers. tauto.
  - intros connection resolver gamePda winner g programId_ ix pre E.
    apply createResolveGameInstruction_shape in E.
    apply caller_then_record_signers. tauto.
  - intros connection authority gamePda g programId_ ix pre E.
    apply createCancelGameInstruction_shape in E.
    apply caller_then_record_signers. tauto.
  - intros creator gamePda newResolver g programId_ ix. repeat split; reflexivity.
Qed.

Lemma instructions_single_signer_token_join :
  exists ix pre,
    @createJoinGameInstruction Example.derivation
      (Example.ledger_with Example.usdc_open_game) Example.bob Example.game_pda
      Example.usdc_open_game WAGER_PROGRAM_ID = Ok (ix, pre) /\
    required_signers ix = [Example.bob] /\
    nth_error (keys ix) 0 = Some (mkMeta Example.bob true true) /\
    nth_error (keys ix) 1 = Some (mkMeta Example.game_pda false true).
Proof.
  destruct (@createJoinGameInstruction Example.derivation
              (Example.ledger_with Example.usdc_open_game) Example.bob Example.game_pda
              Example.usdc_open_game WAGER_PROGRAM_ID) as [[ix pre]|e] eqn:E.
  - exists ix, pre. split; [reflexivity|].
    exact (proj1 (proj2 (instructions_single_signer Example.derivation))
             _ _ _ _ _ ix pre E).
  - vm_compute in E. discriminate E.
Defined.

(* ================================================================= *)
(** ** The data of the instructions *)

Lemma payout_bytes (bps : Z) :
  0 <= bps < 65536 ->
  le_to_Z [byte_of_Z (Z.land bps 255); byte_of_Z (Z.land (Z.shiftr bps 8) 255)] = bps.
Proof.
  intros H. cbn [le_to_Z]. rewrite !Z_of_byte_of_Z.
  change 255 with (Z.ones 8). rewrite !Z.land_ones by lia.
  rewrite Z.shiftr_div_pow2 by lia. change (2 ^ 8) with 256.
  rewrite !Z.mod_mod by lia.
  rewrite (Z.mod_small (bps / 256)) by (split; [apply Z.div_pos; lia
                                               | apply Z.div_lt_upper_bound; lia]).
  pose proof (Z.div_mod bps 256 ltac:(lia)). lia.
Qed.

Lemma slice_whole (field : list byte) (stop : nat) :
  List.length field = stop -> Buffer.slice field 0 stop = field.
Proof.
  intros <-. unfold Buffer.slice. cbn [skipn]. rewrite Nat.sub_0_r. apply firstn_all.
Qed.

Lemma alloc_length (n : nat) : List.length (Buffer.alloc n) = n.
Proof. apply repeat_length. Qed.

(** X6.  The data of a creation instruction is 92 bytes that read back as
    the request: opcode 0, the stake kind, the stake, the payout fraction,
    the expiry time, the resolver behind its presence flag (an absent
    resolver is flag 0 and thirty-two zero bytes) and the nonce, which is
    the one the returned record address is derived from.  The stake, the
    expiry time and the nonce are written as magnitudes: a sign is lost.
    No companion instruction is ever put in front. *)
Theorem createCreateGameInstruction_wire_format
    (D : Derivation) (random : float64) (creator : PublicKey)
    (args : CreateGameArgs.t) (programId_ : PublicKey)
    (ix : TransactionInstruction) (pda : PublicKey)
    (pre : list TransactionInstruction) :
  createCreateGameInstruction random creator args programId_ = Ok (ix, pda, pre) ->
  0 <= CreateGameArgs.mint args < 2 ^ 256 ->
  0 <= or_default (CreateGameArgs.resolverPubkey args) 0 < 2 ^ 256 ->
  let nonce := or_default (CreateGameArgs.nonce args) (generateNonce random) in
  let bytes := data ix in
  List.length bytes = 92%nat /\
  Buffer.readUInt8 bytes 0 = Ok 0 /\
  PublicKey_.of_bytes (Buffer.slice bytes 1 33) = Ok (CreateGameArgs.mint args) /\
  BN.of_le (Buffer.slice bytes 33 41) = Z.abs (CreateGameArgs.wager args) /\
  Buffer.readUInt16LE bytes 41 = Ok (CreateGameArgs.payoutBps args) /\
  BN.of_le (Buffer.slice bytes 43 51) = Z.abs (CreateGameArgs.expiryTs args) /\
  Buffer.readUInt8 bytes 51 =
    Ok (match CreateGameArgs.resolverPubkey args with Some _ => 1 | None => 0 end) /\
  PublicKey_.of_bytes (Buffer.slice bytes 52 84) =
    Ok (or_default (CreateGameArgs.resolverPubkey args) 0) /\
  BN.of_le (Buffer.slice bytes 84 92) = Z.abs nonce /\
  pda = game_address creator nonce programId_ /\
  pre = [].
Proof.
  intros E Hm Hr nonce bytes.
  destruct (createCreateGameInstruction_shape _ _ _ _ _ _ _ E)
    as (Hb & Hw & He & Hn & Hpda & Hpre & _ & _ & Hdata).
  fold nonce in Hn, Hpda, Hdata.
  assert (Hres : exists flag rbytes,
            (flag = match CreateGameArgs.resolverPubkey args with
                    | Some _ => x01 | None => x00 end) /\
            (rbytes = match CreateGameArgs.resolverPubkey args with
                      | Some r => PublicKey_.toBuffer r
                      | None => Buffer.alloc 32 end) /\
            List.length rbytes = 32%nat /\
            Z_of_byte flag =
              match CreateGameArgs.resolverPubkey args with Some _ => 1 | None => 0 end /\
            be_to_Z rbytes = or_default (CreateGameArgs.resolverPubkey args) 0).
  { do 2 eexists. split; [reflexivity|]. split; [reflexivity|].
    destruct (CreateGameArgs.resolverPubkey args) as [r|]; cbn [or_default] in *.
    - split; [apply toBuffer_length|]. split; [reflexivity|].
      apply be_to_Z_toBuffer. exact Hr.
    - split; [apply alloc_length|]. split; reflexivity. }
  destruct Hres as (flag & rbytes & Hflag & Hrb & Lrb & Vflag & Vrb).
  rewrite <- Hflag, <- Hrb in Hdata.
  subst bytes. rewrite Hdata. clear Hdata E.
  unfold Buffer.readUInt8, Buffer.readUInt16LE, BN.of_le, PublicKey_.of_bytes.
  assert (Len : List.length
                  ([x00]
                   ++ PublicKey_.toBuffer (CreateGameArgs.mint args)
                   ++ Z_to_le 8 (Z.abs (CreateGameArgs.wager args))
                   ++ [byte_of_Z (Z.land (CreateGameArgs.payoutBps args) 255);
                       byte_of_Z (Z.land (Z.shiftr (CreateGameArgs.payoutBps args) 8) 255)]
                   ++ Z_to_le 8 (Z.abs (CreateGameArgs.expiryTs args))
                   ++ [flag] ++ rbytes ++ Z_to_le 8 (Z.abs nonce)) = 92%nat)
    by (field_lengths; rewrite Lrb; reflexivity).
  rewrite Len. cbn [Nat.add Nat.leb].
  repeat apply conj; try assumption;
    repeat first
      [ rewrite slice_take by (field_lengths; rewrite ?Lrb; reflexivity)
      | rewrite slice_whole by (field_lengths; rewrite ?Lrb; reflexivity)
      | rewrite slice_skip by (field_lengths; rewrite ?Lrb; lia);
        rewrite ?toBuffer_length, ?Z_to_le_length, ?Lrb; cbn [List.length Nat.sub]
      | rewrite nth_error_skip by (field_lengths; rewrite ?Lrb; lia);
        rewrite ?toBuffer_length, ?Z_to_le_length, ?Lrb; cbn [List.length Nat.sub] ];
    rewrite ?toBuffer_length, ?Lrb; cbn [Nat.leb nth_error app];
    rewrite ?be_to_Z_toBuffer by assumption;
    rewrite ?le_to_Z_to_le_8 by lia;
    rewrite ?payout_bytes by lia;
    rewrite ?Vflag, ?Vrb; reflexivity.
Qed.

Lemma createCreateGameInstruction_wire_format_example :
  let args :=
    CreateGameArgs.mk Example.usdc 1000000 9000 1900000000 None Example.carol None in
  exists ix pda pre,
    @createCreateGameInstruction Example.derivation Example.half Example.alice args
      WAGER_PROGRAM_ID = Ok (ix, pda, pre) /\
    0 <= CreateGameArgs.mint args < 2 ^ 256 /\
    0 <= or_default (CreateGameArgs.resolverPubkey args) 0 < 2 ^ 256 /\
    List.length (data ix) = 92%nat /\
    BN.of_le (Buffer.slice (data ix) 84 92) = 500000.
Proof.
  cbv zeta.
  destruct (@createCreateGameInstruction Example.derivation Example.half Example.alice
              (CreateGameArgs.mk Example.usdc 1000000 9000 1900000000 None
                 Example.carol None)
              WAGER_PROGRAM_ID) as [[[ix pda] pre]|e] eqn:E.
  - assert (Hm : 0 <= Example.usdc < 2 ^ 256)
      by (split; vm_compute; (reflexivity || discriminate)).
    assert (Hr : 0 <= 0 < 2 ^ 256) by (split; vm_compute; (reflexivity || discriminate)).
    exists ix, pda, pre. split; [reflexivity|]. split; [exact Hm|]. split; [exact Hr|].
    pose proof (createCreateGameInstruction_wire_format Example.derivation Example.half
                  Example.alice _ WAGER_PROGRAM_ID ix pda pre E Hm Hr) as W.
    cbv zeta in W. split; [exact (proj1 W)|].
    exact (proj1 (proj2 (proj2 (proj2 (proj2 (proj2 (proj2 (proj2 (proj2 W))))))))).
  - vm_compute in E. discriminate E.
Defined.

(** X7.  The data of the other four instructions: a join is the single
    byte 1 and a cancel the single byte 3; a resolve is the byte 2 and a
    resolver update the byte 4, each followed by thirty-two bytes that read
    back as the winner, respectively the new resolver. *)
Theorem instruction_payloads (D : Derivation) (key : PublicKey) :
  0 <= key < 2 ^ 256 ->
  (forall connection player2 gamePda g programId_ ix pre,
      createJoinGameInstruction connection player2 gamePda g programId_ = Ok (ix, pre) ->
      data ix = [x01] /\ programId ix = programId_) /\
  (forall connection authority gamePda g programId_ ix pre,
      createCancelGameInstruction connection authority gamePda g programId_
        = Ok (ix, pre) ->
      data ix = [x03] /\ programId ix = programId_) /\
  (forall connection resolver gamePda g programId_ ix pre,
      createResolveGameInstruction connection resolver gamePda key g programId_
        = Ok (ix, pre) ->
      List.length (data ix) = 33%nat /\
      Buffer.readUInt8 (data ix) 0 = Ok 2 /\
      PublicKey_.of_bytes (Buffer.slice (data ix) 1 33) = Ok key /\
      programId ix = programId_) /\
  (forall creator gamePda g programId_,
      let ix := createUpdateResolverInstruction creator gamePda key g programId_ in
      List.length (data ix) = 33%nat /\
      Buffer.readUInt8 (data ix) 0 = Ok 4 /\
      PublicKey_.of_bytes (Buffer.slice (data ix) 1 33) = Ok key /\
      programId ix = programId_).
Proof.
  intros Hk.
  assert (P : forall op : byte,
            List.length (op :: PublicKey_.toBuffer key) = 33%nat /\
            PublicKey_.of_bytes (Buffer.slice (op :: PublicKey_.toBuffer key) 1 33)
            = Ok key).
  { intros op. cbn [List.length]. rewrite toBuffer_length. split; [reflexivity|].
    change (op :: PublicKey_.toBuffer key) with ([op] ++ PublicKey_.toBuffer key).
    rewrite slice_skip by (cbn [List.length]; lia). cbn [List.length Nat.sub].
    rewrite slice_whole by apply toBuffer_length.
    unfold PublicKey_.of_bytes. rewrite toBuffer_length. cbn [Nat.leb].
    rewrite be_to_Z_toBuffer by exact Hk. reflexivity. }
  repeat apply conj.
  - intros connection player2 gamePda g programId_ ix pre E.
    apply createJoinGameInstruction_shape in E. tauto.
  - intros connection authority gamePda g programId_ ix pre E.
    apply createCancelGameInstruction_shape in E. tauto.
  - intros connection resolver gamePda g programId_ ix pre E.
    apply createResolveGameInstruction_shape in E. destruct E as (Hp & _ & Hd).
    rewrite Hd. destruct (P x02) as [L R]. repeat split; assumption.
  - intros creator gamePda g programId_ ix. subst ix.
    unfold createUpdateResolverInstruction. cbn [data programId app].
    destruct (P x04) as [L R]. repeat split; assumption.
Qed.

Lemma instruction_payloads_example :
  0 <= Example.bob < 2 ^ 256 /\
  let ix := createUpdateResolverInstruction Example.alice Example.game_pda Example.bob
              Example.open_game WAGER_PROGRAM_ID in
  PublicKey_.of_bytes (Buffer.slice (data ix) 1 33) = Ok Example.bob.
Proof.
  assert (H : 0 <= Example.bob < 2 ^ 256)
    by (split; vm_compute; (reflexivity || discriminate)).
  split; [exact H|].
  exact (proj1 (proj2 (proj2
           (proj2 (proj2 (proj2 (instruction_payloads Example.derivation Example.bob H)))
              Example.alice Example.game_pda Example.open_game WAGER_PROGRAM_ID)))).
Defined.

(* ================================================================= *)
(** ** Amounts as text *)

Lemma text_append_assoc (a b c : string) :
  append (append a b) c = append a (append b c).
Proof. induction a as [|x a IH]; cbn; [reflexivity | rewrite IH; reflexivity]. Qed.

Lemma text_append_nil_r (a : string) : append a EmptyString = a.
Proof. induction a as [|x a IH]; cbn; [reflexivity | rewrite IH; reflexivity]. Qed.

Lemma text_length_append (a b : string) :
  String.length (append a b) = (String.length a + String.length b)%nat.
Proof. induction a as [|x a IH]; cbn; [reflexivity | rewrite IH; reflexivity]. Qed.

Lemma repeat_char_length (c : ascii) (n : nat) :
  String.length (JsString.repeat_char c n) = n.
Proof. induction n as [|n IH]; cbn; [reflexivity | rewrite IH; reflexivity]. Qed.

Lemma all_digits_append (a b : string) :
  all_digits (append a b) = all_digits a && all_digits b.
Proof.
  induction a as [|x a IH]; cbn; [reflexivity|]. rewrite IH, andb_assoc. reflexivity.
Qed.

Lemma all_digits_zeros (n : nat) : all_digits (JsString.repeat_char "0" n) = true.
Proof. induction n as [|n IH]; cbn; [reflexivity | exact IH]. Qed.

Lemma digit_char_code (d : Z) :
  0 <= d < 10 -> nat_of_ascii (BNText.digit_char d) = (48 + Z.to_nat d)%nat.
Proof.
  intros H. unfold BNText.digit_char. apply nat_ascii_embedding. lia.
Qed.

Lemma is_digit_digit_char (d : Z) : 0 <= d < 10 -> is_digit (BNText.digit_char d) = true.
Proof.
  intros H. unfold is_digit. rewrite digit_char_code by exact H.
  apply andb_true_iff. split; apply Nat.leb_le; lia.
Qed.

Lemma to_digits_all_digits (fuel : nat) (n : Z) :
  0 <= n -> all_digits (BNText.to_digits fuel n) = true.
Proof.
  revert n. induction fuel as [|f IH]; intros n Hn; cbn [BNText.to_digits];
    [reflexivity|].
  destruct (Z.ltb_spec n 10).
  - cbn [all_digits]. rewrite is_digit_digit_char by lia. reflexivity.
  - rewrite all_digits_append, IH by (apply Z.div_pos; lia).
    cbn [all_digits]. rewrite is_digit_digit_char
      by (apply Z.mod_pos_bound; lia). reflexivity.
Qed.

Lemma parse_digits_append (a b : string) (acc : Z) :
  BNText.parse_digits (append a b) acc =
  bind (BNText.parse_digits a acc) (BNText.parse_digits b).
Proof.
  revert acc. induction a as [|x a IH]; intros acc; cbn [append BNText.parse_digits];
    [reflexivity|].
  destruct ((0 <=? Z.of_nat (nat_of_ascii x) - 48)
            && (Z.of_nat (nat_of_ascii x) - 48 <? 10)); [apply IH | reflexivity].
Qed.

Lemma parse_digits_zeros (n : nat) (acc : Z) :
  BNText.parse_digits (JsString.repeat_char "0" n) acc = Ok (acc * 10 ^ Z.of_nat n).
Proof.
  revert acc. induction n as [|n IH]; intros acc.
  - cbn. f_equal. lia.
  - cbn [JsString.repeat_char BNText.parse_digits]. cbn [nat_of_ascii].
    change (Z.of_nat (nat_of_ascii "0") - 48) with 0. cbn [Z.leb Z.ltb Z.compare andb].
    rewrite IH. f_equal. rewrite Nat2Z.inj_succ, Z.pow_succ_r by lia. lia.
Qed.

Lemma parse_digits_to_digits (fuel : nat) (n acc : Z) :
  0 <= n < 10 ^ Z.of_nat fuel ->
  BNText.parse_digits (BNText.to_digits fuel n) acc =
  Ok (acc * 10 ^ Z.of_nat (String.length (BNText.to_digits fuel n)) + n).
Proof.
  revert n acc. induction fuel as [|f IH]; intros n acc Hn.
  - assert (n = 0) by (cbn in Hn; lia). subst n. cbn. f_equal. lia.
  - cbn [BNText.to_digits]. destruct (Z.ltb_spec n 10) as [Hs|Hl].
    + cbn [BNText.parse_digits String.length].
      rewrite digit_char_code by lia.
      replace (Z.of_nat (48 + Z.to_nat n) - 48) with n by lia.
      rewrite (proj2 (Z.leb_le 0 n)), (proj2 (Z.ltb_lt n 10)) by lia.
      cbn [andb]. apply f_equal. change (10 ^ Z.of_nat 1) with 10. lia.
    + assert (Hq : 0 <= n / 10 < 10 ^ Z.of_nat f).
      { rewrite Nat2Z.inj_succ, Z.pow_succ_r in Hn by lia.
        split; [apply Z.div_pos; lia | apply Z.div_lt_upper_bound; lia]. }
      rewrite parse_digits_append, IH by exact Hq. cbn [bind BNText.parse_digits].
      pose proof (Z.mod_pos_bound n 10 ltac:(lia)) as Hm.
      rewrite digit_char_code by exact Hm.
      replace (Z.of_nat (48 + Z.to_nat (n mod 10)) - 48) with (n mod 10) by lia.
      rewrite (proj2 (Z.leb_le 0 (n mod 10))), (proj2 (Z.ltb_lt (n mod 10) 10)) by lia.
      cbn [andb]. apply f_equal.
      rewrite text_length_append. cbn [String.length].
      rewrite Nat2Z.inj_add. change (Z.of_nat 1) with 1.
      rewrite Z.pow_add_r by lia. change (10 ^ 1) with 10.
      pose proof (Z.div_mod n 10 ltac:(lia)). lia.
Qed.

Lemma to_digits_length (fuel : nat) (n : Z) (d : nat) :
  0 <= n < 10 ^ Z.of_nat d -> (1 <= d)%nat ->
  (String.length (BNText.to_digits fuel n) <= d)%nat.
Proof.
  revert n d. induction fuel as [|f IH]; intros n d Hn Hd; cbn [BNText.to_digits].
  - cbn. lia.
  - destruct (Z.ltb_spec n 10) as [Hs|Hl]; [cbn; lia|].
    rewrite text_length_append. cbn [String.length].
    destruct d as [|d]; [lia|]. destruct d as [|d].
    + change (10 ^ Z.of_nat 1) with 10 in Hn. lia.
    + assert (Hq : 0 <= n / 10 < 10 ^ Z.of_nat (S d)).
      { rewrite (Nat2Z.inj_succ (S d)), Z.pow_succ_r in Hn by lia.
        split; [apply Z.div_pos; lia | apply Z.div_lt_upper_bound; lia]. }
      pose proof (IH (n / 10) (S d) Hq ltac:(lia)). lia.
Qed.

Lemma enough_fuel (n : Z) :
  0 <= n -> n < 10 ^ Z.of_nat (S (Z.to_nat (Z.log2 n))).
Proof.
  intros Hn. rewrite Nat2Z.inj_succ, Z2Nat.id by apply Z.log2_nonneg.
  destruct (Z.eq_dec n 0) as [->|Hnz]; [cbn; lia|].
  pose proof (Z.log2_spec n ltac:(lia)) as [_ H].
  assert (2 ^ Z.succ (Z.log2 n) <= 10 ^ Z.succ (Z.log2 n))
    by (apply Z.pow_le_mono_l; pose proof (Z.log2_nonneg n); lia).
  lia.
Qed.

Lemma digit_is_not (c x : ascii) :
  is_digit c = true -> is_digit x = false -> Ascii.eqb c x = false.
Proof.
  intros Hc Hx. destruct (Ascii.eqb_spec c x) as [->|]; [congruence | reflexivity].
Qed.

Lemma split_digits (s : string) : all_digits s = true -> JsString.split "." s = [s].
Proof.
  induction s as [|c s IH]; cbn [all_digits JsString.split]; [reflexivity|].
  intros H. apply andb_true_iff in H. destruct H as [Hc Hs].
  rewrite (digit_is_not c "." Hc eq_refl), (IH Hs). reflexivity.
Qed.

Lemma split_at_dot (a b : string) :
  all_digits a = true ->
  JsString.split "." (append a (String "." b)) = a :: JsString.split "." b.
Proof.
  induction a as [|c a IH]; cbn [all_digits append JsString.split].
  - intros _. reflexivity.
  - intros H. apply andb_true_iff in H. destruct H as [Hc Ha].
    rewrite (digit_is_not c "." Hc eq_refl), (IH Ha). reflexivity.
Qed.

Lemma strip_spaces_digits (s : string) :
  all_digits s = true -> BNText.strip_spaces s = s.
Proof.
  induction s as [|c s IH]; cbn [all_digits BNText.strip_spaces]; [reflexivity|].
  intros H. apply andb_true_iff in H. destruct H as [Hc Hs].
  assert (Hsp : BNText.is_space c = false).
  { unfold is_digit in Hc. unfold BNText.is_space.
    apply andb_true_iff in Hc. destruct Hc as [H1 H2].
    apply Nat.leb_le in H1. apply Nat.leb_le in H2.
    destruct (Nat.leb_spec (nat_of_ascii c) 13); [lia|].
    destruct (Nat.eqb_spec (nat_of_ascii c) 32); [lia|].
    destruct (Nat.eqb_spec (nat_of_ascii c) 160); [lia|].
    rewrite andb_false_r. reflexivity. }
  rewrite Hsp, (IH Hs). reflexivity.
Qed.

Lemma of_string_digits (s : string) :
  all_digits s = true ->
  BNText.of_string s = (v <- BNText.parse_digits s 0 ;; Ok (Some v)).
Proof.
  intros H. unfold BNText.of_string. rewrite strip_spaces_digits by exact H.
  destruct s as [|c s]; [reflexivity|].
  cbn [String.eqb].
  cbn [all_digits] in H. apply andb_true_iff in H. destruct H as [Hc _].
  destruct (Ascii.eqb_spec c "-") as [->|Hne]; [discriminate Hc|].
  destruct c as [[] [] [] [] [] [] [] []]; try reflexivity. contradiction Hne.
  reflexivity.
Qed.

Lemma trim_trailing_zeros_spec (s : string) :
  exists k, s = append (JsString.trim_trailing_zeros s) (JsString.repeat_char "0" k).
Proof.
  induction s as [|c s (k & IH)]; [exists 0%nat; reflexivity|].
  cbn [JsString.trim_trailing_zeros].
  destruct (JsString.trim_trailing_zeros s) as [|t ts] eqn:E.
  - destruct (Ascii.eqb_spec c "0") as [->|_].
    + exists (S k). cbn [append JsString.repeat_char] in *. rewrite <- IH. reflexivity.
    + exists k. cbn [append] in *. rewrite <- IH. reflexivity.
  - exists k. cbn [append] in *. rewrite <- IH. reflexivity.
Qed.

Lemma slice0_whole (s : string) : JsString.slice0 s (String.length s) = s.
Proof.
  unfold JsString.slice0. induction s as [|c s IH]; cbn; [reflexivity|].
  rewrite IH. reflexivity.
Qed.

Lemma toString_nonneg (n : Z) :
  0 <= n ->
  all_digits (BNText.toString n) = true /\
  (forall acc,
      BNText.parse_digits (BNText.toString n) acc
      = Ok (acc * 10 ^ Z.of_nat (String.length (BNText.toString n)) + n)) /\
  (forall d, n < 10 ^ Z.of_nat d -> (1 <= d)%nat ->
             (String.length (BNText.toString n) <= d)%nat).
Proof.
  intros Hn. unfold BNText.toString.
  destruct (Z.ltb_spec n 0); [lia|]. rewrite Z.abs_eq by exact Hn.
  split; [apply to_digits_all_digits; exact Hn|]. split.
  - intros acc. apply parse_digits_to_digits. split; [exact Hn | apply enough_fuel; exact Hn].
  - intros d Hd H1. apply to_digits_length; [lia | exact H1].
Qed.

(** X8.  Writing a non-negative amount with [formatTokenAmount] and reading
    the text back with [parseTokenAmount], with the same number of
    decimals, gives the amount again. *)
Theorem parse_format_roundtrip (amount : Z) (decimals : nat) :
  0 <= amount ->
  parseTokenAmount (formatTokenAmount amount decimals) decimals = Ok (Some amount).
Proof.
  intros Ha. unfold formatTokenAmount, parseTokenAmount.
  set (divisor := 10 ^ Z.of_nat decimals).
  assert (Hd : 0 < divisor) by (apply Z.pow_pos_nonneg; lia).
  rewrite Z.quot_div_nonneg, Z.rem_mod_nonneg by lia.
  pose proof (Z.div_mod amount divisor ltac:(lia)) as Hdm.
  pose proof (Z.mod_pos_bound amount divisor Hd) as Hr.
  assert (Hq : 0 <= amount / divisor) by (apply Z.div_pos; lia).
  destruct (toString_nonneg (amount / divisor) Hq) as (Dq & Pq & _).
  set (qs := BNText.toString (amount / divisor)) in *.
  destruct (Z.eqb_spec (amount mod divisor) 0) as [Hz|Hnz].
  - rewrite split_digits by exact Dq. cbn [nth].
    unfold JsString.padEnd. cbn [String.length append]. rewrite Nat.sub_0_r.
    rewrite <- (repeat_char_length "0" decimals) at 2. rewrite slice0_whole.
    rewrite of_string_digits
      by (rewrite all_digits_append, Dq, all_digits_zeros; reflexivity).
    rewrite parse_digits_append, Pq. cbn [bind]. rewrite parse_digits_zeros.
    cbn [bind]. do 2 apply f_equal. fold divisor. lia.
  - assert (H1 : (1 <= decimals)%nat).
    { destruct decimals; [|lia]. exfalso. apply Hnz. subst divisor.
      change (10 ^ Z.of_nat 0) with 1. apply Z.mod_1_r. }
    destruct (toString_nonneg (amount mod divisor) ltac:(lia)) as (Dr & Pr & Lr).
    specialize (Lr decimals ltac:(fold divisor; lia) H1).
    set (rs0 := BNText.toString (amount mod divisor)) in *.
    set (rs := JsString.padStart rs0 decimals "0").
    assert (Lrs : String.length rs = decimals).
    { subst rs. unfold JsString.padStart.
      rewrite text_length_append, repeat_char_length. lia. }
    assert (Drs : all_digits rs = true).
    { subst rs. unfold JsString.padStart.
      rewrite all_digits_append, all_digits_zeros, Dr. reflexivity. }
    assert (Prs : forall acc,
               BNText.parse_digits rs acc = Ok (acc * divisor + amount mod divisor)).
    { intros acc. subst rs. unfold JsString.padStart.
      rewrite parse_digits_append, parse_digits_zeros. cbn [bind]. rewrite Pr.
      f_equal. subst divisor.
      rewrite <- Z.mul_assoc, <- Z.pow_add_r, <- Nat2Z.inj_add by lia.
      replace (decimals - String.length rs0 + String.length rs0)%nat
        with decimals by lia. reflexivity. }
    destruct (trim_trailing_zeros_spec rs) as (k & Hk).
    set (trimmed := JsString.trim_trailing_zeros rs) in *.
    assert (Dt : all_digits trimmed = true).
    { rewrite Hk, all_digits_append in Drs. apply andb_true_iff in Drs. tauto. }
    assert (Lk : (String.length trimmed + k = decimals)%nat).
    { pose proof (f_equal String.length Hk) as Hlen.
      rewrite text_length_append, repeat_char_length in Hlen. lia. }
    destruct (String.eqb_spec trimmed EmptyString) as [Hempty|Hne].
    + exfalso. rewrite Hempty in Hk. cbn [append] in Hk.
      pose proof (Prs 0) as P0. rewrite Hk, parse_digits_zeros in P0.
      injection P0 as P0. lia.
    + rewrite split_at_dot by exact Dq. rewrite split_digits by exact Dt. cbn [nth].
      assert (Hpad : JsString.padEnd trimmed decimals "0" = rs).
      { unfold JsString.padEnd.
        transitivity (append trimmed (JsString.repeat_char "0" k));
          [f_equal; f_equal; lia | symmetry; exact Hk]. }
      assert (Hsl : JsString.slice0 rs decimals = rs)
        by (rewrite <- Lrs; apply slice0_whole).
      rewrite Hpad, Hsl.
      rewrite of_string_digits by (rewrite all_digits_append, Dq, Drs; reflexivity).
      rewrite parse_digits_append, Pq. cbn [bind]. rewrite Prs. cbn [bind].
      do 2 apply f_equal. lia.
Qed.

Lemma parse_format_roundtrip_example :
  0 <= 1234567890 /\
  formatTokenAmount 1234567890 9 = "1.23456789"%string /\
  parseTokenAmount (formatTokenAmount 1234567890 9) 9 = Ok (Some 1234567890).
Proof.
  split; [lia|]. split; [reflexivity|].
  apply (parse_format_roundtrip 1234567890 9). lia.
Defined.

Lemma split_nonempty (s : string) :
  exists piece pieces, JsString.split "." s = piece :: pieces.
Proof.
  induction s as [|c s (p & ps & IH)]; cbn [JsString.split]; [do 2 eexists; reflexivity|].
  destruct (Ascii.eqb c "."); [do 2 eexists; reflexivity|].
  rewrite IH. do 2 eexists. reflexivity.
Qed.

Lemma split_dot_free_prefix (a b : string) :
  dot_free a = true ->
  JsString.split "." (append a (String "." b)) = a :: JsString.split "." b.
Proof.
  induction a as [|c a IH]; cbn [dot_free append JsString.split].
  - intros _. reflexivity.
  - intros H. apply andb_true_iff in H. destruct H as [Hc Ha].
    apply negb_true_iff in Hc. rewrite Hc, (IH Ha). reflexivity.
Qed.

Lemma split_first_piece (f e : string) :
  dot_free f = true ->
  nth 0 (JsString.split "." (append f e)) EmptyString =
  append f (nth 0 (JsString.split "." e) EmptyString).
Proof.
  induction f as [|c f IH]; cbn [dot_free append JsString.split].
  - intros _. reflexivity.
  - intros H. apply andb_true_iff in H. destruct H as [Hc Hf].
    apply negb_true_iff in Hc. rewrite Hc.
    specialize (IH Hf).
    destruct (split_nonempty (append f e)) as (p & ps & E). rewrite E in *.
    cbn [nth] in *. rewrite IH. reflexivity.
Qed.

Lemma slice0_prefix (f h : string) :
  JsString.slice0 (append f h) (String.length f) = f.
Proof.
  unfold JsString.slice0. induction f as [|c f IH]; cbn [append String.length substring].
  - destruct h; reflexivity.
  - rewrite IH. reflexivity.
Qed.

(** X9.  [parseTokenAmount] keeps the first [decimals] digits of the
    fraction and silently ignores whatever follows them, digits or not: the
    amount is cut, never rounded, and text after the kept digits raises no
    error. *)
Theorem parseTokenAmount_truncates
    (integer fraction extra : string) (decimals : nat) :
  dot_free integer = true ->
  dot_free fraction = true ->
  String.length fraction = decimals ->
  parseTokenAmount (append integer (String "." (append fraction extra))) decimals =
  parseTokenAmount (append integer (String "." fraction)) decimals.
Proof.
  intros Hi Hf Hl. unfold parseTokenAmount.
  rewrite !split_dot_free_prefix by exact Hi. cbn [nth].
  assert (P : forall tail,
            JsString.slice0
              (JsString.padEnd (nth 0 (JsString.split "." (append fraction tail))
                                  EmptyString) decimals "0") decimals = fraction).
  { intros tail. rewrite split_first_piece by exact Hf.
    unfold JsString.padEnd. rewrite text_length_append, Hl.
    replace (decimals - (decimals + _))%nat with 0%nat by lia.
    cbn [JsString.repeat_char]. rewrite text_append_nil_r.
    rewrite <- Hl. apply slice0_prefix. }
  rewrite (P extra).
  rewrite <- (text_append_nil_r fraction) at 2. rewrite (P EmptyString). reflexivity.
Qed.

Lemma parseTokenAmount_truncates_example :
  dot_free "1" = true /\ dot_free "23" = true /\ String.length "23" = 2%nat /\
  parseTokenAmount "1.239 SOL" 2 = Ok (Some 123) /\
  parseTokenAmount "1.239 SOL" 2 = parseTokenAmount "1.23" 2.
Proof.
  split; [reflexivity|]. split; [reflexivity|]. split; [reflexivity|].
  split; [reflexivity|].
  exact (parseTokenAmount_truncates "1" "23" "9 SOL" 2 eq_refl eq_refl eq_refl).
Defined.

(* ================================================================= *)
(** ** Retrying *)

Lemma retry_from_step {T : Type} (fn : nat -> Result T) (maxRetries : nat)
    (baseDelay : Z) (remaining i : nat) (lastError : option Error) :
  retry_from fn maxRetries baseDelay (S remaining) i lastError =
  match fn i with
  | Ok value => (Returned value, [])
  | Err error =>
      let (outcome, delays) :=
        retry_from fn maxRetries baseDelay remaining (S i) (Some error) in
      (outcome,
       (if (i <? maxRetries - 1)%nat then [baseDelay * 2 ^ Z.of_nat i] else []) ++ delays)
  end.
Proof. reflexivity. Qed.

Lemma retry_from_succeeds {T : Type} (fn : nat -> Result T) (maxRetries : nat)
    (baseDelay : Z) (value : T) (k remaining i : nat) (lastError : option Error) :
  (i + k < maxRetries)%nat -> (k < remaining)%nat ->
  (forall j, (j < k)%nat -> exists e, fn (i + j)%nat = Err e) ->
  fn (i + k)%nat = Ok value ->
  retry_from fn maxRetries baseDelay remaining i lastError =
    (Returned value, backoff baseDelay i k).
Proof.
  revert remaining i lastError.
  induction k as [|k IH]; intros remaining i lastError Hmax Hrem Hfail Hok.
  - destruct remaining as [|r]; [lia|]. rewrite retry_from_step.
    rewrite Nat.add_0_r in Hok. rewrite Hok. reflexivity.
  - destruct remaining as [|r]; [lia|]. rewrite retry_from_step.
    destruct (Hfail 0%nat ltac:(lia)) as [e He]. rewrite Nat.add_0_r in He. rewrite He.
    destruct (Nat.ltb_spec i (maxRetries - 1)); [|lia].
    rewrite (IH r (S i) (Some e)).
    + reflexivity.
    + lia.
    + lia.
    + intros j Hj. destruct (Hfail (S j) ltac:(lia)) as [e' He'].
      exists e'. rewrite <- He'. f_equal. lia.
    + rewrite <- Hok. f_equal. lia.
Qed.

Lemma retry_from_gives_up {T : Type} (fn : nat -> Result T) (maxRetries : nat)
    (baseDelay : Z) (remaining i : nat) (lastError : option Error) (last : Error) :
  (i + S remaining = maxRetries)%nat ->
  (forall j, (j < S remaining)%nat -> exists e, fn (i + j)%nat = Err e) ->
  fn (i + remaining)%nat = Err last ->
  retry_from fn maxRetries baseDelay (S remaining) i lastError =
    (Thrown (Some last), backoff baseDelay i remaining).
Proof.
  revert i lastError.
  induction remaining as [|r IH]; intros i lastError Hmax Hfail Hlast.
  - rewrite retry_from_step. rewrite Nat.add_0_r in Hlast. rewrite Hlast.
    destruct (Nat.ltb_spec i (maxRetries - 1)); [lia|]. reflexivity.
  - rewrite retry_from_step.
    destruct (Hfail 0%nat ltac:(lia)) as [e He]. rewrite Nat.add_0_r in He. rewrite He.
    destruct (Nat.ltb_spec i (maxRetries - 1)); [|lia].
    rewrite (IH (S i) (Some e)).
    + reflexivity.
    + lia.
    + intros j Hj. destruct (Hfail (S j) ltac:(lia)) as [e' He'].
      exists e'. rewrite <- He'. f_equal. lia.
    + rewrite <- Hlast. f_equal. lia.
Qed.

Lemma backoff_total (baseDelay : Z) (count : nat) :
  fold_right Z.add 0 (backoff baseDelay 0 count) = baseDelay * (2 ^ Z.of_nat count - 1).
Proof.
  unfold backoff. induction count as [|n IH]; [cbn; lia|].
  rewrite seq_S, map_app, fold_right_app. cbn [map fold_right Nat.add].
  assert (G : forall l acc, fold_right Z.add acc l = fold_right Z.add 0 l + acc).
  { induction l as [|x l IHl]; intros acc; cbn [fold_right]; [lia|].
    rewrite IHl. lia. }
  rewrite G, IH. rewrite Nat2Z.inj_succ, Z.pow_succ_r by lia. lia.
Qed.

(** X10.  [retry] calls the function until it succeeds, at most
    [maxRetries] times.  If attempt number [k] (from 0) is the first to
    succeed, its value is returned after sleeping [baseDelay * 2^i] before
    each retry [i + 1 <= k], [baseDelay * (2^k - 1)] in all.  If every
    attempt fails, the error of the last attempt is thrown after
    [maxRetries - 1] sleeps, none after the last failure.  With
    [maxRetries = 0] the function is never called and [undefined] is
    thrown. *)
Theorem retry_outcome {T : Type} (fn : nat -> Result T) (maxRetries : nat)
    (baseDelay : Z) :
  (forall k value,
      (k < maxRetries)%nat ->
      (forall j, (j < k)%nat -> exists e, fn j = Err e) ->
      fn k = Ok value ->
      retry fn maxRetries baseDelay = (Returned value, backoff baseDelay 0 k) /\
      fold_right Z.add 0 (snd (retry fn maxRetries baseDelay))
        = baseDelay * (2 ^ Z.of_nat k - 1)) /\
  (forall last,
      (1 <= maxRetries)%nat ->
      (forall j, (j < maxRetries)%nat -> exists e, fn j = Err e) ->
      fn (maxRetries - 1)%nat = Err last ->
      retry fn maxRetries baseDelay =
        (Thrown (Some last), backoff baseDelay 0 (maxRetries - 1))) /\
  (maxRetries = 0%nat -> retry fn maxRetries baseDelay = (Thrown None, [])).
Proof.
  repeat apply conj.
  - intros k value Hk Hfail Hok.
    assert (E : retry fn maxRetries baseDelay = (Returned value, backoff baseDelay 0 k)).
    { unfold retry. apply retry_from_succeeds; cbn [Nat.add]; assumption. }
    split; [exact E|]. rewrite E. cbn [snd]. apply backoff_total.
  - intros last H1 Hfail Hlast. unfold retry.
    destruct maxRetries as [|m]; [lia|].
    replace (S m - 1)%nat with m in * by lia.
    apply retry_from_gives_up; cbn [Nat.add]; [reflexivity | assumption | assumption].
  - intros ->. reflexivity.
Qed.

Lemma retry_outcome_third_attempt :
  let fn := fun i : nat => if (i <? 2)%nat then Err RangeError else Ok i in
  (2 < 3)%nat /\
  (forall j, (j < 2)%nat -> exists e, fn j = Err e) /\
  fn 2%nat = Ok 2%nat /\
  retry fn 3 1000 = (Returned 2%nat, [1000; 2000]).
Proof.
  cbv zeta.
  assert (Hf : forall j, (j < 2)%nat ->
                 exists e, (if (j <? 2)%nat then Err RangeError else Ok j) = Err e).
  { intros j Hj. exists RangeError.
    destruct (Nat.ltb_spec j 2); [reflexivity | lia]. }
  split; [lia|]. split; [exact Hf|]. split; [reflexivity|].
  exact (proj1 (proj1 (retry_outcome
                         (fun i : nat => if (i <? 2)%nat then Err RangeError else Ok i)
                         3 1000)
                  2%nat 2%nat ltac:(lia) Hf eq_refl)).
Defined.

(* ================================================================= *)
(** ** Cancelling and resolving through the client *)

Lemma deserializeGameAccount_ranges (data : list byte) (g : GameAccount.t) :
  deserializeGameAccount data = Ok g -> fits_layout g.
Proof.
  intros E.
  destruct (Nat.lt_ge_cases (List.length data) 229) as [Hshort|Hlong].
  { rewrite deserializeGameAccount_short in E by assumption. discriminate E. }
  destruct (deserializeGameAccount_long data Hlong) as (s & b & v & Hs & Hb & Hv & E').
  rewrite E' in E. injection E as <-.
  unfold decoded, fits_layout.
  cbn [GameAccount.creator GameAccount.player1
    GameAccount.player2 GameAccount.resolver GameAccount.devWallet GameAccount.mint
    GameAccount.wager GameAccount.payoutBps GameAccount.state GameAccount.expiryTs
    GameAccount.nonce GameAccount.bump GameAccount.vaultBump].
  assert (K : forall a, (a + 32 <= 229)%nat ->
                0 <= be_to_Z (Buffer.slice data a (a + 32)) < 2 ^ 256).
  { intros a Ha.
    pose proof (be_to_Z_range (Buffer.slice data a (a + 32))) as R.
    rewrite slice_exact_length in R by lia.
    replace (a + 32 - a)%nat with 32%nat in R by lia. exact R. }
  assert (W : forall a n, (a + n <= 229)%nat ->
                0 <= le_to_Z (Buffer.slice data a (a + n)) < 256 ^ Z.of_nat n).
  { intros a n Ha.
    pose proof (le_to_Z_range (Buffer.slice data a (a + n))) as R.
    rewrite slice_exact_length in R by lia.
    replace (a + n - a)%nat with n in R by lia. exact R. }
  pose proof (K 8%nat ltac:(lia)). pose proof (K 40%nat ltac:(lia)).
  pose proof (K 72%nat ltac:(lia)). pose proof (K 104%nat ltac:(lia)).
  pose proof (K 136%nat ltac:(lia)). pose proof (K 168%nat ltac:(lia)).
  pose proof (W 200%nat 8%nat ltac:(lia)). pose proof (W 208%nat 2%nat ltac:(lia)).
  pose proof (W 211%nat 8%nat ltac:(lia)). pose proof (W 219%nat 8%nat ltac:(lia)).
  cbn [Nat.add] in *.
  change (256 ^ Z.of_nat 8) with (2 ^ 64) in *.
  change (256 ^ Z.of_nat 2) with 65536 in *.
  pose proof (Z_of_byte_range s). pose proof (Z_of_byte_range b).
  pose proof (Z_of_byte_range v).
  repeat split; lia.
Qed.

Lemma getGame_fits (connection : Ledger) (gamePda : PublicKey) (g : GameAccount.t) :
  getGame connection gamePda = Ok g -> fits_layout g.
Proof.
  intros Hget. destruct (getGame_found connection gamePda g Hget) as (info & _ & Hdec).
  exact (deserializeGameAccount_ranges _ _ Hdec).
Qed.

Lemma createCancelGameInstruction_total
    (D : Derivation) (connection : Ledger) (authority gamePda : PublicKey)
    (g : GameAccount.t) (programId_ : PublicKey) :
  fits_layout g ->
  isNativeSOL (GameAccount.mint g) = true \/ cancel_owners_on_curve g = true ->
  exists ix pre,
    createCancelGameInstruction connection authority gamePda g programId_ = Ok (ix, pre).
Proof.
  intros F Hc. destruct (isNativeSOL (GameAccount.mint g)) eqn:Hm.
  - destruct (createCancelGameInstruction_native connection authority gamePda g
                programId_ Hm) as (ix & E & _). exists ix, []. exact E.
  - destruct Hc as [Hc|Hc]; [discriminate Hc|].
    assert (Hn : Z.abs (GameAccount.nonce g) < 2 ^ 64)
      by (unfold fits_layout in F; lia).
    destruct (createCancelGameInstruction_token connection authority gamePda g
                programId_ Hm Hc Hn) as (ix & pre & c & E & _). exists ix, pre. exact E.
Qed.

(** X11.  [cancelIfExpired] decides on the expiry time alone.  Before the
    expiry time it refuses with the not-expired error and sends nothing;
    from the expiry time on (the instant itself included) it submits the
    cancel instruction, signed by the caller, whoever the caller is and
    whatever state the record is in.  An expiry time of 2^53 or more cannot
    be compared: the conversion to a number fails an assertion and nothing
    is sent.  One more refusal comes from the companion lookup of a token
    game: when the creator, or the second player once there is one, is
    not a point of the curve, spl-token's off-curve error is thrown and
    nothing is sent. *)
Theorem cancelIfExpired_guards
    (D : Derivation) (T : Transport) (this : WagerClient) (connection : Ledger)
    (now : Z) (authority gamePda : PublicKey) (g : GameAccount.t) :
  getGame connection gamePda = Ok g ->
  (2 ^ 53 <= GameAccount.expiryTs g ->
   cancelIfExpired this connection now authority gamePda
     = (Err AssertionError, connection)) /\
  (GameAccount.expiryTs g < 2 ^ 53 ->
   now < GameAccount.expiryTs g ->
   exists e,
     cancelIfExpired this connection now authority gamePda = (Err e, connection) /\
     error_kind e = Some NotYetExpired) /\
  (GameAccount.expiryTs g < 2 ^ 53 ->
   GameAccount.expiryTs g <= now ->
   isNativeSOL (GameAccount.mint g) = true \/ cancel_owners_on_curve g = true ->
   exists ix pre,
     createCancelGameInstruction connection authority gamePda g (client_programId this)
       = Ok (ix, pre) /\
     data ix = [x03] /\
     required_signers ix = [authority] /\
     cancelIfExpired this connection now authority gamePda
       = sendAndConfirmTransaction connection (pre ++ [ix]) [authority]) /\
  (GameAccount.expiryTs g < 2 ^ 53 ->
   GameAccount.expiryTs g <= now ->
   isNativeSOL (GameAccount.mint g) = false ->
   cancel_owners_on_curve g = false ->
   cancelIfExpired this connection now authority gamePda
     = (Err TokenOwnerOffCurveError, connection)).
Proof.
  intros Hget. pose proof (getGame_fits _ _ _ Hget) as F.
  assert (He : 0 <= GameAccount.expiryTs g) by (unfold fits_layout in F; lia).
  unfold cancelIfExpired, isExpired, BN.toNumber. rewrite Hget.
  rewrite Z.abs_eq by exact He. change 9007199254740992 with (2 ^ 53).
  repeat apply conj.
  - intros Hbig. destruct (Z.ltb_spec (GameAccount.expiryTs g) (2 ^ 53)); [lia|].
    reflexivity.
  - intros Hsmall Hearly.
    destruct (Z.ltb_spec (GameAccount.expiryTs g) (2 ^ 53)); [|lia]. cbn [bind].
    destruct (Z.leb_spec (GameAccount.expiryTs g) now); [lia|].
    eexists. split; reflexivity.
  - intros Hsmall Hlate Hcurve.
    destruct (Z.ltb_spec (GameAccount.expiryTs g) (2 ^ 53)); [|lia]. cbn [bind].
    destruct (Z.leb_spec (GameAccount.expiryTs g) now); [|lia].
    destruct (createCancelGameInstruction_total D connection authority gamePda g
                (client_programId this) F Hcurve) as (ix & pre & E).
    exists ix, pre. rewrite E.
    destruct (createCancelGameInstruction_shape _ _ _ _ _ _ _ E) as (_ & S & Hd).
    split; [reflexivity|]. split; [exact Hd|].
    split; [exact (proj1 (caller_then_record_signers _ _ _ S)) | reflexivity].
  - intros Hsmall Hlate Hm Hcurve.
    destruct (Z.ltb_spec (GameAccount.expiryTs g) (2 ^ 53)); [|lia]. cbn [bind].
    destruct (Z.leb_spec (GameAccount.expiryTs g) now); [|lia].
    rewrite createCancelGameInstruction_off_curve by assumption. reflexivity.
Qed.

Lemma cancelIfExpired_guards_too_early :
  getGame (Example.ledger_with Example.ready_game) Example.game_pda
    = Ok Example.ready_game /\
  GameAccount.expiryTs Example.ready_game < 2 ^ 53 /\
  1800000000 < GameAccount.expiryTs Example.ready_game /\
  exists e,
    @cancelIfExpired Example.derivation Example.transport Example.client
      (Example.ledger_with Example.ready_game) 1800000000 Example.alice Example.game_pda
      = (Err e, Example.ledger_with Example.ready_game) /\
    error_kind e = Some NotYetExpired.
Proof.
  assert (Hget : getGame (Example.ledger_with Example.ready_game) Example.game_pda
                 = Ok Example.ready_game) by (vm_compute; reflexivity).
  assert (H1 : GameAccount.expiryTs Example.ready_game < 2 ^ 53)
    by (vm_compute; reflexivity).
  assert (H2 : 1800000000 < GameAccount.expiryTs Example.ready_game)
    by (vm_compute; reflexivity).
  split; [exact Hget|]. split; [exact H1|]. split; [exact H2|].
  exact (proj1 (proj2 (cancelIfExpired_guards Example.derivation Example.transport
                         Example.client (Example.ledger_with Example.ready_game)
                         1800000000 Example.alice Example.game_pda Example.ready_game
                         Hget)) H1 H2).
Defined.

Lemma createResolveGameInstruction_total
    (D : Derivation) (connection : Ledger) (resolver gamePda winner : PublicKey)
    (g : GameAccount.t) (programId_ : PublicKey) :
  fits_layout g ->
  isNativeSOL (GameAccount.mint g) = true \/
  isOnCurve winner && isOnCurve (GameAccount.devWallet g) = true ->
  exists ix pre,
    createResolveGameInstruction connection resolver gamePda winner g programId_
      = Ok (ix, pre).
Proof.
  intros F Hc. destruct (isNativeSOL (GameAccount.mint g)) eqn:Hm.
  - do 2 eexists. apply createResolveGameInstruction_native. exact Hm.
  - destruct Hc as [Hc|Hc]; [discriminate Hc|].
    apply andb_true_iff in Hc. destruct Hc as [Hw Hd].
    assert (Hn : Z.abs (GameAccount.nonce g) < 2 ^ 64)
      by (unfold fits_layout in F; lia).
    destruct (createResolveGameInstruction_token connection resolver gamePda winner g
                programId_ Hm Hw Hd Hn) as (pre & E). do 2 eexists. exact E.
Qed.

(** X12.  On a Ready record and a winner who is one of the two players,
    [resolveGame] fails on its own in one case only: in a token game whose
    winner or dev wallet is not a point of the curve the companion lookup
    throws spl-token's off-curve error, and nothing is sent.  Otherwise it
    submits the resolve instruction signed by the caller (it does not
    check that the caller is the record's resolver) and, when the ledger
    confirms, reports the payouts computed from the record as read before
    the transaction; their pot is twice the stake and winner share plus
    fee make up the pot. *)
Theorem resolveGame_reports_payouts
    (D : Derivation) (T : Transport) (this : WagerClient) (connection : Ledger)
    (resolver gamePda winner : PublicKey) (g : GameAccount.t) :
  getGame connection gamePda = Ok g ->
  GameAccount.state g = GameState_value Ready ->
  winner = GameAccount.player1 g \/ winner = GameAccount.player2 g ->
  (isNativeSOL (GameAccount.mint g) = true \/
   isOnCurve winner && isOnCurve (GameAccount.devWallet g) = true ->
   exists ix pre payouts,
     createResolveGameInstruction connection resolver gamePda winner g
       (client_programId this) = Ok (ix, pre) /\
     required_signers ix = [resolver] /\
     calculatePayouts (GameAccount.wager g) (GameAccount.payoutBps g) = Ok payouts /\
     totalPot payouts = GameAccount.wager g * 2 /\
     winnerAmount payouts + feeAmount payouts = totalPot payouts /\
     resolveGame this connection resolver gamePda winner =
       match sendAndConfirmTransaction connection (pre ++ [ix]) [resolver] with
       | (Ok signature, connection') => (Ok (signature, payouts), connection')
       | (Err e, connection') => (Err e, connection')
       end) /\
  (isNativeSOL (GameAccount.mint g) = false ->
   isOnCurve winner && isOnCurve (GameAccount.devWallet g) = false ->
   resolveGame this connection resolver gamePda winner
     = (Err TokenOwnerOffCurveError, connection)).
Proof.
  intros Hget Hs Hw. pose proof (getGame_fits _ _ _ Hget) as F.
  assert (Hb : Z.abs (GameAccount.payoutBps g) < 67108864)
    by (unfold fits_layout in F; lia).
  assert (Hv : negb (winner =? GameAccount.player1 g)
               && negb (winner =? GameAccount.player2 g) = false).
  { destruct Hw as [->| ->]; rewrite Z.eqb_refl; cbn [negb andb];
      [reflexivity | apply andb_false_r]. }
  split.
  - intros Hcurve.
    destruct (createResolveGameInstruction_total D connection resolver gamePda winner g
                (client_programId this) F Hcurve) as (ix & pre & E).
    destruct (createResolveGameInstruction_shape _ _ _ _ _ _ _ _ E) as (_ & S & _).
    exists ix, pre. eexists. split; [exact E|].
    split; [exact (proj1 (caller_then_record_signers _ _ _ S))|].
    split; [apply calculatePayouts_eq; exact Hb|].
    cbn [totalPot winnerAmount feeAmount]. split; [reflexivity|]. split; [lia|].
    unfold resolveGame. rewrite Hget.
    unfold GameAccount.canResolve, PublicKey_.equals. rewrite Hs, Z.eqb_refl.
    cbn [negb].
    rewrite Hv. rewrite calculatePayouts_eq by exact Hb. rewrite E.
    destruct (sendAndConfirmTransaction connection (pre ++ [ix]) [resolver])
      as [[sig|e] c']; reflexivity.
  - intros Hm Hcurve.
    unfold resolveGame. rewrite Hget.
    unfold GameAccount.canResolve, PublicKey_.equals. rewrite Hs, Z.eqb_refl.
    cbn [negb].
    rewrite Hv. rewrite calculatePayouts_eq by exact Hb.
    rewrite createResolveGameInstruction_off_curve by assumption. reflexivity.
Qed.

Lemma resolveGame_reports_payouts_example :
  getGame (Example.ledger_with Example.ready_game) Example.game_pda
    = Ok Example.ready_game /\
  GameAccount.state Example.ready_game = GameState_value Ready /\
  (Example.bob = GameAccount.player1 Example.ready_game \/
   Example.bob = GameAccount.player2 Example.ready_game) /\
  exists payouts,
    calculatePayouts (GameAccount.wager Example.ready_game)
      (GameAccount.payoutBps Example.ready_game) = Ok payouts /\
    winnerAmount payouts + feeAmount payouts = totalPot payouts.
Proof.
  assert (Hget : getGame (Example.ledger_with Example.ready_game) Example.game_pda
                 = Ok Example.ready_game) by (vm_compute; reflexivity).
  assert (Hw : Example.bob = GameAccount.player1 Example.ready_game \/
               Example.bob = GameAccount.player2 Example.ready_game)
    by (right; reflexivity).
  split; [exact Hget|]. split; [reflexivity|]. split; [exact Hw|].
  destruct (proj1 (resolveGame_reports_payouts Example.derivation Example.transport
                     Example.client (Example.ledger_with Example.ready_game)
                     Example.carol Example.game_pda Example.bob Example.ready_game
                     Hget eq_refl Hw) (or_introl eq_refl))
    as (ix & pre & payouts & _ & _ & Hp & _ & Hsum & _).
  exists payouts. split; [exact Hp | exact Hsum].
Defined.

(* ================================================================= *)
(** ** Payouts outside the validated range *)

(** X13.  [calculatePayouts] does not validate the payout fraction: for a
    positive stake and any fraction from 0 up to the 26 bits the
    multiplication accepts it returns a result.  The winner's share is
    never negative and grows with the fraction; below 10000 it is strictly
    less than the pot, so the fee is at least one unit; at 10000 the fee
    is zero, and above it the share reaches or passes the pot and the fee
    is zero or negative. *)
Theorem calculatePayouts_fee_sign (wager payoutBps : Z) :
  0 < wager ->
  0 <= payoutBps < 67108864 ->
  exists p,
    calculatePayouts wager payoutBps = Ok p /\
    0 <= winnerAmount p /\
    (payoutBps < 10000 -> winnerAmount p < totalPot p /\ 0 < feeAmount p <= totalPot p) /\
    (payoutBps = 10000 -> feeAmount p = 0) /\
    (10000 < payoutBps -> feeAmount p <= 0) /\
    (forall payoutBps', payoutBps <= payoutBps' < 67108864 ->
       exists p', calculatePayouts wager payoutBps' = Ok p' /\
                  winnerAmount p <= winnerAmount p').
Proof.
  intros Hw Hb. rewrite calculatePayouts_eq by lia. eexists. split; [reflexivity|].
  cbn [winnerAmount feeAmount totalPot].
  rewrite Z.quot_div_nonneg by nia.
  assert (H0 : 0 <= wager * 2 * payoutBps / 10000) by (apply Z.div_pos; nia).
  split; [exact H0|]. split; [|split; [|split]].
  - intros Hlt.
    assert (wager * 2 * payoutBps / 10000 < wager * 2)
      by (apply Z.div_lt_upper_bound; nia).
    lia.
  - intros ->. rewrite Z.div_mul by lia. lia.
  - intros Hgt.
    assert (wager * 2 <= wager * 2 * payoutBps / 10000)
      by (apply Z.div_le_lower_bound; nia).
    lia.
  - intros bps' Hb'. rewrite calculatePayouts_eq by lia. eexists. split; [reflexivity|].
    cbn [winnerAmount]. rewrite Z.quot_div_nonneg by nia.
    apply Z.div_le_mono; nia.
Qed.

Lemma calculatePayouts_fee_sign_one_unit :
  0 < 1 /\ 0 <= 9999 < 67108864 /\
  exists p,
    calculatePayouts 1 9999 = Ok p /\ winnerAmount p = 1 /\ feeAmount p = 1.
Proof.
  split; [lia|]. split; [lia|].
  destruct (calculatePayouts_fee_sign 1 9999 ltac:(lia) ltac:(lia))
    as (p & E & _).
  exists p. split; [exact E|].
  vm_compute in E. injection E as <-. split; reflexivity.
Defined.

(* ================================================================= *)
(** ** Address derivation *)

(** X14.  [deriveGamePDAs] fails exactly when the magnitude of the nonce
    does not fit eight bytes, by the library's assertion.  Otherwise the
    game address comes from the creator and the magnitude of the nonce
    alone (the sign of the nonce and the mint play no part in it), and a
    vault address and bump are returned exactly when the mint is not the
    default key. *)
Theorem deriveGamePDAs_characterisation
    (D : Derivation) (creator : PublicKey) (nonce : Z) (mint programId_ : PublicKey) :
  (2 ^ 64 <= Z.abs nonce ->
   deriveGamePDAs creator nonce mint programId_ = Err AssertionError) /\
  (Z.abs nonce < 2 ^ 64 ->
   exists pdas,
     deriveGamePDAs creator nonce mint programId_ = Ok pdas /\
     gamePda pdas = game_address creator nonce programId_ /\
     (vaultPda pdas = None <-> mint = PublicKey_.default) /\
     (vaultBump pdas = None <-> mint = PublicKey_.default) /\
     forall mint',
       exists pdas',
         deriveGamePDAs creator nonce mint' programId_ = Ok pdas' /\
         gamePda pdas' = gamePda pdas /\ gameBump pdas' = gameBump pdas) /\
  deriveGamePDAs creator (- nonce) mint programId_
    = deriveGamePDAs creator nonce mint programId_.
Proof.
  split; [|split].
  - intros Hbig. unfold deriveGamePDAs, BN.toArrayLike_le.
    change (256 ^ Z.of_nat 8) with (2 ^ 64).
    destruct (Z.ltb_spec (Z.abs nonce) (2 ^ 64)); [lia | reflexivity].
  - intros Hn. unfold deriveGamePDAs, game_address.
    rewrite toArrayLike_le_8 by exact Hn. cbn [bind].
    destruct (findProgramAddressSync
                [Buffer.from_string "game"; PublicKey_.toBuffer creator;
                 Z_to_le 8 (Z.abs nonce)] programId_) as [game gbump] eqn:Eg.
    assert (V : forall m,
               exists pdas',
                 (if negb (PublicKey_.equals m PublicKey_.default)
                  then
                    let (vault, bump) :=
                      findProgramAddressSync
                        [Buffer.from_string "vault"; PublicKey_.toBuffer game;
                         PublicKey_.toBuffer m] programId_ in
                    Ok {| gamePda := game; gameBump := gbump;
                          vaultPda := Some vault; vaultBump := Some bump |}
                  else
                    Ok {| gamePda := game; gameBump := gbump;
                          vaultPda := None; vaultBump := None |}) = Ok pdas' /\
                 gamePda pdas' = game /\ gameBump pdas' = gbump /\
                 (vaultPda pdas' = None <-> m = PublicKey_.default) /\
                 (vaultBump pdas' = None <-> m = PublicKey_.default)).
    { intros m. unfold PublicKey_.equals.
      destruct (Z.eqb_spec m PublicKey_.default) as [Hd|Hd]; cbn [negb].
      - eexists. split; [reflexivity|]. cbn. intuition.
      - destruct (findProgramAddressSync
                    [Buffer.from_string "vault"; PublicKey_.toBuffer game;
                     PublicKey_.toBuffer m] programId_) as [vault bump].
        eexists. split; [reflexivity|]. cbn.
        repeat split; intros; (discriminate || contradiction || idtac). }
    destruct (V mint) as (pdas & E & Hg & Hb & Hv & Hvb).
    exists pdas. split; [exact E|]. split; [exact Hg|].
    split; [exact Hv|]. split; [exact Hvb|].
    intros mint'. destruct (V mint') as (pdas' & E' & Hg' & Hb' & _).
    exists pdas'. split; [exact E'|]. split; congruence.
  - unfold deriveGamePDAs, BN.toArrayLike_le. rewrite Z.abs_opp. reflexivity.
Qed.

Lemma deriveGamePDAs_characterisation_example :
  Z.abs (-42) < 2 ^ 64 /\
  exists pdas,
    @deriveGamePDAs Example.derivation Example.alice (-42) Example.usdc WAGER_PROGRAM_ID
      = Ok pdas /\
    gamePda pdas = @game_address Example.derivation Example.alice (-42) WAGER_PROGRAM_ID.
Proof.
  split; [reflexivity|].
  destruct (proj1 (proj2 (deriveGamePDAs_characterisation Example.derivation
                            Example.alice (-42) Example.usdc WAGER_PROGRAM_ID))
              ltac:(reflexivity)) as (pdas & E & Hg & _).
  exists pdas. split; [exact E | exact Hg].
Defined.

(* ================================================================= *)
(** ** Creation with defaults *)

(** X15.  [createGameWithDefaults] called without a payout fraction (or
    with the fraction 0, which [||] treats as absent), without an expiry
    time and without a nonce builds a request with the fraction 8500, the
    expiry time 86400 seconds after the clock and the generated nonce; the
    dev wallet and the resolver are the caller unless given, and a
    resolver is always present.  With a stake that fits eight bytes and an
    expiry time below the 2^53 that bn.js accepts for a number the request
    always passes the builder: one transaction
    holding the creation instruction alone, signed by the creator, is
    submitted, and on confirmation the game address of the creator and the
    generated nonce is returned together with the request. *)
Theorem createGameWithDefaults_defaults
    (D : Derivation) (T : Transport) (this : WagerClient) (connection : Ledger)
    (random : float64) (now : Z) (creator : PublicKey) (wager : Z) (mint : PublicKey)
    (options : CreateGameOptions.t) :
  Number.in_unit_interval random ->
  Z.abs wager < 2 ^ 64 ->
  Z.abs (now + 86400) < 2 ^ 53 ->
  CreateGameOptions.payoutBps options = None \/
  CreateGameOptions.payoutBps options = Some 0 ->
  CreateGameOptions.expiryTs options = None ->
  CreateGameOptions.nonce options = None ->
  exists ix args,
    CreateGameArgs.mint args = mint /\
    CreateGameArgs.wager args = wager /\
    CreateGameArgs.payoutBps args = 8500 /\
    CreateGameArgs.expiryTs args = now + 86400 /\
    CreateGameArgs.devWallet args
      = or_default (CreateGameOptions.devWallet options) creator /\
    CreateGameArgs.resolverPubkey args
      = Some (or_default (CreateGameOptions.resolverPubkey options) creator) /\
    CreateGameArgs.nonce args = Some (generateNonce random) /\
    createCreateGameInstruction random creator args (client_programId this)
      = Ok (ix, game_address creator (generateNonce random) (client_programId this), []) /\
    required_signers ix = [creator] /\
    createGameWithDefaults this connection random now creator wager mint options =
      match sendAndConfirmTransaction connection [ix] [creator] with
      | (Ok signature, connection') =>
          (Ok (signature,
               game_address creator (generateNonce random) (client_programId this),
               args), connection')
      | (Err e, connection') => (Err e, connection')
      end.
Proof.
  intros Hr Hw He Hbps Hexp Hnonce.
  pose proof (generateNonce_range random Hr) as Hn.
  set (args :=
    {| CreateGameArgs.mint := mint;
       CreateGameArgs.wager := wager;
       CreateGameArgs.payoutBps := 8500;
       CreateGameArgs.expiryTs := now + 86400;
       CreateGameArgs.devWallet :=
         or_default (CreateGameOptions.devWallet options) creator;
       CreateGameArgs.resolverPubkey :=
         Some (or_default (CreateGameOptions.resolverPubkey options) creator);
       CreateGameArgs.nonce := Some (generateNonce random) |}).
  destruct (createCreateGameInstruction_ok random creator args (client_programId this))
    as (ix & E & _).
  { cbn. lia. }
  { exact Hw. }
  { cbn [args CreateGameArgs.expiryTs]. lia. }
  { cbn [args CreateGameArgs.nonce or_default]. lia. }
  cbn [args CreateGameArgs.nonce or_default] in E.
  exists ix, args. do 7 (split; [reflexivity|]).
  split; [exact E|].
  destruct (createCreateGameInstruction_shape _ _ _ _ _ _ _ E)
    as (_ & _ & _ & _ & _ & _ & _ & S & _).
  split; [exact (proj1 (caller_then_record_signers _ _ _ S))|].
  unfold createGameWithDefaults, hoursFromNow, BN.of_number.
  rewrite Hexp, Hnonce. cbn [or_default].
  replace (now + 24 * 3600) with (now + 86400) by lia.
  change 9007199254740992 with (2 ^ 53).
  destruct (Z.ltb_spec (Z.abs (now + 86400)) (2 ^ 53)); [|lia].
  assert (Hp : match CreateGameOptions.payoutBps options with
               | Some 0 | None => 8500
               | Some bps => bps
               end = 8500)
    by (destruct Hbps as [-> | ->]; reflexivity).
  rewrite Hp. fold args. unfold createGame. rewrite E. cbn [app].
  destruct (sendAndConfirmTransaction connection [ix] [creator]) as [[sig|e] c'];
    reflexivity.
Qed.

Lemma createGameWithDefaults_defaults_example :
  Number.in_unit_interval Example.half /\
  exists ix args,
    CreateGameArgs.payoutBps args = 8500 /\
    CreateGameArgs.expiryTs args = 1700086400 /\
    CreateGameArgs.nonce args = Some 500000 /\
    @createCreateGameInstruction Example.derivation Example.half Example.alice args
      WAGER_PROGRAM_ID
      = Ok (ix, @game_address Example.derivation Example.alice 500000 WAGER_PROGRAM_ID, []).
Proof.
  assert (H : Number.in_unit_interval Example.half)
    by (unfold Number.in_unit_interval; vm_compute; intuition discriminate).
  split; [exact H|].
  destruct (createGameWithDefaults_defaults Example.derivation Example.transport
              Example.client (Example.ledger_with Example.open_game) Example.half
              1700000000 Example.alice 1000000000 PublicKey_.default
              (CreateGameOptions.mk (Some 0) None None None None)
              H ltac:(reflexivity) ltac:(reflexivity) (or_intror eq_refl)
              eq_refl eq_refl)
    as (ix & args & _ & _ & Hb & He & _ & _ & Hn & E & _).
  exists ix, args. split; [exact Hb|]. split; [exact He|]. split; [exact Hn|]. exact E.
Defined.

(* ================================================================= *)
(** ** Reading several records *)



(* ================================================================= *)
(** ** Companion accounts created on the way *)

Section Companions.
Context {D : Derivation}.

Lemma push_if_created
    (connection : Ledger) (payer mint owner_ : PublicKey) (allow : bool)
    (pre : list TransactionInstruction) (address : PublicKey)
    (created : option TransactionInstruction) :
  getOrCreateAssociatedTokenAccount connection payer mint owner_ allow
    = Ok (address, created) ->
  Forall (paid_companion_creation payer) pre ->
  Forall (paid_companion_creation payer) (push_if pre created) /\
  (List.length (push_if pre created) <= S (List.length pre))%nat.
Proof.
  unfold getOrCreateAssociatedTokenAccount.
  destruct (getAssociatedTokenAddressSync mint owner_ allow) as [associatedToken|e];
    cbn [bind]; [|intros E; discriminate E].
  destruct (getAccountInfo connection associatedToken);
    intros E F; injection E as <- <-; cbn [push_if].
  - split; [exact F | lia].
  - split.
    + apply Forall_app. split; [exact F|]. constructor; [|constructor].
      split; reflexivity.
    + rewrite length_app. cbn [List.length]. lia.
Qed.

End Companions.

(** X17.  Whatever the join, resolve and cancel builders put in front of
    the game instruction is a creation of a companion token account, paid
    and signed by the caller alone: at most one for a join, at most two for
    a resolve or a cancel, none for a native game.  Together with the game
    instruction, every instruction of the transaction asks for the
    caller's signature and no other. *)
Theorem transactions_signed_by_caller
    (D : Derivation) (connection : Ledger) (caller gamePda winner : PublicKey)
    (g : GameAccount.t) (programId_ : PublicKey) :
  (forall ix pre,
      createJoinGameInstruction connection caller gamePda g programId_ = Ok (ix, pre) ->
      Forall (paid_companion_creation caller) pre /\
      (List.length pre <= 1)%nat /\
      (isNativeSOL (GameAccount.mint g) = true -> pre = []) /\
      Forall (fun i => required_signers i = [caller]) (pre ++ [ix])) /\
  (forall ix pre,
      createResolveGameInstruction connection caller gamePda winner g programId_
        = Ok (ix, pre) ->
      Forall (paid_companion_creation caller) pre /\
      (List.length pre <= 2)%nat /\
      (isNativeSOL (GameAccount.mint g) = true -> pre = []) /\
      Forall (fun i => required_signers i = [caller]) (pre ++ [ix])) /\
  (forall ix pre,
      createCancelGameInstruction connection caller gamePda g programId_ = Ok (ix, pre) ->
      Forall (paid_companion_creation caller) pre /\
      (List.length pre <= 2)%nat /\
      (isNativeSOL (GameAccount.mint g) = true -> pre = []) /\
      Forall (fun i => required_signers i = [caller]) (pre ++ [ix])).
Proof.
  assert (Close : forall ix pre n,
             caller_then_record ix caller gamePda ->
             Forall (paid_companion_creation caller) pre /\
             (List.length pre <= n)%nat /\
             (isNativeSOL (GameAccount.mint g) = true -> pre = []) ->
             Forall (paid_companion_creation caller) pre /\
             (List.length pre <= n)%nat /\
             (isNativeSOL (GameAccount.mint g) = true -> pre = []) /\
             Forall (fun i => required_signers i = [caller]) (pre ++ [ix])).
  { intros ix pre n S (F & L & N). split; [exact F|]. split; [exact L|].
    split; [exact N|]. apply Forall_app. split.
    - eapply Forall_impl; [|exact F]. intros i Hi. exact (proj2 Hi).
    - constructor; [|constructor]. exact (proj1 (caller_then_record_signers _ _ _ S)). }
  split; [|split]; intros ix pre E.
  - destruct (createJoinGameInstruction_shape _ _ _ _ _ _ _ E) as (_ & S & _).
    apply (Close ix pre 1%nat S). clear Close S.
    unfold createJoinGameInstruction in E.
    destruct (isNativeSOL (GameAccount.mint g)) eqn:Hm; cbn [negb bind] in E.
    + injection E as _ <-. split; [constructor|]. split; [cbn; lia | reflexivity].
    + destruct (getOrCreateAssociatedTokenAccount connection caller
                  (GameAccount.mint g) caller false) as [[a o]|e] eqn:G;
        cbn [bind] in E; [|discriminate E].
      pose proof (push_if_created _ _ _ _ _ [] _ _ G (Forall_nil _)) as (F1 & L1).
      destruct (derived_vault g (GameAccount.mint g) programId_); cbn [bind] in E;
        [|discriminate E].
      injection E as _ <-.
      split; [exact F1|]. split; [exact L1 | discriminate].
  - destruct (createResolveGameInstruction_shape _ _ _ _ _ _ _ _ E) as (_ & S & _).
    apply (Close ix pre 2%nat S). clear Close S.
    unfold createResolveGameInstruction in E.
    destruct (isNativeSOL (GameAccount.mint g)) eqn:Hm; cbn [negb bind] in E.
    + injection E as _ <-. split; [constructor|]. split; [cbn; lia | reflexivity].
    + destruct (getOrCreateAssociatedTokenAccount connection caller
                  (GameAccount.mint g) winner false) as [[a o]|e] eqn:G;
        cbn [bind] in E; [|discriminate E].
      pose proof (push_if_created _ _ _ _ _ [] _ _ G (Forall_nil _)) as (F1 & L1).
      destruct (getOrCreateAssociatedTokenAccount connection caller
                  (GameAccount.mint g) (GameAccount.devWallet g) false)
        as [[a' o']|e] eqn:G'; cbn [bind] in E; [|discriminate E].
      pose proof (push_if_created _ _ _ _ _ (push_if [] o) _ _ G' F1) as (F2 & L2).
      destruct (derived_vault g (GameAccount.mint g) programId_); cbn [bind] in E;
        [|discriminate E].
      injection E as _ <-.
      split; [exact F2|]. split; [cbn [List.length] in L1; lia | discriminate].
  - destruct (createCancelGameInstruction_shape _ _ _ _ _ _ _ E) as (_ & S & _).
    apply (Close ix pre 2%nat S). clear Close S.
    unfold createCancelGameInstruction in E.
    destruct (isNativeSOL (GameAccount.mint g)) eqn:Hm; cbn [negb bind] in E.
    + injection E as _ <-. split; [constructor|]. split; [cbn; lia | reflexivity].
    + destruct (getOrCreateAssociatedTokenAccount connection caller
                  (GameAccount.mint g) (GameAccount.creator g) false)
        as [[a o]|e] eqn:G; cbn [bind] in E; [|discriminate E].
      pose proof (push_if_created _ _ _ _ _ [] _ _ G (Forall_nil _)) as (F1 & L1).
      destruct (negb (PublicKey_.equals (GameAccount.player2 g) PublicKey_.default));
        cbn [bind] in E.
      * destruct (getOrCreateAssociatedTokenAccount connection caller
                    (GameAccount.mint g) (GameAccount.player2 g) false)
          as [[a' o']|e] eqn:G'; cbn [bind] in E; [|discriminate E].
        pose proof (push_if_created _ _ _ _ _ (push_if [] o) _ _ G' F1) as (F2 & L2).
        destruct (derived_vault g (GameAccount.mint g) programId_); cbn [bind] in E;
          [|discriminate E].
        injection E as _ <-.
        split; [exact F2|]. split; [cbn [List.length] in L1; lia | discriminate].
      * destruct (derived_vault g (GameAccount.mint g) programId_); cbn [bind] in E;
          [|discriminate E].
        injection E as _ <-.
        split; [exact F1|]. split; [cbn [List.length] in L1; lia | discriminate].
Qed.

Lemma transactions_signed_by_caller_token_join :
  exists ix pre,
    @createJoinGameInstruction Example.derivation
      (Example.ledger_with Example.usdc_open_game) Example.bob Example.game_pda
      Example.usdc_open_game WAGER_PROGRAM_ID = Ok (ix, pre) /\
    List.length pre = 1%nat /\
    Forall (fun i => required_signers i = [Example.bob]) (pre ++ [ix]).
Proof.
  destruct (@createJoinGameInstruction Example.derivation
              (Example.ledger_with Example.usdc_open_game) Example.bob Example.game_pda
              Example.usdc_open_game WAGER_PROGRAM_ID) as [[ix pre]|e] eqn:E;
    [|vm_compute in E; discriminate E].
  exists ix, pre. split; [reflexivity|].
  split; [vm_compute in E; injection E as _ <-; reflexivity|].
  exact (proj2 (proj2 (proj2
           (proj1 (transactions_signed_by_caller Example.derivation
                     (Example.ledger_with Example.usdc_open_game) Example.bob
                     Example.game_pda Example.bob Example.usdc_open_game
                     WAGER_PROGRAM_ID) ix pre E)))).
Defined.
